(** * CSM.FileSync: the framing layer, the reconciliation planner and the
      client-side executor, embedded from [src/utils.py] and [src/client.py].

    Conventions of the embedding.
    - Python [bytes] are [list byte]; Python [str] are [string] (code points
      below 256); sizes and counts are [N] or [Z].
    - A function that touches the socket, the disk or the log is a computation
      [M A]: it takes the [world] and gives back either a value or the raised
      exception, together with the world it leaves behind.  Effects made before
      an exception is raised stay in that world, as in Python.
    - Unbounded [while] loops carry a budget of iterations; [LoopBudget] is the
      outcome of a run that exhausts it, and the budget lemmas show that the
      budget the functions pass is never exhausted. *)

From Stdlib Require Import ZArith NArith List Strings.String Strings.Ascii Strings.Byte Lia Bool.
From stdpp Require Import base option list strings gmap sets sorting pretty.

Abbreviation bytes := (list byte).
Abbreviation path := (list string).

Set Warnings "-register-all".

(** ** Python values and exceptions *)

Inductive json :=
| JNull
| JBool (b : bool)
| JNum (z : Z)
| JStr (s : string)
| JArr (items : list json)
| JObj (members : list (string * json)).

(** What a call that returns nothing, or a count, hands back to its caller. *)
Inductive pyret :=
| PyNone
| PyInt (n : N).

Inductive exn :=
| ConnectionError      (* raised by recv_json itself *)
| StructError          (* struct.error *)
| ValueError           (* json.JSONDecodeError, UnicodeDecodeError *)
| OSError              (* a failing socket call *)
| IsADirectoryError
| NotADirectoryError
| FileExistsError
| PermissionError
| OSErrorNotEmpty      (* rmdir of a directory that still has entries *)
| FileNotFoundError
| KeyError
| TypeError
| AttributeError
| LoopBudget.          (* the iteration budget of a loop ran out *)

(** ** The world: one connection, the local disk, the log *)

Inductive stream_end :=
| Closed               (* recv returns b"" once the data is used up *)
| Reset.               (* recv raises once the data is used up *)

Record conn := Conn {
  inbox : list bytes;       (* segments as the network will deliver them *)
  ending : stream_end;
  outbox : bytes            (* everything sendall has written so far *)
}.

Inductive node :=
| File (content : bytes) (mtime : Z)
| Dir.

Record filesystem := Filesystem {
  nodes : gmap path node;
  locked : gset path        (* paths the system refuses to remove or rewrite *)
}.

Inductive log_record :=
| LogFileReceived (dest : path) (written : N)
| LogDeleted (p : path)
| LogUnlinkFailed (p : path)
| LogFolderDeleted (d : path)
| LogDeleteFailed (p : path)
| LogNotFound (gid rel : string)
| LogNotConnected
| LogReceived (name : string) (target : path)
| LogLost (e : exn).

Inductive ui_event :=
| Progress (done total : Z)
| Disconnected (reason : string).

Record world := World {
  net : conn;
  disk : filesystem;
  logged : list log_record;
  clock : list Z;           (* the readings time.time() will give, in order *)
  ui : list ui_event;       (* calls made to progress_cb and on_disconnect *)
  chunks : list N           (* the sizes f.write was called with, in order *)
}.

Definition M (A : Type) : Type := world -> (exn + A) * world.

Definition ret {A} (a : A) : M A := fun w => (inr a, w).
Definition raise {A} (e : exn) : M A := fun w => (inl e, w).
Definition bind {A B} (m : M A) (k : A -> M B) : M B :=
  fun w => match m w with
           | (inr a, w') => k a w'
           | (inl e, w') => (inl e, w')
           end.

Declare Scope py_scope.
Delimit Scope py_scope with py.
Notation "x <- m ;; k" := (bind m (fun x => k))
  (at level 100, m at next level, right associativity) : py_scope.
Notation "m ;;; k" := (bind m (fun _ => k))
  (at level 100, right associativity) : py_scope.
Local Open Scope py_scope.

Definition get_world : M world := fun w => (inr w, w).
Definition set_net (c : conn) : M unit :=
  fun w => (inr tt, World c (disk w) (logged w) (clock w) (ui w) (chunks w)).
Definition set_disk (d : filesystem) : M unit :=
  fun w => (inr tt, World (net w) d (logged w) (clock w) (ui w) (chunks w)).
Definition log_emit (r : log_record) : M unit :=
  fun w => (inr tt, World (net w) (disk w) (logged w ++ [r]) (clock w) (ui w) (chunks w)).
Definition note_write (n : N) : M unit :=
  fun w => (inr tt, World (net w) (disk w) (logged w) (clock w) (ui w) (chunks w ++ [n])).
Definition ui_emit (e : ui_event) : M unit :=
  fun w => (inr tt, World (net w) (disk w) (logged w) (clock w) (ui w ++ [e]) (chunks w)).

(** The bytes still to come on the connection. *)
Definition pending (c : conn) : bytes := concat (inbox c).

Definition len (b : bytes) : N := N.of_nat (length b).

(** A loop body run under the budget "one more than the bytes still to come":
    every iteration that does not leave the loop takes at least one byte. *)
Definition with_budget {A} (f : nat -> M A) : M A :=
  fun w => f (S (length (pending (net w)))) w.

(** ** Big-endian integers: struct.pack / struct.unpack with "!I" and "!Q" *)

Definition byte_of_N (n : N) : byte :=
  match Byte.of_N (n mod 256) with
  | Some b => b
  | None => x00
  end.

Fixpoint be_bytes (width : nat) (n : N) : bytes :=
  match width with
  | O => []
  | S w => be_bytes w (n / 256) ++ [byte_of_N n]
  end.

Definition be_value (b : bytes) : N :=
  fold_left (fun acc x => (acc * 256 + Byte.to_N x)%N) b 0%N.

(** struct.pack("!I", n) for width 4, struct.pack("!Q", n) for width 8. *)
Definition struct_pack (width : nat) (n : N) : M bytes :=
  if (n <? 256 ^ N.of_nat width)%N then ret (be_bytes width n) else raise StructError.

(** struct.unpack: the buffer must have exactly the format's size. *)
Definition struct_unpack (width : nat) (raw : bytes) : M N :=
  if Nat.eqb (length raw) width then ret (be_value raw) else raise StructError.

(** ** The socket *)

(** sock.recv(k): the next segment, or its first [k] bytes. *)
Fixpoint recv_from (k : N) (segs : list bytes) : bytes * list bytes :=
  match segs with
  | [] => ([], [])
  | [] :: rest => recv_from k rest
  | seg :: rest =>
      let m := N.to_nat (N.min k (len seg)) in
      (take m seg, match drop m seg with [] => rest | more => more :: rest end)
  end.

Definition recv (k : N) : M bytes :=
  fun w =>
    let c := net w in
    match recv_from k (inbox c) with
    | ([], segs) =>
        let w' := World (Conn segs (ending c) (outbox c)) (disk w) (logged w) (clock w) (ui w) (chunks w) in
        match segs, ending c with
        | [], Reset => (inl OSError, w')
        | _, _ => (inr [], w')
        end
    | (chunk, segs) =>
        (inr chunk, World (Conn segs (ending c) (outbox c)) (disk w) (logged w) (clock w) (ui w) (chunks w))
    end.

Definition sendall (data : bytes) : M unit :=
  fun w =>
    let c := net w in
    (inr tt, World (Conn (inbox c) (ending c) (outbox c ++ data)) (disk w) (logged w) (clock w) (ui w) (chunks w)).

(** ** Strings and paths *)

Definition slash : ascii := "/"%char.

(** [s.split("/")] *)
Fixpoint split_slash (s : string) : list string :=
  match s with
  | EmptyString => [EmptyString]
  | String c rest =>
      if Ascii.eqb c slash then EmptyString :: split_slash rest
      else match split_slash rest with
           | x :: xs => String c x :: xs
           | [] => [String c EmptyString]
           end
  end.

(** [s.split("/", 1)]: the part before the first slash and, when there is a
    slash, the part after it. *)
Fixpoint split_once (s : string) : string * option string :=
  match s with
  | EmptyString => (EmptyString, None)
  | String c rest =>
      if Ascii.eqb c slash then (EmptyString, Some rest)
      else let '(h, t) := split_once rest in (String c h, t)
  end.

(** ["/" in s] *)
Definition has_slash (s : string) : bool :=
  match split_once s with
  | (_, Some _) => true
  | (_, None) => false
  end.

Definition startswith (pre s : string) : bool := String.prefix pre s.

(** [c.isdigit()] on code points below 256: the ASCII digits and the
    superscripts U+00B2, U+00B3 and U+00B9. *)
Definition isdigit_char (c : ascii) : bool :=
  let n := N_of_ascii c in
  ((48 <=? n) && (n <=? 57))%N || (n =? 178)%N || (n =? 179)%N || (n =? 185)%N.

Fixpoint all_chars (f : ascii -> bool) (s : string) : bool :=
  match s with
  | EmptyString => true
  | String c rest => f c && all_chars f rest
  end.

(** [s.isdigit()]: at least one character, all of them digits. *)
Definition isdigit (s : string) : bool :=
  match s with
  | EmptyString => false
  | _ => all_chars isdigit_char s
  end.

(** [c.lower()] on code points below 256. *)
Definition lower_char (c : ascii) : ascii :=
  let n := N_of_ascii c in
  if ((65 <=? n) && (n <=? 90))%N || ((192 <=? n) && (n <=? 222) && negb (n =? 215))%N
  then ascii_of_N (n + 32) else c.

Fixpoint lower (s : string) : string :=
  match s with
  | EmptyString => EmptyString
  | String c rest => String (lower_char c) (lower rest)
  end.

(** The text from the last dot of [s] on, when [s] has a dot. *)
Fixpoint from_last_dot (s : string) : option string :=
  match s with
  | EmptyString => None
  | String c rest =>
      match from_last_dot rest with
      | Some t => Some t
      | None => if Ascii.eqb c "."%char then Some s else None
      end
  end.

(** [PurePath.suffix] of a file name: the last dot and what follows it, unless
    the dot starts or ends the name. *)
Definition suffix (name : string) : string :=
  match name with
  | EmptyString => EmptyString
  | String c rest =>
      match from_last_dot rest with
      | Some (String _ (String _ _) as t) => t
      | _ => EmptyString
      end
  end.

(** The components pathlib keeps of a string: empty ones and "." are dropped. *)
Definition path_parts (s : string) : path :=
  filter (fun c => c <> EmptyString /\ c <> "."%string) (split_slash s).

(** [p / s] on POSIX paths: an absolute [s] replaces [p].  Paths of the model
    are absolute; ".." and links are names like any other. *)
Definition pjoin (p : path) (s : string) : path :=
  if startswith "/" s then path_parts s else p ++ path_parts s.

(** [Path.parent]: the path without its last component. *)
Definition parent (p : path) : path := removelast p.

(** [Path.name] *)
Definition basename (p : path) : string := List.last p EmptyString.

(** [str.join("/", parts)], the text of [as_posix()]. *)
Fixpoint join_slash (parts : list string) : string :=
  match parts with
  | [] => EmptyString
  | [x] => x
  | x :: rest => x +:+ "/" +:+ join_slash rest
  end.

(** ** Reading the disk *)

Definition exists_ (fs : filesystem) (p : path) : bool :=
  match nodes fs !! p with Some _ => true | None => false end.

Definition is_dir (fs : filesystem) (p : path) : bool :=
  match nodes fs !! p with Some Dir => true | _ => false end.

Definition is_file (fs : filesystem) (p : path) : bool :=
  match nodes fs !! p with Some (File _ _) => true | _ => false end.

(** The entries directly inside [d], as [iterdir] lists them. *)
Definition children (fs : filesystem) (d : path) : list path :=
  filter (fun p => parent p = d /\ p <> d) (map_to_list (nodes fs)).*1.

(** Everything below [d], as [rglob("*")] lists it; nothing when [d] is not a
    directory. *)
Definition rglob (fs : filesystem) (d : path) : list path :=
  if is_dir fs d
  then filter (fun p => d `prefix_of` p /\ p <> d) (map_to_list (nodes fs)).*1
  else [].

(** [f.stat()] of a regular file: its size and modification time. *)
Definition stat_file (fs : filesystem) (p : path) : option (Z * Z) :=
  match nodes fs !! p with
  | Some (File content t) => Some (Z.of_nat (length content), t)
  | _ => None
  end.

(** Computations that only read: a value or the raised exception. *)
Definition bindR {A B} (m : exn + A) (k : A -> exn + B) : exn + B :=
  match m with
  | inr a => k a
  | inl e => inl e
  end.
Notation "x <-? m ;; k" := (bindR m (fun x => k))
  (at level 100, m at next level, right associativity) : py_scope.

Fixpoint mapR {A B} (f : A -> exn + B) (l : list A) : exn + list B :=
  match l with
  | [] => inr []
  | a :: rest => b <-? f a ;; bs <-? mapR f rest ;; inr (b :: bs)
  end.

Fixpoint foldR {A B} (f : A -> B -> exn + A) (l : list B) (a : A) : exn + A :=
  match l with
  | [] => inr a
  | b :: rest => a' <-? f a b ;; foldR f rest a'
  end.

(** ** Changing the disk *)

(** [p.unlink()] *)
Definition unlink (p : path) : M unit :=
  fun w =>
    match nodes (disk w) !! p with
    | Some (File _ _) =>
        if decide (p ∈ locked (disk w)) then (inl PermissionError, w)
        else set_disk (Filesystem (delete p (nodes (disk w))) (locked (disk w))) w
    | Some Dir => (inl IsADirectoryError, w)
    | None => (inl FileNotFoundError, w)
    end.

(** [d.rmdir()]: only an empty directory goes. *)
Definition rmdir (d : path) : M unit :=
  fun w =>
    match nodes (disk w) !! d with
    | Some Dir =>
        if decide (d ∈ locked (disk w)) then (inl PermissionError, w)
        else match children (disk w) d with
             | [] => set_disk (Filesystem (delete d (nodes (disk w))) (locked (disk w))) w
             | _ :: _ => (inl OSErrorNotEmpty, w)
             end
    | Some (File _ _) => (inl NotADirectoryError, w)
    | None => (inl FileNotFoundError, w)
    end.

(** [try: body / except Exception: handler].  The budget marker is no Python
    exception and passes through. *)
Definition try_except {A} (body : M A) (handler : exn -> M A) : M A :=
  fun w =>
    match body w with
    | (inl LoopBudget, w') => (inl LoopBudget, w')
    | (inl e, w') => handler e w'
    | (inr a, w') => (inr a, w')
    end.

Fixpoint foldM {A B} (f : A -> B -> M A) (l : list B) (a : A) : M A :=
  match l with
  | [] => ret a
  | b :: rest => a' <- f a b ;; foldM f rest a'
  end.

(** A read-only computation run inside [M]. *)
Definition read_disk {A} (f : filesystem -> exn + A) : M A :=
  fun w => (f (disk w), w).

(** ** utils.py: length-prefixed JSON and raw files *)

Module utils.

(**
<<
@dataclass
class FileEntry:
    rel_folder: str; name: str; size: int; mtime: float; sha256: str; kind: str
>>
   [mtime] is carried around and never computed with; it is kept as a number
   of clock ticks. *)
Record FileEntry := {
  rel_folder : string;
  name : string;
  size : Z;
  mtime : Z;
  sha256 : string;
  kind : string
}.

Section Hash.

(** [hashlib.sha256(content).hexdigest()] *)
Variable sha256_hex : bytes -> string.

(**
<<
def sha256_of_file(path):
    h = hashlib.sha256()
    with path.open("rb") as f:
        for chunk in iter(lambda: f.read(1024 * 1024), b""):
            h.update(chunk)
    return h.hexdigest()
>>
*)
Definition sha256_of_file (fs : filesystem) (p : path) : exn + string :=
  match nodes fs !! p with
  | Some (File content _) => inr (sha256_hex content)
  | Some Dir => inl IsADirectoryError
  | None => inl FileNotFoundError
  end.

End Hash.

(** The two destinations a folder can go to: the strings "assets" and "mods". *)
Inductive dest := assets | mods.

(**
<<
def build_client_target(entry, assets_path, mods_path, dest_base):
    base = assets_path if dest_base == "assets" else mods_path
    return base / entry.rel_folder / Path(entry.name)
>>
*)
Definition build_client_target (entry : FileEntry) (assets_path mods_path : path)
    (dest_base : dest) : path :=
  let base := match dest_base with assets => assets_path | mods => mods_path end in
  pjoin (pjoin base (rel_folder entry)) (name entry).

(**
<<
def recvall(sock, n):
    buf = b""
    while len(buf) < n:
        chunk = sock.recv(n - len(buf))
        if not chunk:
            break
        buf += chunk
    return buf
>>
*)
Fixpoint recvall_loop (budget : nat) (n : N) (buf : bytes) : M bytes :=
  if (len buf <? n)%N then
    match budget with
    | O => raise LoopBudget
    | S budget' =>
        chunk <- recv (n - len buf) ;;
        match chunk with
        | [] => ret buf
        | _ => recvall_loop budget' n (buf ++ chunk)
        end
    end
  else ret buf.

Definition recvall (n : N) : M bytes :=
  with_budget (fun budget => recvall_loop budget n []).

Section Codec.

(** [json.dumps(obj).encode("utf-8")] and [json.loads(data.decode("utf-8"))]
    belong to Python's library; [None] stands for the ValueError the decoder
    raises on bytes that are not UTF-8 or not JSON. *)
Variable json_encode : json -> bytes.
Variable json_decode : bytes -> option json.

(**
<<
def send_json(sock, obj):
    data = json.dumps(obj).encode("utf-8")
    sock.sendall(struct.pack("!I", len(data)))
    sock.sendall(data)
>>
*)
Definition send_json (obj : json) : M unit :=
  let data := json_encode obj in
  hdr <- struct_pack 4 (len data) ;;
  sendall hdr ;;;
  sendall data.

(**
<<
def recv_json(sock):
    raw_len = recvall(sock, 4)
    if not raw_len:
        raise ConnectionError("connection closed")
    (length,) = struct.unpack("!I", raw_len)
    data = recvall(sock, length)
    return json.loads(data.decode("utf-8"))
>>
*)
Definition recv_json : M json :=
  raw_len <- recvall 4 ;;
  match raw_len with
  | [] => raise ConnectionError
  | _ =>
      length <- struct_unpack 4 raw_len ;;
      data <- recvall length ;;
      match json_decode data with
      | Some v => ret v
      | None => raise ValueError
      end
  end.

End Codec.

Definition now (w : world) : Z := hd 0%Z (clock w).

(** One step of [mkdir(parents=True, exist_ok=True)]: the directory [q] is
    there afterwards, or the call fails because a regular file is in the way. *)
Definition mkdir_one (final : bool) (q : path) : M unit :=
  fun w =>
    match nodes (disk w) !! q with
    | Some Dir => (inr tt, w)
    | Some (File _ _) => (inl (if final then FileExistsError else NotADirectoryError), w)
    | None => set_disk (Filesystem (<[q := Dir]> (nodes (disk w))) (locked (disk w))) w
    end.

Fixpoint mkdir_prefixes (done todo : path) : M unit :=
  match todo with
  | [] => ret tt
  | x :: rest =>
      mkdir_one (match rest with [] => true | _ => false end) (done ++ [x]) ;;;
      mkdir_prefixes (done ++ [x]) rest
  end.

Definition mkdir_parents (p : path) : M unit := mkdir_prefixes [] p.

(** [dest.open("wb")]: creates the file or truncates it. *)
Definition open_wb (p : path) : M unit :=
  fun w =>
    match nodes (disk w) !! p with
    | Some Dir => (inl IsADirectoryError, w)
    | _ =>
        if decide (p ∈ locked (disk w)) then (inl PermissionError, w)
        else set_disk (Filesystem (<[p := File [] (now w)]> (nodes (disk w))) (locked (disk w))) w
    end.

(** [f.write(chunk)] on the file opened at [p]. *)
Definition file_write (p : path) (chunk : bytes) : M unit :=
  note_write (len chunk) ;;;
  fun w =>
    match nodes (disk w) !! p with
    | Some (File c t) =>
        set_disk (Filesystem (<[p := File (c ++ chunk) t]> (nodes (disk w))) (locked (disk w))) w
    | _ => (inr tt, w)
    end.

(**
<<
def recv_file(sock, dest) -> None:
    raw = recvall(sock, 8)
    (size,) = struct.unpack("!Q", raw)
    dest.parent.mkdir(parents=True, exist_ok=True)
    written = 0
    with dest.open("wb") as f:
        while written < size:
            chunk = sock.recv(min(1024 * 256, size - written))
            if not chunk:
                break
            f.write(chunk)
            written += len(chunk)
    log.debug("Datei empfangen: %s (%d B)", dest, written)
>>
*)
Fixpoint recv_file_loop (budget : nat) (dest : path) (size written : N) : M N :=
  if (written <? size)%N then
    match budget with
    | O => raise LoopBudget
    | S budget' =>
        chunk <- recv (N.min (1024 * 256) (size - written)) ;;
        match chunk with
        | [] => ret written
        | _ =>
            file_write dest chunk ;;;
            recv_file_loop budget' dest size (written + len chunk)
        end
    end
  else ret written.

Definition recv_file (dest : path) : M pyret :=
  raw <- recvall 8 ;;
  size <- struct_unpack 8 raw ;;
  mkdir_parents (parent dest) ;;;
  open_wb dest ;;;
  written <- with_budget (fun budget => recv_file_loop budget dest size 0) ;;
  log_emit (LogFileReceived dest written) ;;;
  ret PyNone.

End utils.

(** ** client.py: classification, planning, synchronisation, deletion *)

Module client.
Import utils.

Inductive folder_class := cls_assets | cls_mods | cls_mixed.

Inductive action := NEW | UPDATE | SAME | DELETE.

Inductive level := folder | file.

#[global] Instance action_eq_dec : EqDecision action.
Proof. solve_decision. Defined.

#[global] Instance folder_class_eq_dec : EqDecision folder_class.
Proof. solve_decision. Defined.

#[global] Instance level_eq_dec : EqDecision level.
Proof. solve_decision. Defined.

Definition action_code (a : action) : nat :=
  match a with NEW => 0 | UPDATE => 1 | SAME => 2 | DELETE => 3 end.

Definition action_of_code (n : nat) : action :=
  match n with 0 => NEW | 1 => UPDATE | 2 => SAME | _ => DELETE end.

#[global] Instance action_countable : Countable action.
Proof.
  apply (inj_countable' action_code action_of_code).
  intros a. destruct a; reflexivity.
Defined.

(**
<<
@dataclass
class PlanItem:
    key: str; entry: FileEntry; target: Path; action: str; level: str
>>
*)
Record PlanItem := {
  key : string;
  entry : FileEntry;
  target : path;
  act : action;
  lvl : level
}.

Variant socket := Sock.

(** The fields of [SyncClient] the planner and the executor use.  [_index] is
    the manifest in the order the host sent it. *)
Record SyncClient := {
  assets_path : path;
  mods_path : path;
  _sock : option socket;
  _index : list (string * FileEntry);
  _folder_class : gmap string folder_class;
  _folder_override : gmap string dest
}.

(** [groups.setdefault(fe.rel_folder, []).append(fe)] on a dict that keeps its
    keys in the order they were first set. *)
Fixpoint group_add (gid : string) (fe : FileEntry)
    (groups : list (string * list FileEntry)) : list (string * list FileEntry) :=
  match groups with
  | [] => [(gid, [fe])]
  | (g, files) :: rest =>
      if String.eqb g gid then (g, files ++ [fe]) :: rest
      else (g, files) :: group_add gid fe rest
  end.

(**
<<
def _group_index(self):
    groups = {}
    for _, meta in self._index.items():
        fe = FileEntry( **meta)
        groups.setdefault(fe.rel_folder, []).append(fe)
    return groups
>>
*)
Definition _group_index (self : SyncClient) : list (string * list FileEntry) :=
  fold_left (fun groups km => group_add (rel_folder km.2) km.2 groups) (_index self) [].

(** [groups.get(gid)] and [gid in groups] *)
Fixpoint groups_get (gid : string) (groups : list (string * list FileEntry))
    : option (list FileEntry) :=
  match groups with
  | [] => None
  | (g, files) :: rest => if String.eqb g gid then Some files else groups_get gid rest
  end.

Definition in_groups (gid : string) (groups : list (string * list FileEntry)) : bool :=
  match groups_get gid groups with Some _ => true | None => false end.

(** The body of the loop of [_classify_folders] for one folder. *)
Definition classify (files : list FileEntry) : folder_class :=
  let has_crp := existsb (fun f => String.eqb (kind f) "crp") files in
  let has_dll := existsb (fun f => String.eqb (kind f) "dll") files in
  if has_crp && has_dll then cls_mixed
  else if has_crp then cls_assets
  else if has_dll then cls_mods
  else cls_assets.

(**
<<
def _classify_folders(self):
    self._folder_class.clear()
    groups = self._group_index()
    for gid, files in groups.items():
        has_crp = any(f.kind == "crp" for f in files)
        has_dll = any(f.kind == "dll" for f in files)
        if has_crp and has_dll:   self._folder_class[gid] = "mixed"
        elif has_crp:             self._folder_class[gid] = "assets"
        elif has_dll:             self._folder_class[gid] = "mods"
        else:                     self._folder_class[gid] = "assets"
>>
*)
Definition _classify_folders (self : SyncClient) : SyncClient :=
  {| assets_path := assets_path self;
     mods_path := mods_path self;
     _sock := _sock self;
     _index := _index self;
     _folder_class :=
       fold_left (fun m gf => <[gf.1 := classify gf.2]> m) (_group_index self) ∅;
     _folder_override := _folder_override self |}.

(**
<<
def get_folder_target(self, gid):
    if gid in self._folder_override:
        return self._folder_override[gid]
    cls = self._folder_class.get(gid, "assets")
    if cls == "mixed":
        return "assets"
    return cls
>>
*)
Definition get_folder_target (self : SyncClient) (gid : string) : dest :=
  match _folder_override self !! gid with
  | Some d => d
  | None =>
      match default cls_assets (_folder_class self !! gid) with
      | cls_mixed => assets
      | cls_assets => assets
      | cls_mods => mods
      end
  end.

(** [set_folder_override]: the guard [dest in ("assets", "mods")] is the type. *)
Definition set_folder_override (self : SyncClient) (gid : string) (d : dest) : SyncClient :=
  {| assets_path := assets_path self;
     mods_path := mods_path self;
     _sock := _sock self;
     _index := _index self;
     _folder_class := _folder_class self;
     _folder_override := <[gid := d]> (_folder_override self) |}.

(** [mixed_folders] *)
Definition mixed_folders (self : SyncClient) : list string :=
  (filter (fun gc => gc.2 = cls_mixed) (map_to_list (_folder_class self))).*1.

(** [dest_base.capitalize()] *)
Definition capitalize (d : dest) : string :=
  match d with assets => "Assets" | mods => "Mods" end.

(** The placeholder entry of a folder-level item. *)
Definition folder_entry (gid : string) : FileEntry :=
  {| rel_folder := gid; name := "(folder)"; size := 0; mtime := 0; sha256 := "";
     kind := "other" |}.

Section Planner.

Variable sha256_hex : bytes -> string.

(**
<<
def _classify_file_action(self, fe, dest_base):
    t = build_client_target(fe, self.assets_path, self.mods_path, dest_base)
    if t.exists():
        return "SAME" if sha256_of_file(t) == fe.sha256 else "UPDATE"
    return "NEW"
>>
   The two loops of [build_plan] spell the same four lines out; they are
   embedded once. *)
Definition _classify_file_action (self : SyncClient) (fs : filesystem)
    (fe : FileEntry) (dest_base : dest) : exn + action :=
  let t := build_client_target fe (assets_path self) (mods_path self) dest_base in
  if exists_ fs t then
    h <-? sha256_of_file sha256_hex fs t ;;
    inr (if String.eqb h (sha256 fe) then SAME else UPDATE)
  else inr NEW.

(** The first loop over the files of a folder: the set of their actions. *)
Definition plan_statuses (self : SyncClient) (fs : filesystem) (dest_base : dest)
    (files : list FileEntry) : exn + gset action :=
  foldR (fun statuses e =>
           a <-? _classify_file_action self fs e dest_base ;;
           inr (statuses ∪ {[a]}))
        files ∅.

(** The aggregation of a folder's action from the set of its files' actions. *)
Definition folder_action (statuses : gset action) : action :=
  if decide (statuses = {[SAME]}) then SAME
  else if decide (UPDATE ∈ statuses) then UPDATE
  else NEW.

Definition file_item (self : SyncClient) (fs : filesystem) (gid : string)
    (dest_base : dest) (e : FileEntry) : exn + PlanItem :=
  let t := build_client_target e (assets_path self) (mods_path self) dest_base in
  a <-? _classify_file_action self fs e dest_base ;;
  inr {| key := gid +:+ "/" +:+ name e; entry := e; target := t; act := a; lvl := file |}.

(** One turn of [for gid, files in groups.items()]. *)
Definition plan_group (self : SyncClient) (fs : filesystem)
    (gf : string * list FileEntry) : exn + list PlanItem :=
  let gid := gf.1 in
  let files := gf.2 in
  let dest_base := get_folder_target self gid in
  statuses <-? plan_statuses self fs dest_base files ;;
  let f_action := folder_action statuses in
  items <-? mapR (file_item self fs gid dest_base) files ;;
  inr ({| key := gid;
          entry := folder_entry gid;
          target := pjoin [] ("<" +:+ capitalize dest_base +:+ ">/" +:+ gid);
          act := f_action;
          lvl := folder |} :: items).

(** The numeric-named directories directly under one local root. *)
Definition local_ids_under (fs : filesystem) (base : path) : exn + gset string :=
  if negb (exists_ fs base) then inr ∅
  else if is_dir fs base then
    inr (list_to_set
           (map basename
              (filter (fun p => is_dir fs p && isdigit (basename p)) (children fs base))))
  else inl NotADirectoryError.

Definition kind_of_name (f : path) : string :=
  let suf := lower (suffix (basename f)) in
  if String.eqb suf ".crp" then "crp"
  else if String.eqb suf ".dll" then "dll"
  else "other".

(** The file-level DELETE item of a regular file [f] found below [d]. *)
Definition delete_file_item (fs : filesystem) (gid : string) (d f : path)
    : option PlanItem :=
  match stat_file fs f with
  | Some (sz, mt) =>
      let rel := join_slash (drop (length d) f) in
      Some {| key := "(delete)/" +:+ gid +:+ "/" +:+ rel;
              entry := {| rel_folder := gid; name := rel; size := sz; mtime := mt;
                          sha256 := ""; kind := kind_of_name f |};
              target := f;
              act := DELETE;
              lvl := file |}
  | None => None
  end.

(** One turn of [for gid in missing_ids]. *)
Definition delete_items (self : SyncClient) (fs : filesystem) (gid : string)
    : list PlanItem :=
  {| key := "(delete)/" +:+ gid;
     entry := folder_entry gid;
     target := pjoin (assets_path self) gid;
     act := DELETE;
     lvl := folder |}
  :: flat_map (fun base =>
                 let d := pjoin base gid in
                 if exists_ fs d then omap (delete_file_item fs gid d) (rglob fs d)
                 else [])
              [assets_path self; mods_path self].

(**
<<
def build_plan(self):
    plan = []
    groups = self._group_index()
    for gid, files in groups.items():
        dest_base = self.get_folder_target(gid)
        statuses = set()
        for e in files:
            t = build_client_target(e, self.assets_path, self.mods_path, dest_base)
            if t.exists():
                action = "SAME" if sha256_of_file(t) == e.sha256 else "UPDATE"
            else:
                action = "NEW"
            statuses.add(action)
        if statuses == {"SAME"}:   f_action = "SAME"
        elif "UPDATE" in statuses: f_action = "UPDATE"
        else:                      f_action = "NEW"
        plan.append(PlanItem(key=f"{gid}", entry=FileEntry(rel_folder=gid, name="(folder)", ...),
                             target=Path(f"<{dest_base.capitalize()}>/{gid}"),
                             action=f_action, level="folder"))
        for e in files:
            ...                    # the same four lines
            plan.append(PlanItem(key=f"{gid}/{e.name}", entry=e, target=t,
                                 action=action, level="file"))
    local_ids = set()
    for base in [self.assets_path, self.mods_path]:
        if not base.exists():
            continue
        for id_dir in base.iterdir():
            if id_dir.is_dir() and id_dir.name.isdigit():
                local_ids.add(id_dir.name)
    groups = self._group_index()
    missing_ids = [gid for gid in local_ids if gid not in groups]
    for gid in missing_ids:
        plan.append(PlanItem(key=f"(delete)/{gid}", entry=FileEntry(rel_folder=gid, name="(folder)", ...),
                             target=(self.assets_path / gid), action="DELETE", level="folder"))
        for base in [self.assets_path, self.mods_path]:
            d = base / gid
            if d.exists():
                for f in d.rglob("*"):
                    if f.is_file():
                        rel = f.relative_to(base / gid).as_posix()
                        plan.append(PlanItem(key=f"(delete)/{gid}/{rel}", entry=FileEntry(...),
                                             target=f, action="DELETE", level="file"))
    return plan
>>
*)
Definition build_plan (self : SyncClient) (fs : filesystem) : exn + list PlanItem :=
  let groups := _group_index self in
  per_group <-? mapR (plan_group self fs) groups ;;
  ids_assets <-? local_ids_under fs (assets_path self) ;;
  ids_mods <-? local_ids_under fs (mods_path self) ;;
  let local_ids := ids_assets ∪ ids_mods in
  let missing_ids := filter (fun gid => in_groups gid groups = false) (elements local_ids) in
  inr (concat per_group ++ flat_map (delete_items self fs) missing_ids).

End Planner.

(**
<<
def close(self):
    if self._sock:
        try:
            self._sock.close()
        except Exception:
            pass
        finally:
            self._sock = None
>>
*)
Definition close (self : SyncClient) : SyncClient :=
  {| assets_path := assets_path self;
     mods_path := mods_path self;
     _sock := None;
     _index := _index self;
     _folder_class := _folder_class self;
     _folder_override := _folder_override self |}.

(** [self._index.get(k)] and [self._index[key]] *)
Fixpoint index_get (k : string) (index : list (string * FileEntry)) : option FileEntry :=
  match index with
  | [] => None
  | (k', meta) :: rest => if String.eqb k' k then Some meta else index_get k rest
  end.

(** [f"{e.rel_folder}/{e.name}"] *)
Definition entry_key (e : FileEntry) : string := rel_folder e +:+ "/" +:+ name e.

(** The last loop of [_expand_selection_to_file_entries]: the first pair of
    every key. *)
Fixpoint dedupe (seen : gset string) (out : list (dest * FileEntry))
    : list (dest * FileEntry) :=
  match out with
  | [] => []
  | (dest_base, e) :: rest =>
      if decide (entry_key e ∈ seen) then dedupe seen rest
      else (dest_base, e) :: dedupe (seen ∪ {[entry_key e]}) rest
  end.

(**
<<
def _expand_selection_to_file_entries(self, selected_keys):
    groups = self._group_index()
    out = []
    selected_set = set(selected_keys)
    folder_ids = {k for k in selected_set if "/" not in k and not k.startswith("(delete)/")}
    for gid in folder_ids:
        dest_base = self.get_folder_target(gid)
        for e in groups.get(gid, []):
            out.append((dest_base, e))
    for k in selected_set:
        if "/" in k and not k.startswith("(delete)/"):
            gid, rel = k.split("/", 1)
            meta = self._index.get(k)
            if meta:
                e = FileEntry( **meta)
                dest_base = self.get_folder_target(gid)
                out.append((dest_base, e))
    seen = set()
    result = []
    for dest_base, e in out:
        key = f"{e.rel_folder}/{e.name}"
        if key not in seen:
            seen.add(key)
            result.append((dest_base, e))
    return result
>>
*)
Definition _expand_selection_to_file_entries (self : SyncClient)
    (selected_keys : list string) : list (dest * FileEntry) :=
  let groups := _group_index self in
  let selected_set : gset string := list_to_set selected_keys in
  let folder_ids : gset string :=
    filter (fun k => negb (has_slash k) && negb (startswith "(delete)/" k)) selected_set in
  let from_folders :=
    flat_map (fun gid =>
                let dest_base := get_folder_target self gid in
                map (fun e => (dest_base, e)) (default [] (groups_get gid groups)))
             (elements folder_ids) in
  let from_files :=
    flat_map (fun k =>
                if has_slash k && negb (startswith "(delete)/" k) then
                  let gid := (split_once k).1 in
                  match index_get k (_index self) with
                  | Some e => [(get_folder_target self gid, e)]
                  | None => []
                  end
                else [])
             (elements selected_set) in
  dedupe ∅ (from_folders ++ from_files).

(** The statistics dictionary: its keys in the order they were set. *)
Definition stats := list (string * Z).

(** [stats[k] += d] on a key the dictionary has. *)
Definition stats_add (k : string) (d : Z) (st : stats) : stats :=
  map (fun kv => if String.eqb kv.1 k then (kv.1, (kv.2 + d)%Z) else kv) st.

(** [stats[k] = v] on a key the dictionary has. *)
Definition stats_set (k : string) (v : Z) (st : stats) : stats :=
  map (fun kv => if String.eqb kv.1 k then (kv.1, v) else kv) st.

Definition stats_get (k : string) (st : stats) : Z :=
  match find (fun kv => String.eqb kv.1 k) st with
  | Some kv => kv.2
  | None => 0%Z
  end.

(** [d[k] = v] on a dict of strings. *)
Fixpoint dict_set {V} (k : string) (v : V) (d : list (string * V)) : list (string * V) :=
  match d with
  | [] => [(k, v)]
  | (k', v') :: rest =>
      if String.eqb k' k then (k', v) :: rest else (k', v') :: dict_set k v rest
  end.

Fixpoint dict_get {V} (k : string) (d : list (string * V)) : option V :=
  match d with
  | [] => None
  | (k', v') :: rest => if String.eqb k' k then Some v' else dict_get k rest
  end.

(** [time.time()] *)
Definition time_time : M Z :=
  fun w => (inr (now w), World (net w) (disk w) (logged w) (tl (clock w)) (ui w) (chunks w)).

(** The manifest entry as the host sent it, for the REQUEST_FILES message. *)
Definition meta_json (e : FileEntry) : json :=
  JObj [("rel_folder", JStr (rel_folder e)); ("name", JStr (name e));
        ("size", JNum (size e)); ("mtime", JNum (mtime e));
        ("sha256", JStr (sha256 e)); ("kind", JStr (kind e))].

(** [msg.get(k)]: only a dict has [get]. *)
Definition msg_get (msg : json) (k : string) : exn + json :=
  match msg with
  | JObj members => inr (default JNull (dict_get k members))
  | _ => inl AttributeError
  end.

(** [msg[k]] once [msg.get] has shown [msg] to be a dict. *)
Definition msg_item (msg : json) (k : string) : exn + json :=
  match msg with
  | JObj members =>
      match dict_get k members with
      | Some v => inr v
      | None => inl KeyError
      end
  | _ => inl TypeError
  end.

(** [x += size] on a float [x]: numbers and booleans add, anything else is a
    TypeError. *)
Definition as_number (v : json) : exn + Z :=
  match v with
  | JNum z => inr z
  | JBool b => inr (if b then 1 else 0)%Z
  | _ => inl TypeError
  end.

Section Executor.

Variable sha256_hex : bytes -> string.
Variable json_encode : json -> bytes.
Variable json_decode : bytes -> option json.

(** [str(v)] as an f-string formats a decoded value that is not a string. *)
Variable py_str_other : json -> string.

Definition py_str (v : json) : string :=
  match v with
  | JStr s => s
  | _ => py_str_other v
  end.

(** [self.get_folder_target(rel_folder)] on a decoded value: a list or a dict
    cannot be looked up in a dict; any other value that is not a string is in
    neither dict. *)
Definition get_folder_target_of (self : SyncClient) (v : json) : exn + dest :=
  match v with
  | JStr gid => inr (get_folder_target self gid)
  | JArr _ | JObj _ => inl TypeError
  | _ => inr assets
  end.

(** The decisions of the first loop of [synchronize]. *)
Record request := {
  request_files : list (string * json);
  action_by_key : list (string * action);
  dest_by_key : list (string * dest);
  counted : stats
}.

(**
<<
    for dest_base, e in entries:
        key = f"{e.rel_folder}/{e.name}"
        action = self._classify_file_action(e, dest_base)
        action_by_key[key] = action
        dest_by_key[key] = dest_base
        if action == "SAME":
            stats["same_count"] += 1
            continue
        if action == "NEW":
            stats["new_count"] += 1
        elif action == "UPDATE":
            stats["update_count"] += 1
        request_files[key] = self._index[key]
>>
*)
Definition decide_entry (self : SyncClient) (fs : filesystem) (r : request)
    (de : dest * FileEntry) : exn + request :=
  let dest_base := de.1 in
  let e := de.2 in
  let k := entry_key e in
  a <-? _classify_file_action sha256_hex self fs e dest_base ;;
  let abk := dict_set k a (action_by_key r) in
  let dbk := dict_set k dest_base (dest_by_key r) in
  match a with
  | SAME =>
      inr {| request_files := request_files r; action_by_key := abk; dest_by_key := dbk;
             counted := stats_add "same_count" 1 (counted r) |}
  | _ =>
      let st := match a with
                | NEW => stats_add "new_count" 1 (counted r)
                | UPDATE => stats_add "update_count" 1 (counted r)
                | _ => counted r
                end in
      match index_get k (_index self) with
      | Some meta =>
          inr {| request_files := dict_set k (meta_json meta) (request_files r);
                 action_by_key := abk; dest_by_key := dbk; counted := st |}
      | None => inl KeyError
      end
  end.

(** What one turn of the receiving loop leaves: the statistics as far as they
    were updated, and the exception that ended the turn, if any. *)
Definition turn : Type := (option exn * stats) * world.

(**
<<
                if action == "FILE":
                    rel_folder = msg["rel_folder"]
                    name = msg["name"]
                    size = msg["size"]
                    key = f"{rel_folder}/{name}"
                    meta = self._index[key]
                    entry = FileEntry( **meta)
                    dest_base = dest_by_key.get(key, self.get_folder_target(rel_folder))
                    target = build_client_target(entry, self.assets_path, self.mods_path, dest_base)
>>
*)
Definition file_header (self : SyncClient) (dbk : list (string * dest)) (msg : json)
    : exn + (string * json * dest * path) :=
  rel_folder <-? msg_item msg "rel_folder" ;;
  name <-? msg_item msg "name" ;;
  size <-? msg_item msg "size" ;;
  let k := py_str rel_folder +:+ "/" +:+ py_str name in
  match index_get k (_index self) with
  | None => inl KeyError
  | Some entry =>
      fallback <-? get_folder_target_of self rel_folder ;;
      let dest_base := default fallback (dict_get k dbk) in
      inr (py_str name, size, dest_base,
           build_client_target entry (assets_path self) (mods_path self) dest_base)
  end.

(**
<<
                    recv_file(sock, target)
                    if dest_base == "assets":
                        stats["assets_files"] += 1
                    else:
                        stats["mods_files"] += 1
                    stats["bytes"] += size
                    stats["transferred_files"] += 1
                    progress_cb(int(stats["transferred_files"]), int(stats["to_transfer"]))
                    log.info("Empfangen: %s → %s", name, target)
>>
*)
Definition receive_one (name : string) (size : json) (dest_base : dest) (target : path)
    (st : stats) (w : world) : turn :=
  match recv_file target w with
  | (inl e, w1) => ((Some e, st), w1)
  | (inr _, w1) =>
      let st1 := match dest_base with
                 | assets => stats_add "assets_files" 1 st
                 | mods => stats_add "mods_files" 1 st
                 end in
      match as_number size with
      | inl e => ((Some e, st1), w1)
      | inr sz =>
          let st2 := stats_add "transferred_files" 1 (stats_add "bytes" sz st1) in
          let w2 := (ui_emit (Progress (stats_get "transferred_files" st2)
                                       (stats_get "to_transfer" st2)) w1).2 in
          ((None, st2), (log_emit (LogReceived name target) w2).2)
      end
  end.

(**
<<
            while True:
                msg = recv_json(sock)
                action = msg.get("action")
                if action == "FILE":
                    ...
                elif action == "DONE":
                    break
>>
*)
Fixpoint receive_loop (budget : nat) (self : SyncClient) (dbk : list (string * dest))
    (st : stats) (w : world) : turn :=
  match budget with
  | O => ((Some LoopBudget, st), w)
  | S budget' =>
      match recv_json json_decode w with
      | (inl e, w1) => ((Some e, st), w1)
      | (inr msg, w1) =>
          match msg_get msg "action" with
          | inl e => ((Some e, st), w1)
          | inr (JStr "FILE") =>
              match file_header self dbk msg with
              | inl e => ((Some e, st), w1)
              | inr (name, size, dest_base, target) =>
                  match receive_one name size dest_base target st w1 with
                  | ((None, st'), w2) => receive_loop budget' self dbk st' w2
                  | stopped => stopped
                  end
              end
          | inr (JStr "DONE") => ((None, st), w1)
          | inr _ => receive_loop budget' self dbk st w1
          end
      end
  end.

(** The body of the [try]: the request, then the receiving loop. *)
Definition request_and_receive (self : SyncClient) (r : request) (st : stats)
    (w : world) : turn :=
  match send_json json_encode
          (JObj [("action", JStr "REQUEST_FILES"); ("files", JObj (request_files r))]) w with
  | (inl e, w0) => ((Some e, st), w0)
  | (inr _, w0) =>
      receive_loop (S (length (pending (net w0)))) self (dest_by_key r) st w0
  end.

Definition initial_stats (selected : nat) : stats :=
  [("selected_total", Z.of_nat selected); ("to_transfer", 0); ("transferred_files", 0);
   ("bytes", 0); ("seconds", 0); ("new_count", 0); ("update_count", 0);
   ("same_count", 0); ("assets_files", 0); ("mods_files", 0)]%Z.

(**
<<
def synchronize(self, selected_keys, progress_cb=lambda c,t: None):
    sock = self._sock
    if not sock:
        log.error("Nicht verbunden.")
        return {"files": 0.0, "bytes": 0.0, "seconds": 0.0}
    entries = self._expand_selection_to_file_entries(selected_keys)
    stats = {"selected_total": float(len(entries)), "to_transfer": 0.0, ...}
    ...                                  # the loop of decide_entry
    stats["to_transfer"] = float(len(request_files))
    started = time.time()
    try:
        if not request_files:
            return stats
        send_json(sock, {"action": "REQUEST_FILES", "files": request_files})
        while True:
            ...                          # receive_loop
    except Exception as e:
        log.exception("Verbindung verloren während Synchronisierung: %s", e)
        self.close()
        self.on_disconnect("Sync unterbrochen – Verbindung verloren")
    stats["seconds"] = time.time() - started
    return stats
>>
   The floats of the dictionary hold counts and are kept as integers. *)
Definition synchronize (self : SyncClient) (selected_keys : list string)
    : M (stats * SyncClient) :=
  match _sock self with
  | None =>
      log_emit LogNotConnected ;;;
      ret ([("files", 0); ("bytes", 0); ("seconds", 0)]%Z, self)
  | Some sock =>
      let entries := _expand_selection_to_file_entries self selected_keys in
      r <- read_disk (fun fs =>
             foldR (decide_entry self fs) entries
                   {| request_files := []; action_by_key := []; dest_by_key := [];
                      counted := initial_stats (length entries) |}) ;;
      let st := stats_set "to_transfer" (Z.of_nat (length (request_files r))) (counted r) in
      started <- time_time ;;
      match request_files r with
      | [] => ret (st, self)
      | _ =>
          fun w =>
            let '((stopped, st'), w1) := request_and_receive self r st w in
            match stopped with
            | Some LoopBudget => (inl LoopBudget, w1)
            | Some e =>
                (finished <- (log_emit (LogLost e) ;;;
                              ui_emit (Disconnected "Sync unterbrochen - Verbindung verloren") ;;;
                              time_time) ;;
                 ret (stats_set "seconds" (finished - started)%Z st', close self)) w1
            | None =>
                (finished <- time_time ;;
                 ret (stats_set "seconds" (finished - started)%Z st', self)) w1
            end
      end
  end.

End Executor.

(**
<<
        for k in delete_keys:
            if k.startswith("(delete)/"):
                tail = k.split("/", 1)[1]
                if "/" in tail:
                    gid, rel = tail.split("/", 1)
                    if gid.isdigit() and rel:
                        file_targets.append((gid, rel))
                else:
                    if tail.isdigit():
                        norm_ids.add(tail)
            else:
                if "/" in k:
                    gid, rel = k.split("/", 1)
                    if gid.isdigit() and rel:
                        file_targets.append((gid, rel))
                else:
                    if k.isdigit():
                        norm_ids.add(k)
>>
*)
Definition normalise_bare (acc : gset string * list (string * string)) (k : string)
    : gset string * list (string * string) :=
  match split_once k with
  | (gid, Some rel) =>
      if isdigit gid && negb (String.eqb rel "") then (acc.1, acc.2 ++ [(gid, rel)]) else acc
  | (_, None) =>
      if isdigit k then (acc.1 ∪ {[k]}, acc.2) else acc
  end.

Definition normalise_key (acc : gset string * list (string * string)) (k : string)
    : gset string * list (string * string) :=
  if startswith "(delete)/" k
  then normalise_bare acc (default "" (split_once k).2)
  else normalise_bare acc k.

(** [sorted(norm_ids)] *)
Definition sorted (ids : gset string) : list string :=
  merge_sort (fun a b => String.leb a b) (elements ids).

(**
<<
                    for f in d.rglob("*"):
                        if f.is_file():
                            try:
                                f.unlink()
                                files_deleted += 1
                                log.info("Gelöscht: %s", f)
                            except Exception:
                                log.exception("Datei konnte nicht gelöscht werden: %s", f)
>>
*)
Definition delete_one (files_deleted : nat) (f : path) : M nat :=
  w <- get_world ;;
  if is_file (disk w) f then
    try_except (unlink f ;;; log_emit (LogDeleted f) ;;; ret (S files_deleted))
               (fun _ => log_emit (LogUnlinkFailed f) ;;; ret files_deleted)
  else ret files_deleted.

(**
<<
            for base in [self.assets_path, self.mods_path]:
                d = base / gid
                if d.exists() and d.is_dir():
                    for f in d.rglob("*"):
                        ...
                    try:
                        d.rmdir()
                        folders_deleted += 1
                        log.info("Ordner gelöscht: %s", d)
                    except Exception:
                        pass
>>
*)
Definition delete_folder_under (gid : string) (counts : nat * nat) (base : path)
    : M (nat * nat) :=
  let d := pjoin base gid in
  w <- get_world ;;
  if exists_ (disk w) d && is_dir (disk w) d then
    files_deleted <- foldM delete_one (rglob (disk w) d) counts.1 ;;
    try_except (rmdir d ;;; log_emit (LogFolderDeleted d) ;;; ret (files_deleted, S counts.2))
               (fun _ => ret (files_deleted, counts.2))
  else ret counts.

Definition delete_folder (self : SyncClient) (counts : nat * nat) (gid : string)
    : M (nat * nat) :=
  foldM (delete_folder_under gid) [assets_path self; mods_path self] counts.

(**
<<
            for base in [self.assets_path, self.mods_path]:
                p = base / gid / Path(rel)
                if p.exists() and p.is_file():
                    try:
                        p.unlink()
                        files_deleted += 1
                        deleted_here = True
                        log.info("Gelöscht: %s", p)
                        break
                    except Exception:
                        log.exception("Löschen fehlgeschlagen: %s", p)
>>
   The result is [files_deleted] and [deleted_here]. *)
Fixpoint delete_file_in (bases : list path) (gid rel : string) (files_deleted : nat)
    : M (nat * bool) :=
  match bases with
  | [] => ret (files_deleted, false)
  | base :: rest =>
      let p := pjoin (pjoin base gid) rel in
      w <- get_world ;;
      if exists_ (disk w) p && is_file (disk w) p then
        gone <- try_except (unlink p ;;; log_emit (LogDeleted p) ;;; ret true)
                           (fun _ => log_emit (LogDeleteFailed p) ;;; ret false) ;;
        if (gone : bool) then ret (S files_deleted, true)
        else delete_file_in rest gid rel files_deleted
      else delete_file_in rest gid rel files_deleted
  end.

Definition delete_file (self : SyncClient) (files_deleted : nat) (t : string * string)
    : M nat :=
  r <- delete_file_in [assets_path self; mods_path self] t.1 t.2 files_deleted ;;
  if r.2 then ret r.1
  else log_emit (LogNotFound t.1 t.2) ;;; ret r.1.

(**
<<
def delete_local(self, delete_keys):
    files_deleted = 0
    folders_deleted = 0
    norm_ids = set()
    file_targets = []
    for k in delete_keys:
        ...                              # normalise_key
    for gid in sorted(norm_ids):
        ...                              # delete_folder
    for gid, rel in file_targets:
        deleted_here = False
        ...                              # delete_file_in
        if not deleted_here:
            log.warning("Datei nicht gefunden zum Löschen: %s/%s (Assets/Mods)", gid, rel)
    return files_deleted, folders_deleted
>>
*)
Definition delete_local (self : SyncClient) (delete_keys : list string) : M (nat * nat) :=
  let '(norm_ids, file_targets) := fold_left normalise_key delete_keys (∅, []) in
  counts <- foldM (delete_folder self) (sorted norm_ids) (0, 0) ;;
  files_deleted <- foldM (delete_file self) file_targets counts.1 ;;
  ret (files_deleted, counts.2).

End client.

(** ** The host: scanning and sending (utils.py), the index (protocol.py),
       the client handler (server.py) *)

Module host.
Import utils client.

(** What the host writes to its log. *)
Inductive host_record :=
| LogRootMissing (root : path)
| LogFound (rel_folder name kind : string)
| LogNoPermission (fp : path)
| LogScanDone (entries : nat)
| LogFileSent (p : path) (size : N)
| LogIndexSent (entries : nat)
| LogClientGone
| LogRequested (files : nat)
| LogSending (rel_folder name : string) (size : N)
| LogUnknownAction (action : json).

(** The host's side: the connection to one client and the host's disk, the
    regular files the system refuses to open, the size [stat] reports for a
    directory, and the host's log. *)
Record host_world := HostWorld {
  hw : world;
  denied : gset path;
  dir_size : path -> N;
  hlogged : list host_record
}.

Definition H (A : Type) : Type := host_world -> (exn + A) * host_world.

Definition hret {A} (a : A) : H A := fun s => (inr a, s).
Definition hraise {A} (e : exn) : H A := fun s => (inl e, s).
Definition hbind {A B} (m : H A) (k : A -> H B) : H B :=
  fun s => match m s with
           | (inr a, s') => k a s'
           | (inl e, s') => (inl e, s')
           end.

Declare Scope host_scope.
Delimit Scope host_scope with host.
Notation "x <- m ;; k" := (hbind m (fun x => k))
  (at level 100, m at next level, right associativity) : host_scope.
Notation "m ;;; k" := (hbind m (fun _ => k))
  (at level 100, right associativity) : host_scope.

(** A computation on the connection and the disk, run on the host. *)
Definition lift {A} (m : M A) : H A :=
  fun s => let '(r, w') := m (hw s) in (r, HostWorld w' (denied s) (dir_size s) (hlogged s)).

Definition hget : H host_world := fun s => (inr s, s).

Definition hlog (r : host_record) : H unit :=
  fun s => (inr tt, HostWorld (hw s) (denied s) (dir_size s) (hlogged s ++ [r])).

(** A value or an exception computed from the state. *)
Definition hread {A} (f : host_world -> exn + A) : H A := fun s => (f s, s).

(** [try: body / except PermissionError: handler] *)
Definition try_permission {A} (body : H A) (handler : H A) : H A :=
  fun s =>
    match body s with
    | (inl PermissionError, s') => handler s'
    | other => other
    end.

(** [try: body / except Exception: handler] *)
Definition htry {A} (body : H A) (handler : exn -> H A) : H A :=
  fun s =>
    match body s with
    | (inl LoopBudget, s') => (inl LoopBudget, s')
    | (inl e, s') => handler e s'
    | (inr a, s') => (inr a, s')
    end.

Fixpoint hfoldM {A B} (f : A -> B -> H A) (l : list B) (a : A) : H A :=
  match l with
  | [] => hret a
  | b :: rest => hbind (f a b) (fun a' => hfoldM f rest a')
  end.

(** [p.stat().st_size] *)
Definition stat_size (s : host_world) (p : path) : exn + N :=
  match nodes (disk (hw s)) !! p with
  | Some (File content _) => inr (len content)
  | Some Dir => inr (dir_size s p)
  | None => inl FileNotFoundError
  end.

(** [p.open("rb")] followed by reading to the end. *)
Definition read_bytes (s : host_world) (p : path) : exn + bytes :=
  match nodes (disk (hw s)) !! p with
  | Some (File content _) =>
      if decide (p ∈ denied s) then inl PermissionError else inr content
  | Some Dir => inl IsADirectoryError
  | None => inl FileNotFoundError
  end.

Section Scan.

Variable sha256_hex : bytes -> string.

Local Open Scope host_scope.

(**
<<
def is_numbered_dir(p):
    return p.is_dir() and p.name.isdigit()
>>
*)
Definition is_numbered_dir (fs : filesystem) (p : path) : bool :=
  is_dir fs p && isdigit (basename p).

(**
<<
            suf = fp.suffix.lower()
            if suf == CRP_EXT:   kind = "crp"
            elif suf == DLL_EXT: kind = "dll"
            else:                kind = "other"
            try:
                st = fp.stat()
                rel = fp.relative_to(sub).as_posix()
                fe = FileEntry(rel_folder=sub.name, name=rel, size=st.st_size,
                               mtime=st.st_mtime, sha256=sha256_of_file(fp), kind=kind)
                entries.append(fe)
                log.debug("Gefunden: %s/%s (%s)", fe.rel_folder, fe.name, fe.kind)
            except PermissionError:
                log.exception("Keine Berechtigung für Datei: %s", fp)
>>
   [sha256_of_file] opens the file, which the system may refuse. *)
Definition scan_entry (sub fp : path) : H FileEntry :=
  hread (fun s =>
    match stat_file (disk (hw s)) fp with
    | None => inl FileNotFoundError
    | Some (sz, mt) =>
        h <-? (if decide (fp ∈ denied s) then inl PermissionError
               else sha256_of_file sha256_hex (disk (hw s)) fp) ;;
        inr {| rel_folder := basename sub;
               name := join_slash (drop (length sub) fp);
               size := sz; mtime := mt; sha256 := h;
               kind := kind_of_name fp |}
    end).

Definition scan_file (sub : path) (entries : list FileEntry) (fp : path)
    : H (list FileEntry) :=
  s <- hget ;;
  if is_file (disk (hw s)) fp then
    try_permission
      (fe <- scan_entry sub fp ;;
       hlog (LogFound (rel_folder fe) (name fe) (kind fe)) ;;;
       hret (entries ++ [fe]))
      (hlog (LogNoPermission fp) ;;; hret entries)
  else hret entries.

Definition scan_sub (entries : list FileEntry) (sub : path) : H (list FileEntry) :=
  s <- hget ;;
  if is_numbered_dir (disk (hw s)) sub
  then hfoldM (scan_file sub) (rglob (disk (hw s)) sub) entries
  else hret entries.

(**
<<
def scan_workshop(workshop_root):
    entries = []
    if not workshop_root.exists():
        log.warning("Workshop-Root existiert nicht: %s", workshop_root)
        return entries
    for sub in workshop_root.iterdir():
        if not is_numbered_dir(sub):
            continue
        for fp in sub.rglob("*"):
            if not fp.is_file():
                continue
            ...                          # scan_file
    log.info("Scan abgeschlossen: %d Einträge", len(entries))
    return entries
>>
*)
Definition scan_workshop (workshop_root : path) : H (list FileEntry) :=
  s <- hget ;;
  if negb (exists_ (disk (hw s)) workshop_root) then
    hlog (LogRootMissing workshop_root) ;;; hret []
  else if negb (is_dir (disk (hw s)) workshop_root) then hraise NotADirectoryError
  else
    entries <- hfoldM scan_sub (children (disk (hw s)) workshop_root) [] ;;
    hlog (LogScanDone (length entries)) ;;;
    hret entries.

(**
<<
def build_index(workshop_root):
    entries = scan_workshop(workshop_root)
    grouped = {
        e.rel_folder + "/" + e.name: {"rel_folder": e.rel_folder, "name": e.name,
                                      "size": e.size, "mtime": e.mtime,
                                      "sha256": e.sha256, "kind": e.kind}
        for e in entries
    }
    return {"action": "INDEX", "entries": grouped}
>>
*)
Definition grouped (entries : list FileEntry) : list (string * json) :=
  fold_left (fun d e => dict_set (entry_key e) (meta_json e) d) entries [].

Definition build_index (workshop_root : path) : H json :=
  entries <- scan_workshop workshop_root ;;
  hret (JObj [("action", JStr "INDEX"); ("entries", JObj (grouped entries))]).

End Scan.

(** The reads [f.read(n)] makes of what is left of a file, until it returns
    nothing. *)
Fixpoint reads (fuel : nat) (n : nat) (rest : bytes) : list bytes :=
  match fuel, rest with
  | S fuel', _ :: _ => take n rest :: reads fuel' n (drop n rest)
  | _, _ => []
  end.

Local Open Scope host_scope.

(**
<<
def send_file(sock, path):
    size = path.stat().st_size
    sock.sendall(struct.pack("!Q", size))
    with path.open("rb") as f:
        for chunk in iter(lambda: f.read(1024 * 256), b""):
            sock.sendall(chunk)
    log.debug("Datei gesendet: %s (%d B)", path, size)
>>
*)
Definition send_file (p : path) : H unit :=
  size <- hread (fun s => stat_size s p) ;;
  lift (bind (struct_pack 8 size) sendall) ;;;
  content <- hread (fun s => read_bytes s p) ;;
  lift (foldM (fun _ chunk => sendall chunk)
              (reads (length content) (1024 * 256) content) tt) ;;;
  hlog (LogFileSent p size).

Section Server.

Variable sha256_hex : bytes -> string.
Variable json_encode : json -> bytes.
Variable json_decode : bytes -> option json.

(** [len(files)] on a decoded value. *)
Definition py_len (v : json) : exn + nat :=
  match v with
  | JObj members => inr (length members)
  | JArr items => inr (length items)
  | JStr s => inr (String.length s)
  | _ => inl TypeError
  end.

(** [files.items()] on a decoded value. *)
Definition py_items (v : json) : exn + list (string * json) :=
  match v with
  | JObj members => inr members
  | _ => inl AttributeError
  end.

(**
<<
                    for _, meta in files.items():
                        rel_folder = meta["rel_folder"]
                        name = meta["name"]
                        path = Path(self.workshop_root) / rel_folder / name
                        log.debug("Sende %s/%s (%d B)", rel_folder, name, path.stat().st_size)
                        send_json(cli, {"action": "FILE", "rel_folder": rel_folder,
                                        "name": name, "size": path.stat().st_size})
                        send_file(cli, path)
>>
   Only a string can be joined to a path. *)
Definition serve_file (workshop_root : path) (_ : unit) (km : string * json) : H unit :=
  let meta := km.2 in
  rel_folder <- hread (fun _ => msg_item meta "rel_folder") ;;
  name <- hread (fun _ => msg_item meta "name") ;;
  match rel_folder, name with
  | JStr rel_folder, JStr name =>
      let p := pjoin (pjoin workshop_root rel_folder) name in
      logged_size <- hread (fun s => stat_size s p) ;;
      hlog (LogSending rel_folder name logged_size) ;;;
      size <- hread (fun s => stat_size s p) ;;
      lift (send_json json_encode
              (JObj [("action", JStr "FILE"); ("rel_folder", JStr rel_folder);
                     ("name", JStr name); ("size", JNum (Z.of_N size))])) ;;;
      send_file p
  | _, _ => hraise TypeError
  end.

(**
<<
                if action == "REQUEST_FILES":
                    files = msg.get("files", {})
                    log.info("Angeforderte Dateien: %d", len(files))
                    for _, meta in files.items():
                        ...              # serve_file
                    send_json(cli, {"action": "DONE"})
                else:
                    log.warning("Unbekannte Aktion: %s", action)
>>
*)
Definition serve_message (workshop_root : path) (msg : json) : H unit :=
  action <- hread (fun _ => msg_get msg "action") ;;
  match action with
  | JStr "REQUEST_FILES" =>
      files <- hread (fun _ => match msg with
                               | JObj members => inr (default (JObj []) (dict_get "files" members))
                               | _ => inl AttributeError
                               end) ;;
      n <- hread (fun _ => py_len files) ;;
      hlog (LogRequested n) ;;;
      items <- hread (fun _ => py_items files) ;;
      hfoldM (serve_file workshop_root) items tt ;;;
      lift (send_json json_encode (JObj [("action", JStr "DONE")]))
  | _ => hlog (LogUnknownAction action)
  end.

(**
<<
            while True:
                try:
                    msg = recv_json(cli)
                except Exception:
                    log.info("Client getrennt.")
                    break
                action = msg.get("action")
                ...                      # serve_message
>>
*)
Fixpoint serve_loop (budget : nat) (workshop_root : path) : H unit :=
  match budget with
  | O => hraise LoopBudget
  | S budget' =>
      msg <- htry (m <- lift (recv_json json_decode) ;; hret (Some m))
                  (fun _ => hlog LogClientGone ;;; hret None) ;;
      match msg with
      | None => hret tt
      | Some msg => serve_message workshop_root msg ;;; serve_loop budget' workshop_root
      end
  end.

(**
<<
    def _handle_client(self, cli):
        with cli:
            idx = build_index(self.workshop_root)
            send_json(cli, idx)
            log.info("Index gesendet: %d Einträge", len(idx['entries']))
            while True:
                ...                      # serve_loop
>>
   Every message that is read takes at least four bytes from the connection,
   which bounds the turns of the loop. *)
Definition _handle_client (workshop_root : path) : H unit :=
  idx <- build_index sha256_hex workshop_root ;;
  lift (send_json json_encode idx) ;;;
  n <- hread (fun _ => entries <-? msg_item idx "entries" ;; py_len entries) ;;
  hlog (LogIndexSent n) ;;;
  s <- hget ;;
  serve_loop (S (length (pending (net (hw s))))) workshop_root.

End Server.

End host.

Import utils client host.

(** * Specification vocabulary *)

(** The worlds [w] and [w'] differ at most in the segments still to come. *)
Definition same_but_inbox (w w' : world) : Prop :=
  disk w' = disk w /\ logged w' = logged w /\ clock w' = clock w /\ ui w' = ui w /\
  chunks w' = chunks w /\
  ending (net w') = ending (net w) /\ outbox (net w') = outbox (net w).

(** What [json.loads(data.decode(...))] hands back: the value, or the decoder's
    error. *)
Definition decoded (json_decode : bytes -> option json) (data : bytes) : exn + json :=
  match json_decode data with
  | Some v => inr v
  | None => inl ValueError
  end.

(** The largest request [recv_file] makes of the socket: 256 KiB. *)
Definition chunk_limit : N := 1024 * 256.

(** The worlds [w] and [w'] differ at most in the entries of the disk. *)
Definition same_but_nodes (w w' : world) : Prop :=
  net w' = net w /\ locked (disk w') = locked (disk w) /\ logged w' = logged w /\
  clock w' = clock w /\ ui w' = ui w /\ chunks w' = chunks w.

(** The directories [mkdir_prefixes done todo] looks at: [done] extended by
    the first [k] components of [todo], for every [k] from 1 on. *)
Definition on_the_way (done todo q : path) : Prop :=
  exists k, (0 < k <= length todo)%nat /\ q = done ++ take k todo.

(** The entries of the manifest that belong to folder [gid], in manifest
    order. *)
Definition folder_files (gid : string) (entries : list FileEntry) : list FileEntry :=
  filter (fun e => rel_folder e = gid) entries.

(** [gid] is the folder ID of some entry of the manifest. *)
Definition manifest_folder (self : SyncClient) (gid : string) : Prop :=
  exists k e, (k, e) ∈ _index self /\ rel_folder e = gid.

Definition is_file_node (n : node) : bool :=
  match n with File _ _ => true | Dir => false end.

(** The regular files and the directories a disk holds. *)
Definition count_files (fs : filesystem) : nat :=
  base.size (filter (fun pn : path * node => is_file_node pn.2) (nodes fs)).

Definition count_dirs (fs : filesystem) : nat :=
  base.size (filter (fun pn : path * node => negb (is_file_node pn.2)) (nodes fs)).

(** [w'] is [w] after deletions only: entries went away, none changed or came,
    and the log grew. *)
Definition only_deleted (w w' : world) : Prop :=
  nodes (disk w') ⊆ nodes (disk w) /\
  locked (disk w') = locked (disk w) /\ net w' = net w /\ clock w' = clock w /\
  ui w' = ui w /\ chunks w' = chunks w /\
  exists more, logged w' = logged w ++ more.






(** The keys of the statistics of a connected call, in the order
    [synchronize] sets them. *)
Definition full_stats_keys : list string :=
  ["selected_total"; "to_transfer"; "transferred_files"; "bytes"; "seconds";
   "new_count"; "update_count"; "same_count"; "assets_files"; "mods_files"].

(** A key without its "(delete)/" prefix, as [delete_local] reads it. *)
Definition key_body (k : string) : string :=
  if startswith "(delete)/" k then default "" (split_once k).2 else k.

(** [w'] is [w] after deletions that took nothing but paths of [P]. *)
Definition removed_only (P : path -> Prop) (w w' : world) : Prop :=
  only_deleted w w' /\
  forall p, is_Some (nodes (disk w) !! p) -> nodes (disk w') !! p = None -> P p.

(** ** What [recv_file] leaves alone *)

(** [w'] is [w] but for bytes taken from the connection, entries of the disk
    at or above [dest], log records, progress calls and write sizes. *)
Definition received_at (dest : path) (w w' : world) : Prop :=
  outbox (net w') = outbox (net w) /\ ending (net w') = ending (net w) /\
  locked (disk w') = locked (disk w) /\ clock w' = clock w /\
  (forall p, nodes (disk w') !! p = nodes (disk w) !! p \/ p `prefix_of` dest) /\
  (forall p, is_Some (nodes (disk w) !! p) -> is_Some (nodes (disk w') !! p)) /\
  (forall p, p <> dest ->
             nodes (disk w') !! p = nodes (disk w) !! p \/ nodes (disk w') !! p = Some Dir).

(** The entry's target holds a regular file whose hash is the entry's. *)
Definition same_on_disk (sha256_hex : bytes -> string) (self : SyncClient) (fs : filesystem) (de : dest * FileEntry) : bool :=
  match nodes fs !! build_client_target de.2 (assets_path self) (mods_path self) de.1 with
  | Some (File c _) => String.eqb (sha256_hex c) (sha256 de.2)
  | _ => false
  end.

(** The message [synchronize] sends for the request [r]. *)
Definition request_message (r : request) : json :=
  JObj [("action", JStr "REQUEST_FILES"); ("files", JObj (request_files r))].

(** The world after the request went out. *)
Definition requested (json_encode : json -> bytes) (r : request) (w : world) : world :=
  World (Conn (inbox (net w)) (ending (net w))
              (outbox (net w) ++ be_bytes 4 (len (json_encode (request_message r))) ++
               json_encode (request_message r)))
        (disk w) (logged w) (clock w) (ui w) (chunks w).

(** The entry of the REQUEST_FILES message for a selected entry. *)
Definition requested_as (self : SyncClient) (de : dest * FileEntry) (km : string * json)
    : Prop :=
  km.1 = entry_key de.2 /\
  exists meta, index_get km.1 (_index self) = Some meta /\ km.2 = meta_json meta.

(** The state [synchronize] starts its first loop with. *)
Definition first_request (selected : nat) : request :=
  {| request_files := []; action_by_key := []; dest_by_key := [];
     counted := initial_stats selected |}.

(** The world after one reading of the clock. *)
Definition ticked (w : world) : world :=
  World (net w) (disk w) (logged w) (tl (clock w)) (ui w) (chunks w).

(** The world after the handler of a lost connection. *)
Definition disconnected (e : exn) (w : world) : world :=
  World (net w) (disk w) (logged w ++ [LogLost e]) (tl (clock w))
        (ui w ++ [Disconnected "Sync unterbrochen - Verbindung verloren"]) (chunks w).


(** The host's world with [data] sent to the client. *)
Definition sent (data : bytes) (s : host_world) : host_world :=
  HostWorld (World (Conn (inbox (net (hw s))) (ending (net (hw s)))
                         (outbox (net (hw s)) ++ data))
                   (disk (hw s)) (logged (hw s)) (clock (hw s)) (ui (hw s)) (chunks (hw s)))
            (denied s) (dir_size s) (hlogged s).

(** The host's world with [r] added to its log. *)
Definition noted (r : host_record) (s : host_world) : host_world :=
  HostWorld (hw s) (denied s) (dir_size s) (hlogged s ++ [r]).

(** The entry [scan_workshop] makes of the regular file [fp] below the
    folder [sub]. *)
Definition scanned_entry (sha256_hex : bytes -> string) (sub fp : path) (content : bytes) (t : Z) : FileEntry :=
  {| rel_folder := basename sub;
     name := join_slash (drop (length sub) fp);
     size := Z.of_nat (length content);
     mtime := t;
     sha256 := sha256_hex content;
     kind := kind_of_name fp |}.

(** What the scan makes of one path below [sub]: the entry of a regular file
    the host may read, nothing of anything else. *)
Definition scan_yield (sha256_hex : bytes -> string) (s : host_world) (sub fp : path) : option FileEntry :=
  match nodes (disk (hw s)) !! fp with
  | Some (File c t) =>
      if decide (fp ∈ denied s) then None else Some (scanned_entry sha256_hex sub fp c t)
  | _ => None
  end.

(** [s'] is [s] with [more] added to the host's log. *)
Definition logged_more (more : list host_record) (s s' : host_world) : Prop :=
  s' = HostWorld (hw s) (denied s) (dir_size s) (hlogged s ++ more).

(** A message as [send_json] puts it on the wire. *)
Definition frame (json_encode : json -> bytes) (j : json) : bytes :=
  be_bytes 4 (len (json_encode j)) ++ json_encode j.

(** The header the host sends before a file. *)
Definition file_header_message (rel_folder name : string) (size : N) : json :=
  JObj [("action", JStr "FILE"); ("rel_folder", JStr rel_folder); ("name", JStr name);
        ("size", JNum (Z.of_N size))].

(** What the host sends for one file: the header, the size, the content. *)
Definition file_reply (json_encode : json -> bytes) (rel_folder name : string)
    (content : bytes) : bytes :=
  frame json_encode (file_header_message rel_folder name (len content)) ++
  be_bytes 8 (len content) ++ content.

(** The host's world after it took bytes from the connection, leaving
    [inbox'], sent [data] and logged [records]: nothing else changes. *)
Definition host_step (inbox' : list bytes) (data : bytes) (records : list host_record)
    (s : host_world) : host_world :=
  HostWorld (World (Conn inbox' (ending (net (hw s))) (outbox (net (hw s)) ++ data))
                   (disk (hw s)) (logged (hw s)) (clock (hw s)) (ui (hw s)) (chunks (hw s)))
            (denied s) (dir_size s) (hlogged s ++ records).

(** The host's world after it sent [data] and logged [records]. *)
Definition answered (data : bytes) (records : list host_record) (s : host_world)
    : host_world :=
  host_step (inbox (net (hw s))) data records s.

(** One requested file that is there to be sent. *)
Definition servable (json_encode : json -> bytes) (root : path) (s : host_world) (km : string * json)
    (item : string * string * bytes) : Prop :=
  let '(rel_folder, name, content) := item in
  msg_item km.2 "rel_folder" = inr (JStr rel_folder) /\
  msg_item km.2 "name" = inr (JStr name) /\
  (exists t, nodes (disk (hw s)) !! pjoin (pjoin root rel_folder) name =
             Some (File content t)) /\
  (pjoin (pjoin root rel_folder) name ∉ denied s) /\
  (len content < 2 ^ 64)%N /\
  (len (json_encode (file_header_message rel_folder name (len content))) < 2 ^ 32)%N.

(** A result that is not the model running out of turns. *)
Definition in_budget {A} (r : exn + A) : Prop := r <> inl LoopBudget.

(** A message the host can read whose action is not a request for files. *)
Definition other_message (json_encode : json -> bytes) (json_decode : bytes -> option json)
    (msg action : json) : Prop :=
  (len (json_encode msg) < 2 ^ 32)%N /\
  json_decode (json_encode msg) = Some msg /\
  msg_get msg "action" = inr action /\
  action <> JStr "REQUEST_FILES".

(** * Concrete instances

    A JSON encoder that follows [json.dumps] on strings, integers, arrays and
    objects, a table-driven decoder, and small worlds on which the functions
    are run. *)

(** ** Instances for the examples *)

Definition dquote : ascii := ascii_of_N 34.

Definition hex_digit (n : N) : ascii :=
  ascii_of_N (if (n <? 10)%N then 48 + n else 87 + n).

(** One character of a JSON string as [json.dumps] writes it: the two escapes
    of the quote and the backslash, the short escapes of the control
    characters, [\u00XX] for what is not printable ASCII. *)
Definition escape_char (c : ascii) : string :=
  let n := N_of_ascii c in
  if (n =? 34)%N then String "\" (String dquote EmptyString)
  else if (n =? 92)%N then "\\"
  else if (n =? 10)%N then "\n"
  else if (n =? 13)%N then "\r"
  else if (n =? 9)%N then "\t"
  else if (n =? 8)%N then "\b"
  else if (n =? 12)%N then "\f"
  else if ((32 <=? n) && (n <=? 126))%N then String c EmptyString
  else "\u00" +:+ String (hex_digit (n / 16)) (String (hex_digit (n mod 16)) EmptyString).

Fixpoint escape (s : string) : string :=
  match s with
  | EmptyString => EmptyString
  | String c rest => escape_char c +:+ escape rest
  end.

Definition quoted (s : string) : string :=
  String dquote (escape s +:+ String dquote EmptyString).

Fixpoint join_comma (parts : list string) : string :=
  match parts with
  | [] => EmptyString
  | [x] => x
  | x :: rest => x +:+ ", " +:+ join_comma rest
  end.

(** The text [json.dumps] gives with its default separators. *)
Fixpoint json_dumps (j : json) : string :=
  match j with
  | JNull => "null"
  | JBool true => "true"
  | JBool false => "false"
  | JNum z => pretty z
  | JStr s => quoted s
  | JArr items => "[" +:+ join_comma (List.map json_dumps items) +:+ "]"
  | JObj members =>
      "{" +:+ join_comma (List.map (fun kv => let '(k, v) := kv in
                                               quoted k +:+ ": " +:+ json_dumps v) members)
          +:+ "}"
  end.

Definition example_encode (j : json) : bytes := list_byte_of_string (json_dumps j).

(** A decoder for a closed vocabulary: it reads back the messages of [known]
    and refuses everything else. *)
Definition example_decode (known : list json) (data : bytes) : option json :=
  find (fun j => String.eqb (json_dumps j) (string_of_list_byte data)) known.

(** A stand-in for the digest: the content itself, read as text. *)
Definition example_digest (content : bytes) : string := string_of_list_byte content.

Definition example_str (j : json) : string := json_dumps j.




Definition done_message : json := JObj [("action", JStr "DONE")].

(** The destination of the examples and a connection that declares five bytes
    and closes after two. *)
Definition example_dest : path := ["home"; "Assets"; "42"; "x.bin"].

Definition short_transfer : world :=
  World (Conn [[x00; x00; x00; x00]; [x00; x00; x00; x05; "a"%byte]; ["b"%byte]] Closed [])
        (Filesystem (list_to_map [(["home"], Dir)]) ∅) [] [7%Z] [] [].

(** ** A client, a disk and a session for the examples *)

Definition example_index : list (string * FileEntry) :=
  [("42/readme.txt",
    {| rel_folder := "42"; name := "readme.txt"; size := 3; mtime := 1;
       sha256 := "abc"; kind := "other" |});
   ("42/new.crp",
    {| rel_folder := "42"; name := "new.crp"; size := 3; mtime := 2;
       sha256 := "xyz"; kind := "crp" |});
   ("7/mod.dll",
    {| rel_folder := "7"; name := "mod.dll"; size := 3; mtime := 3;
       sha256 := "new"; kind := "dll" |})].

Definition example_client (sock : option socket) : SyncClient :=
  _classify_folders
    {| assets_path := ["home"; "Assets"]; mods_path := ["home"; "Mods"]; _sock := sock;
       _index := example_index; _folder_class := ∅; _folder_override := ∅ |}.

Definition example_disk : filesystem :=
  Filesystem
    (list_to_map
       [(["home"], Dir); (["home"; "Assets"], Dir); (["home"; "Mods"], Dir);
        (["home"; "Assets"; "42"], Dir);
        (["home"; "Assets"; "42"; "readme.txt"], File ["a"; "b"; "c"]%byte 5);
        (["home"; "Mods"; "7"], Dir);
        (["home"; "Mods"; "7"; "mod.dll"], File ["o"; "l"; "d"]%byte 5);
        (["home"; "Assets"; "99"], Dir);
        (["home"; "Assets"; "99"; "gone.crp"], File ["x"]%byte 5)])
    ∅.

Definition file_message : json :=
  JObj [("action", JStr "FILE"); ("rel_folder", JStr "42"); ("name", JStr "new.crp");
        ("size", JNum 3)].

(** A message as [send_json] frames it. *)
Definition framed (j : json) : bytes :=
  be_bytes 4 (len (example_encode j)) ++ example_encode j.

(** The host's answer to a request for 42/new.crp, as the network delivers
    it: the header, the three bytes of the file behind their size, DONE. *)
Definition example_session : world :=
  World (Conn [framed file_message;
               be_bytes 8 3 ++ ["x"; "y"]%byte; ["z"]%byte;
               framed done_message] Closed [])
        example_disk [] [100; 104]%Z [] [].



(** ** A client's world and a host for the examples *)

(** The client's disk with nothing on the connection. *)
Definition example_world : world := World (Conn [] Closed []) example_disk [] [] [] [].


(** A disk with a regular file outside the two roots. *)
Definition rooted_world : world :=
  World (Conn [] Closed [])
        (Filesystem (list_to_map [(["tmp"], Dir); (["tmp"; "x"], File ["k"]%byte 1)]) ∅)
        [] [] [] [].

(** The host's workshop: folder 42 with two files, one of which the system
    refuses to open, and a directory without a number. *)
Definition host_root : path := ["srv"; "ws"].

Definition host_disk : filesystem :=
  Filesystem
    (list_to_map
       [(["srv"], Dir); (["srv"; "ws"], Dir);
        (["srv"; "ws"; "42"], Dir);
        (["srv"; "ws"; "42"; "new.crp"], File ["x"; "y"; "z"]%byte 9);
        (["srv"; "ws"; "42"; "secret.dll"], File ["s"]%byte 9);
        (["srv"; "ws"; "notes"], Dir);
        (["srv"; "ws"; "notes"; "todo.txt"], File ["t"]%byte 9)])
    ∅.

Definition example_host (incoming : list bytes) : host_world :=
  HostWorld (World (Conn incoming Closed []) host_disk [] [] [] [])
            {[ ["srv"; "ws"; "42"; "secret.dll"] ]} (fun _ => 4096%N) [].

Definition request_meta : json :=
  JObj [("rel_folder", JStr "42"); ("name", JStr "new.crp"); ("size", JNum 3);
        ("mtime", JNum 9); ("sha256", JStr "xyz"); ("kind", JStr "crp")].

Definition example_request : json :=
  JObj [("action", JStr "REQUEST_FILES"); ("files", JObj [("42/new.crp", request_meta)])].

Definition ping_message : json := JObj [("action", JStr "PING")].

Definition empty_message : json := JObj [].

(** * Properties *)

Lemma same_but_inbox_refl w : same_but_inbox w w.
Proof. repeat split. Qed.

Lemma same_but_inbox_trans w1 w2 w3 :
  same_but_inbox w1 w2 -> same_but_inbox w2 w3 -> same_but_inbox w1 w3.
Proof. unfold same_but_inbox. intros (?&?&?&?&?&?&?) (?&?&?&?&?&?&?). repeat split; congruence. Qed.

Lemma recv_from_spec k segs :
  (0 < k)%N ->
  let r := recv_from k segs in
  r.1 ++ concat r.2 = concat segs /\ (len r.1 <= k)%N /\
  (r.1 = [] -> concat segs = [] /\ r.2 = []).
Proof.
  intros Hk. induction segs as [|seg rest IH]; simpl.
  - repeat split; [unfold len; simpl; lia | auto ..].
  - destruct seg as [|b seg]; [exact IH|].
    set (m := N.to_nat (N.min k (len (b :: seg)))).
    assert (Hm : (0 < m <= length (b :: seg))%nat).
    { unfold m, len. simpl length. lia. }
    assert (Hlen : (len (take m (b :: seg)) <= k)%N).
    { unfold len. rewrite length_take. unfold m, len. lia. }
    cbn [fst snd]. split; [|split].
    + destruct (drop m (b :: seg)) as [|x more] eqn:Hd.
      * rewrite <- (take_drop m (b :: seg)) at 2. rewrite Hd, app_nil_r. reflexivity.
      * cbn [concat]. rewrite <- Hd, app_assoc, take_drop. reflexivity.
    + exact Hlen.
    + intros Hnil. exfalso. destruct m as [|m']; [lia|]. discriminate Hnil.
Qed.

Lemma recv_spec k w :
  (0 < k)%N ->
  let r := recv k w in
  same_but_inbox w r.2 /\
  match pending (net w) with
  | [] => pending (net r.2) = [] /\
          r.1 = match ending (net w) with Closed => inr [] | Reset => inl OSError end
  | _ :: _ => exists chunk, r.1 = inr chunk /\ chunk <> [] /\ (len chunk <= k)%N /\
                            chunk ++ pending (net r.2) = pending (net w)
  end.
Proof.
  intros Hk. unfold recv, pending.
  pose proof (recv_from_spec k (inbox (net w)) Hk) as (Hcat & Hlen & Hnil).
  destruct (recv_from k (inbox (net w))) as [chunk segs]. cbn [fst snd] in *.
  destruct chunk as [|b chunk].
  - destruct (Hnil eq_refl) as [Hp ->]. rewrite Hp.
    unfold same_but_inbox. destruct (ending (net w)) eqn:He; cbn; rewrite ?He; repeat split; reflexivity.
  - cbn [fst snd net inbox]. split; [repeat split|].
    rewrite <- Hcat. cbn [app]. eexists; repeat split; [discriminate | exact Hlen].
Qed.

Lemma len_app (a b : bytes) : len (a ++ b) = (len a + len b)%N.
Proof. unfold len. rewrite length_app. lia. Qed.

Lemma recvall_loop_spec budget : forall n buf w,
  (length (pending (net w)) < budget)%nat ->
  let r := recvall_loop budget n buf w in
  let avail := pending (net w) in
  let need := N.to_nat (n - len buf) in
  same_but_inbox w r.2 /\
  if (need <=? length avail)%nat
  then r.1 = inr (buf ++ take need avail) /\ pending (net r.2) = drop need avail
  else pending (net r.2) = [] /\
       r.1 = match ending (net w) with Closed => inr (buf ++ avail) | Reset => inl OSError end.
Proof.
  induction budget as [|budget IH]; intros n buf w Hb; [lia|].
  cbn zeta. cbn [recvall_loop].
  destruct (N.ltb_spec (len buf) n) as [Hlt|Hge].
  - unfold bind.
    pose proof (recv_spec (n - len buf) w ltac:(lia)) as [Hsame Hrecv].
    destruct (recv (n - len buf) w) as [res w1]. cbn [fst snd] in *.
    destruct (pending (net w)) as [|b0 avail0] eqn:Hp.
    + destruct Hrecv as [Hp1 ->].
      replace (N.to_nat (n - len buf) <=? length (@nil byte))%nat with false
        by (symmetry; apply Nat.leb_gt; simpl; lia).
      destruct Hsame as (?&?&?&?&?&He&?).
      destruct (ending (net w)) eqn:Hend; cbn; rewrite ?app_nil_r; repeat split; auto; congruence.
    + destruct Hrecv as (chunk & -> & Hne & Hlen & Hcat).
      assert (Hpos : (0 < length chunk)%nat) by (destruct chunk; [congruence | simpl; lia]).
      assert (Hb1 : (length (pending (net w1)) < budget)%nat).
      { apply (f_equal length) in Hcat. rewrite length_app in Hcat. simpl in *. lia. }
      replace (match chunk with [] => ret buf | _ :: _ => recvall_loop budget n (buf ++ chunk) end)
        with (recvall_loop budget n (buf ++ chunk)) by (destruct chunk; [simpl in Hpos; lia | reflexivity]).
      specialize (IH n (buf ++ chunk) w1 Hb1). cbn zeta in IH.
      destruct IH as [Hsame1 IH].
      split; [eapply same_but_inbox_trans; eassumption|].
      rewrite len_app in IH.
      set (k := length chunk) in *.
      assert (Hk : N.to_nat (n - (len buf + len chunk)) = (N.to_nat (n - len buf) - k)%nat).
      { unfold len, k. lia. }
      assert (Hkn : (k <= N.to_nat (n - len buf))%nat) by (unfold k, len in *; lia).
      rewrite Hk in IH. rewrite <- Hcat.
      destruct Hsame as (?&?&?&?&?&He&?). rewrite <- He.
      rewrite length_app. fold k.
      destruct (Nat.leb_spec (N.to_nat (n - len buf) - k) (length (pending (net w1)))) as [Hle|Hgt].
      * replace (N.to_nat (n - len buf) <=? k + length (pending (net w1)))%nat with true
          by (symmetry; apply Nat.leb_le; lia).
        destruct IH as [-> ->]. split.
        -- f_equal. rewrite <- app_assoc. f_equal.
           rewrite take_app. fold k. rewrite (take_ge chunk) by (fold k; lia). reflexivity.
        -- rewrite drop_app. fold k. rewrite (drop_ge chunk) by (fold k; lia). reflexivity.
      * replace (N.to_nat (n - len buf) <=? k + length (pending (net w1)))%nat with false
          by (symmetry; apply Nat.leb_gt; lia).
        destruct IH as [-> ->]. split; [reflexivity|].
        destruct (ending (net w1)); [|reflexivity]. rewrite <- app_assoc. reflexivity.
  - replace (N.to_nat (n - len buf)) with 0%nat by lia. cbn.
    rewrite app_nil_r. repeat split.
Qed.

Lemma recvall_spec n w :
  let r := recvall n w in
  let avail := pending (net w) in
  same_but_inbox w r.2 /\
  if (N.to_nat n <=? length avail)%nat
  then r.1 = inr (take (N.to_nat n) avail) /\ pending (net r.2) = drop (N.to_nat n) avail
  else pending (net r.2) = [] /\
       r.1 = match ending (net w) with Closed => inr avail | Reset => inl OSError end.
Proof.
  unfold recvall, with_budget.
  pose proof (recvall_loop_spec (S (length (pending (net w)))) n [] w ltac:(lia)) as H.
  cbn zeta in H. replace (n - len [])%N with n in H by (unfold len; simpl; lia).
  exact H.
Qed.

Lemma byte_of_N_value n : Byte.to_N (byte_of_N n) = (n mod 256)%N.
Proof.
  unfold byte_of_N. destruct (Byte.of_N (n mod 256)) as [b|] eqn:Hb.
  - apply Byte.to_of_N. exact Hb.
  - apply Byte.of_N_None_iff in Hb.
    pose proof (N.mod_lt n 256 ltac:(lia)). lia.
Qed.

Lemma be_value_snoc b x : be_value (b ++ [x]) = (be_value b * 256 + Byte.to_N x)%N.
Proof. unfold be_value. rewrite fold_left_app. reflexivity. Qed.

Lemma be_bytes_length width : forall n, length (be_bytes width n) = width.
Proof.
  induction width as [|w IH]; intros n; simpl; [reflexivity|].
  rewrite length_app, IH. simpl. lia.
Qed.

Lemma be_value_be_bytes width : forall n,
  be_value (be_bytes width n) = (n mod 256 ^ N.of_nat width)%N.
Proof.
  induction width as [|w IH]; intros n.
  - simpl. rewrite N.mod_1_r. reflexivity.
  - cbn [be_bytes]. rewrite be_value_snoc, IH, byte_of_N_value.
    rewrite Nat2N.inj_succ, N.pow_succ_r'.
    rewrite N.Div0.mod_mul_r. ring.
Qed.

Lemma be_value_be_bytes_small width n :
  (n < 256 ^ N.of_nat width)%N -> be_value (be_bytes width n) = n.
Proof. intros H. rewrite be_value_be_bytes. apply N.mod_small, H. Qed.

Section FramingFacts.

Variable json_encode : json -> bytes.
Variable json_decode : bytes -> option json.

(** What [recv_json] does, by what the connection still holds. *)
Lemma recv_json_spec w :
  let r := recv_json json_decode w in
  let avail := pending (net w) in
  let payload := drop 4 avail in
  let n := N.to_nat (be_value (take 4 avail)) in
  same_but_inbox w r.2 /\
  r.1 = match avail, ending (net w) with
        | [], Closed => inl ConnectionError
        | [], Reset => inl OSError
        | _ :: _, e =>
            if (4 <=? length avail)%nat then
              if (n <=? length payload)%nat then decoded json_decode (take n payload)
              else match e with Closed => decoded json_decode payload | Reset => inl OSError end
            else match e with Closed => inl StructError | Reset => inl OSError end
        end /\
  ((4 <=? length avail)%nat = true -> (n <=? length payload)%nat = true ->
   pending (net r.2) = drop n payload).
Proof.
  cbn zeta. unfold recv_json, bind.
  pose proof (recvall_spec 4 w) as [Hs1 H1]. cbn zeta in H1.
  destruct (recvall 4 w) as [r1 w1]. cbn [fst snd] in *.
  change (N.to_nat 4) with 4%nat in H1.
  destruct (Nat.leb_spec 4 (length (pending (net w)))) as [Hlen|Hlen].
  - destruct H1 as [-> Hp1].
    destruct (pending (net w)) as [|b0 avail] eqn:Hav; [simpl in Hlen; lia|].
    rewrite <- Hav in *. clear Hav b0 avail.
    assert (Hl4 : length (take 4 (pending (net w))) = 4%nat) by (rewrite length_take; lia).
    destruct (take 4 (pending (net w))) as [|t0 t] eqn:Ht; [discriminate|].
    rewrite <- Ht in *. clear Ht t0 t.
    unfold struct_unpack. rewrite Hl4. cbn [Nat.eqb]. unfold ret.
    pose proof (recvall_spec (be_value (take 4 (pending (net w)))) w1) as [Hs2 H2].
    cbn zeta in H2. rewrite Hp1 in H2.
    destruct (recvall (be_value (take 4 (pending (net w)))) w1) as [r2 w2]. cbn [fst snd] in *.
    assert (He : ending (net w1) = ending (net w)) by apply Hs1.
    rewrite He in H2.
    destruct (N.to_nat (be_value (take 4 (pending (net w)))) <=? length (drop 4 (pending (net w))))%nat.
    + destruct H2 as [-> Hp2]. unfold decoded.
      destruct (json_decode _); cbn; (split; [eapply same_but_inbox_trans; eassumption|]);
        (split; [destruct (ending (net w)); reflexivity | intros _ _; exact Hp2]).
    + destruct H2 as [Hp2 ->]. unfold decoded.
      destruct (ending (net w)); cbn.
      * destruct (json_decode _); cbn; (split; [eapply same_but_inbox_trans; eassumption|]);
          (split; [reflexivity | discriminate]).
      * split; [eapply same_but_inbox_trans; eassumption|]. split; [reflexivity | discriminate].
  - destruct H1 as [Hp1 ->].
    destruct (pending (net w)) as [|b0 avail] eqn:Hav.
    + destruct (ending (net w)); cbn; (split; [exact Hs1|]); (split; [reflexivity | discriminate]).
    + destruct (ending (net w)); cbn [fst snd].
      * unfold struct_unpack.
        replace (length (b0 :: avail) =? 4)%nat with false
          by (symmetry; apply Nat.eqb_neq; lia).
        cbn. split; [exact Hs1|]. split; [reflexivity | discriminate].
      * split; [exact Hs1|]. split; [reflexivity | discriminate].
Qed.

Lemma send_json_ok obj ws :
  (len (json_encode obj) < 2 ^ 32)%N ->
  send_json json_encode obj ws =
    (inr tt,
     World (Conn (inbox (net ws)) (ending (net ws))
                 (outbox (net ws) ++ be_bytes 4 (len (json_encode obj)) ++ json_encode obj))
           (disk ws) (logged ws) (clock ws) (ui ws) (chunks ws)).
Proof.
  intros Hlen. unfold send_json, struct_pack, bind, sendall, ret.
  change (256 ^ N.of_nat 4)%N with (2 ^ 32)%N.
  destruct (N.ltb_spec (len (json_encode obj)) (2 ^ 32)) as [_|Hge]; [|lia].
  cbn. rewrite <- app_assoc. reflexivity.
Qed.

Lemma send_json_too_long obj ws :
  (2 ^ 32 <= len (json_encode obj))%N ->
  send_json json_encode obj ws = (inl StructError, ws).
Proof.
  intros Hlen. unfold send_json, struct_pack, bind, raise.
  change (256 ^ N.of_nat 4)%N with (2 ^ 32)%N.
  destruct (N.ltb_spec (len (json_encode obj)) (2 ^ 32)) as [Hlt|_]; [lia|reflexivity].
Qed.


(** C2: a connection that closes inside the length prefix, or inside the
    payload, does not make [recv_json] raise ConnectionError: the short prefix
    goes to [struct.unpack], which raises its own error, and the short payload
    goes to the JSON decoder as if it were complete. *)
Theorem recv_json_early_close_not_connection_error :
  (recv_json json_decode
     (World (Conn [[x00; x00]] Closed []) (Filesystem ∅ ∅) [] [] [] [])).1 = inl StructError /\
  (recv_json json_decode
     (World (Conn [[x00; x00; x00; x05]; ["{"%byte; "}"%byte]] Closed [])
            (Filesystem ∅ ∅) [] [] [] [])).1 = decoded json_decode ["{"%byte; "}"%byte].
Proof.
  split.
  - reflexivity.
  - unfold decoded. vm_compute. destruct (json_decode _); reflexivity.
Qed.

(** The general form of the same observation: on a connection that closes
    early, [recv_json] raises ConnectionError only when not a single byte
    arrived. *)
Lemma recv_json_connection_error_iff w :
  ending (net w) = Closed ->
  ((recv_json json_decode w).1 = inl ConnectionError <-> pending (net w) = []).
Proof.
  intros Hend. pose proof (recv_json_spec w) as (_ & Hres & _). cbn zeta in Hres.
  rewrite Hend in Hres. rewrite Hres. clear Hres.
  destruct (pending (net w)) as [|b avail]; [tauto|].
  split; [|discriminate]. intros H. exfalso.
  destruct (4 <=? length (b :: avail))%nat; [|discriminate].
  unfold decoded in H.
  destruct (_ <=? _)%nat; destruct (json_decode _); discriminate.
Qed.

End FramingFacts.

Lemma file_write_spec dest chunk w c t :
  nodes (disk w) !! dest = Some (File c t) ->
  file_write dest chunk w =
    (inr tt,
     World (net w)
           (Filesystem (<[dest := File (c ++ chunk) t]> (nodes (disk w))) (locked (disk w)))
           (logged w) (clock w) (ui w) (chunks w ++ [len chunk])).
Proof.
  intros H. unfold file_write, bind, note_write, set_disk. cbn. rewrite H. reflexivity.
Qed.

Lemma recv_file_loop_step budget dest size written w :
  (written < size)%N ->
  recv_file_loop (S budget) dest size written w =
    match recv (N.min (1024 * 256) (size - written)) w with
    | (inl e, w1) => (inl e, w1)
    | (inr [], w1) => (inr written, w1)
    | (inr chunk, w1) =>
        match file_write dest chunk w1 with
        | (inr _, w2) => recv_file_loop budget dest size (written + len chunk) w2
        | (inl e, w2) => (inl e, w2)
        end
    end.
Proof.
  intros Hlt. cbn [recv_file_loop].
  destruct (N.ltb_spec written size) as [_|Hge]; [|lia].
  unfold bind. destruct (recv _ w) as [[e|[|b chunk]] w1]; reflexivity.
Qed.

Lemma recv_file_loop_done budget dest size written w :
  (size <= written)%N ->
  recv_file_loop budget dest size written w = (inr written, w).
Proof.
  intros Hge. destruct budget; cbn [recv_file_loop];
    (destruct (N.ltb_spec written size) as [Hlt|_]; [lia|reflexivity]).
Qed.

Lemma recv_file_loop_spec budget dest size : forall written w c t,
  (length (pending (net w)) < budget)%nat ->
  nodes (disk w) !! dest = Some (File c t) ->
  let r := recv_file_loop budget dest size written w in
  let avail := pending (net w) in
  let need := N.to_nat (size - written) in
  let got := take need avail in
  pending (net r.2) = drop need avail /\
  nodes (disk r.2) = <[dest := File (c ++ got) t]> (nodes (disk w)) /\
  locked (disk r.2) = locked (disk w) /\
  logged r.2 = logged w /\ clock r.2 = clock w /\ ui r.2 = ui w /\
  ending (net r.2) = ending (net w) /\ outbox (net r.2) = outbox (net w) /\
  (exists sizes, chunks r.2 = chunks w ++ sizes /\
                 Forall (fun n => (0 < n <= chunk_limit)%N) sizes /\
                 fold_right N.add 0%N sizes = len got) /\
  r.1 = if (need <=? length avail)%nat then inr (written + N.of_nat need)%N
        else match ending (net w) with
             | Closed => inr (written + len avail)%N
             | Reset => inl OSError
             end.
Proof.
  induction budget as [|budget IH]; intros written w c t Hb Hfile; [lia|].
  cbn zeta.
  destruct (N.ltb_spec written size) as [Hlt|Hge].
  - rewrite recv_file_loop_step by exact Hlt.
    pose proof (recv_spec (N.min (1024 * 256) (size - written)) w ltac:(lia)) as [Hsame Hrecv].
    destruct (recv (N.min (1024 * 256) (size - written)) w) as [res w1]. cbn [fst snd] in *.
    destruct Hsame as (Hd & Hl & Hc & Hu & Hch & He & Ho).
    destruct (pending (net w)) as [|b0 avail0] eqn:Hp.
    + destruct Hrecv as [Hp1 ->].
      replace (N.to_nat (size - written) <=? length (@nil byte))%nat with false
        by (symmetry; apply Nat.leb_gt; simpl; lia).
      rewrite take_nil, drop_nil, app_nil_r, insert_id by exact Hfile.
      destruct (ending (net w)) eqn:Hend; cbn [fst snd];
        repeat split; try congruence;
        try (exists []; rewrite app_nil_r; split; [congruence | split; [constructor | reflexivity]]).
      unfold len. simpl. do 2 f_equal. lia.
    + destruct Hrecv as (chunk & -> & Hne & Hlen & Hcat).
      assert (Hpos : (0 < length chunk)%nat) by (destruct chunk; [congruence | simpl; lia]).
      assert (Hb1 : (length (pending (net w1)) < budget)%nat).
      { apply (f_equal length) in Hcat. rewrite length_app in Hcat. simpl in *. lia. }
      replace (match chunk with
               | [] => (@inr exn N written, w1)
               | _ :: _ =>
                   match file_write dest chunk w1 with
                   | (inr _, w2) => recv_file_loop budget dest size (written + len chunk) w2
                   | (inl e, w2) => (inl e, w2)
                   end
               end)
        with (match file_write dest chunk w1 with
              | (inr _, w2) => recv_file_loop budget dest size (written + len chunk) w2
              | (inl e, w2) => (inl e, w2)
              end)
        by (destruct chunk; [simpl in Hpos; lia | reflexivity]).
      rewrite (file_write_spec dest chunk w1 c t) by (rewrite Hd; exact Hfile).
      set (w2 := World _ _ _ _ _ _).
      assert (Hfile2 : nodes (disk w2) !! dest = Some (File (c ++ chunk) t))
        by (unfold w2; cbn; apply lookup_insert_eq).
      specialize (IH (written + len chunk)%N w2 (c ++ chunk) t Hb1 Hfile2). cbn zeta in IH.
      destruct IH as (IHp & IHn & IHl & IHlog & IHc & IHu & IHe & IHo & (sizes & IHs & IHf & IHsum) & IHr).
      change (pending (net w2)) with (pending (net w1)) in *.
      set (k := length chunk) in *.
      assert (Hk : N.to_nat (size - (written + len chunk)) = (N.to_nat (size - written) - k)%nat).
      { unfold len, k. lia. }
      assert (Hkn : (k <= N.to_nat (size - written))%nat) by (unfold k, len in *; lia).
      rewrite Hk in *. rewrite <- Hcat.
      assert (Hgot : take (N.to_nat (size - written)) (chunk ++ pending (net w1)) =
                     chunk ++ take (N.to_nat (size - written) - k) (pending (net w1))).
      { rewrite take_app. fold k. rewrite (take_ge chunk) by (fold k; lia). reflexivity. }
      repeat split.
      * rewrite IHp, drop_app. fold k. rewrite (drop_ge chunk) by (fold k; lia). reflexivity.
      * rewrite IHn. unfold w2. cbn. rewrite insert_insert_eq, Hd, Hgot.
        rewrite <- app_assoc. reflexivity.
      * rewrite IHl. unfold w2. cbn. congruence.
      * rewrite IHlog. unfold w2. cbn. congruence.
      * rewrite IHc. unfold w2. cbn. congruence.
      * rewrite IHu. unfold w2. cbn. congruence.
      * rewrite IHe. unfold w2. cbn. congruence.
      * rewrite IHo. unfold w2. cbn. congruence.
      * exists (len chunk :: sizes). split.
        -- rewrite IHs. unfold w2. cbn. rewrite Hch, <- app_assoc. reflexivity.
        -- split; [constructor; [|exact IHf]; unfold chunk_limit, len; fold k; lia|].
           cbn [fold_right]. rewrite IHsum, Hgot, len_app. reflexivity.
      * rewrite IHr. rewrite length_app. fold k.
        destruct (Nat.leb_spec (N.to_nat (size - written) - k) (length (pending (net w1)))) as [Hle|Hgt].
        -- replace (N.to_nat (size - written) <=? k + length (pending (net w1)))%nat with true
             by (symmetry; apply Nat.leb_le; lia).
           f_equal. unfold len. fold k. lia.
        -- replace (N.to_nat (size - written) <=? k + length (pending (net w1)))%nat with false
             by (symmetry; apply Nat.leb_gt; lia).
           unfold w2. cbn [net]. rewrite He.
           destruct (ending (net w)); [|reflexivity].
           f_equal. unfold len. rewrite length_app. fold k. lia.
  - rewrite recv_file_loop_done by exact Hge.
    replace (N.to_nat (size - written)) with 0%nat by lia. cbn.
    rewrite app_nil_r, insert_id by exact Hfile.
    repeat split; try reflexivity.
    + exists []. rewrite app_nil_r. split; [reflexivity | split; [constructor | reflexivity]].
    + f_equal. lia.
Qed.

Lemma same_but_nodes_refl w : same_but_nodes w w.
Proof. repeat split. Qed.

Lemma same_but_nodes_trans w1 w2 w3 :
  same_but_nodes w1 w2 -> same_but_nodes w2 w3 -> same_but_nodes w1 w3.
Proof.
  unfold same_but_nodes. intros (?&?&?&?&?&?) (?&?&?&?&?&?). repeat split; congruence.
Qed.

Lemma mkdir_one_spec final q w :
  let r := mkdir_one final q w in
  same_but_nodes w r.2 /\
  (forall p, nodes (disk r.2) !! p = nodes (disk w) !! p \/
             (p = q /\ nodes (disk w) !! p = None /\ nodes (disk r.2) !! p = Some Dir)) /\
  match nodes (disk w) !! q with
  | Some (File _ _) => r.1 = inl (if final then FileExistsError else NotADirectoryError)
  | _ => r.1 = inr tt /\ nodes (disk r.2) !! q = Some Dir
  end.
Proof.
  cbn zeta. unfold mkdir_one.
  destruct (nodes (disk w) !! q) as [[c t|]|] eqn:Hq; cbn.
  - repeat split. auto.
  - repeat split; auto.
  - repeat split.
    + intros p. destruct (decide (p = q)) as [->|Hne].
      * right. rewrite lookup_insert_eq. auto.
      * left. apply lookup_insert_ne. congruence.
    + apply lookup_insert_eq.
Qed.

Lemma on_the_way_cons done x rest q :
  on_the_way done (x :: rest) q <-> q = done ++ [x] \/ on_the_way (done ++ [x]) rest q.
Proof.
  unfold on_the_way. split.
  - intros (k & Hk & ->). destruct k as [|k]; [lia|].
    destruct k as [|k].
    + left. reflexivity.
    + right. exists (S k). simpl in Hk. split; [simpl; lia|].
      rewrite <- app_assoc. reflexivity.
  - intros [->|(k & Hk & ->)].
    + exists 1%nat. simpl. split; [lia|]. reflexivity.
    + exists (S k). simpl. split; [lia|]. rewrite <- app_assoc. reflexivity.
Qed.

Lemma mkdir_prefixes_spec todo : forall done w,
  let r := mkdir_prefixes done todo w in
  same_but_nodes w r.2 /\
  (forall p, nodes (disk r.2) !! p = nodes (disk w) !! p \/
             (on_the_way done todo p /\ nodes (disk w) !! p = None /\
              nodes (disk r.2) !! p = Some Dir)) /\
  (r.1 = inr tt -> forall p, on_the_way done todo p -> nodes (disk r.2) !! p = Some Dir) /\
  ((forall p, on_the_way done todo p -> is_file (disk w) p = false) -> r.1 = inr tt).
Proof.
  induction todo as [|x rest IH]; intros done w; cbn zeta.
  - cbn. repeat split; auto using same_but_nodes_refl.
    intros _ p (k & Hk & _). simpl in Hk. lia.
  - cbn [mkdir_prefixes]. unfold bind.
    pose proof (mkdir_one_spec (match rest with [] => true | _ => false end) (done ++ [x]) w)
      as (Hs & Hframe & Hq).
    cbn zeta in *.
    destruct (mkdir_one _ (done ++ [x]) w) as [[e|[]] w1]; cbn [fst snd] in *.
    + repeat split; try apply Hs.
      * intros p. destruct (Hframe p) as [?|(-> & ? & ?)]; [left; assumption|].
        right. split; [|auto]. apply on_the_way_cons. left. reflexivity.
      * discriminate.
      * intros Hfree. exfalso.
        specialize (Hfree (done ++ [x])). unfold is_file in Hfree.
        destruct (nodes (disk w) !! (done ++ [x])) as [[c t|]|]; try (destruct Hq; discriminate).
        discriminate Hfree. apply on_the_way_cons. left. reflexivity.
    + specialize (IH (done ++ [x]) w1). cbn zeta in IH.
      destruct IH as (Hs1 & Hframe1 & Hdirs1 & Hok1).
      assert (Hq1 : nodes (disk w1) !! (done ++ [x]) = Some Dir).
      { destruct (nodes (disk w) !! (done ++ [x])) as [[c t|]|]; [discriminate Hq | apply Hq | apply Hq]. }
      split; [eapply same_but_nodes_trans; eassumption|].
      split; [|split].
      * intros p. destruct (Hframe1 p) as [Heq|(Hon & Hnone & Hdir)].
        -- rewrite Heq. destruct (Hframe p) as [?|(-> & ? & ?)]; [left; assumption|].
           right. split; [|auto]. apply on_the_way_cons. left. reflexivity.
        -- right. split; [apply on_the_way_cons; right; exact Hon|].
           split; [|exact Hdir].
           destruct (Hframe p) as [Heq|(-> & ? & ?)]; congruence.
      * intros Hok p Hon. apply on_the_way_cons in Hon as [->|Hon].
        -- destruct (Hframe1 (done ++ [x])) as [Heq|(_ & Hnone & _)]; congruence.
        -- apply Hdirs1; assumption.
      * intros Hfree. apply Hok1. intros p Hon.
        assert (Hp : is_file (disk w) p = false)
          by (apply Hfree, on_the_way_cons; right; exact Hon).
        unfold is_file in *.
        destruct (Hframe p) as [Heq|(_ & _ & Hdir)]; [rewrite Heq; exact Hp|].
        rewrite Hdir. reflexivity.
Qed.

Lemma take_on_the_way (p : path) k :
  (0 < k <= length p)%nat -> on_the_way [] p (take k p).
Proof. intros Hk. exists k. split; [exact Hk | reflexivity]. Qed.

Lemma length_parent (p : path) : length (parent p) = pred (length p).
Proof.
  unfold parent. rewrite removelast_firstn_len. change @firstn with @take.
  rewrite length_take. lia.
Qed.

Lemma not_on_the_way_parent (dest : path) : ~ on_the_way [] (parent dest) dest.
Proof.
  intros (k & Hk & Heq). cbn in Heq.
  apply (f_equal length) in Heq. rewrite length_take in Heq.
  rewrite length_parent in *. lia.
Qed.

Lemma open_wb_inv p w u w' :
  open_wb p w = (inr u, w') ->
  is_dir (disk w) p = false /\ (p ∉ locked (disk w)) /\
  w' = World (net w)
             (Filesystem (<[p := File [] (now w)]> (nodes (disk w))) (locked (disk w)))
             (logged w) (clock w) (ui w) (chunks w).
Proof.
  unfold open_wb, set_disk, is_dir.
  destruct (nodes (disk w) !! p) as [[c t|]|]; [|discriminate|];
    (destruct (decide (p ∈ locked (disk w))); [discriminate|]);
    intros [= <- <-]; auto.
Qed.

Lemma open_wb_ok p w :
  is_dir (disk w) p = false -> p ∉ locked (disk w) ->
  open_wb p w =
    (inr tt,
     World (net w)
           (Filesystem (<[p := File [] (now w)]> (nodes (disk w))) (locked (disk w)))
           (logged w) (clock w) (ui w) (chunks w)).
Proof.
  unfold open_wb, set_disk, is_dir. intros Hd Hl.
  destruct (nodes (disk w) !! p) as [[c t|]|]; [|discriminate|];
    (destruct (decide (p ∈ locked (disk w))); [contradiction|reflexivity]).
Qed.

Lemma take_drop_length (n : nat) (l : bytes) : drop (length (take n l)) l = drop n l.
Proof.
  rewrite length_take. destruct (Nat.le_gt_cases n (length l)) as [Hle|Hgt].
  - rewrite Nat.min_l by exact Hle. reflexivity.
  - rewrite Nat.min_r by lia. rewrite !drop_ge by lia. reflexivity.
Qed.

(** C10: whatever the connection still holds, a call of [recv_file] that
    returns has written to [dest] exactly the first bytes of the payload, at
    most as many as the 8-byte prefix declares, in writes that add up to that
    count, and has taken no further byte from the connection. *)
Theorem recv_file_at_most_declared_size dest w v w' :
  recv_file dest w = (inr v, w') ->
  let avail := pending (net w) in
  let size := be_value (take 8 avail) in
  let payload := drop 8 avail in
  exists data t sizes,
    nodes (disk w') !! dest = Some (File data t) /\
    data = take (N.to_nat size) payload /\
    (len data <= size)%N /\
    pending (net w') = drop (length data) payload /\
    chunks w' = chunks w ++ sizes /\
    fold_right N.add 0%N sizes = len data.
Proof.
  intros Hrun. cbn zeta.
  unfold recv_file, bind in Hrun.
  pose proof (recvall_spec 8 w) as [Hs1 H1]. cbn zeta in H1.
  change (N.to_nat 8) with 8%nat in H1.
  destruct (recvall 8 w) as [r1 w1]. cbn [fst snd] in *.
  destruct Hs1 as (Hd1 & Hl1 & Hc1 & Hu1 & Hch1 & He1 & Ho1).
  destruct (Nat.leb_spec 8 (length (pending (net w)))) as [Hlen|Hlen].
  2:{ exfalso. destruct H1 as [_ ->].
      destruct (ending (net w)); [|discriminate Hrun].
      unfold struct_unpack in Hrun.
      replace (length (pending (net w)) =? 8)%nat with false in Hrun
        by (symmetry; apply Nat.eqb_neq; lia).
      discriminate Hrun. }
  destruct H1 as [-> Hp1].
  unfold struct_unpack in Hrun. rewrite length_take in Hrun.
  replace (8 `min` length (pending (net w)) =? 8)%nat with true in Hrun
    by (symmetry; apply Nat.eqb_eq; lia).
  cbn [ret] in Hrun.
  pose proof (mkdir_prefixes_spec (parent dest) [] w1) as (Hs2 & _).
  cbn zeta in *. unfold mkdir_parents in Hrun.
  destruct (mkdir_prefixes [] (parent dest) w1) as [[e|[]] w2]; [discriminate Hrun|].
  cbn [fst snd] in *.
  destruct Hs2 as (Hn2 & Hlk2 & Hl2 & Hc2 & Hu2 & Hch2).
  destruct (open_wb dest w2) as [[e|[]] w3] eqn:Hopen; [discriminate Hrun|].
  apply open_wb_inv in Hopen as (_ & _ & ->).
  unfold with_budget in Hrun.
  set (size := be_value (take 8 (pending (net w)))) in *.
  match type of Hrun with
  | context [recv_file_loop ?b dest size 0%N ?w3] =>
      pose proof (recv_file_loop_spec b dest size 0%N w3 [] (now w2)
                    ltac:(cbn; lia) ltac:(cbn; apply lookup_insert_eq)) as Hloop;
      destruct (recv_file_loop b dest size 0%N w3) as [[e|written] w4]; [discriminate Hrun|]
  end.
  cbn zeta in Hloop. cbn [fst snd net disk nodes locked logged clock ui chunks app] in Hloop.
  destruct Hloop as (Lp & Ln & _ & _ & _ & _ & _ & _ & (sizes & Ls & _ & Lsum) & _).
  unfold log_emit, ret in Hrun. cbn in Hrun. injection Hrun as <- <-.
  cbn [net disk nodes chunks].
  rewrite Hn2, Hp1 in Lp, Ln, Lsum.
  replace (N.to_nat (size - 0)) with (N.to_nat size) in * by lia.
  exists (take (N.to_nat size) (drop 8 (pending (net w)))), (now w2), sizes.
  split; [rewrite Ln; apply lookup_insert_eq|].
  split; [reflexivity|].
  split; [unfold len; rewrite length_take; lia|].
  split; [rewrite Lp, take_drop_length; reflexivity|].
  split; [rewrite Ls, Hch2, Hch1; reflexivity | exact Lsum].
Qed.

(** C3: when the connection delivers the 8 size bytes and the
    destination can be created, [recv_file] creates the parent directories,
    writes what arrives of the declared bytes in writes of at most 256 KiB,
    raises nothing when the connection closes before the declared size is
    reached, and returns None: the short count shows in the length of the file
    and in the log record, not in the returned value. *)
Theorem recv_file_short_transfer_returns_none dest w :
  let avail := pending (net w) in
  let size := be_value (take 8 avail) in
  let payload := drop 8 avail in
  let data := take (N.to_nat size) payload in
  (8 <= length avail)%nat ->
  ((length payload < N.to_nat size)%nat -> ending (net w) = Closed) ->
  (forall k, (0 < k <= length (parent dest))%nat ->
             is_file (disk w) (take k (parent dest)) = false) ->
  is_dir (disk w) dest = false ->
  dest ∉ locked (disk w) ->
  exists w',
    recv_file dest w = (inr PyNone, w') /\
    nodes (disk w') !! dest = Some (File data (now w)) /\
    (forall k, (0 < k <= length (parent dest))%nat ->
               nodes (disk w') !! take k (parent dest) = Some Dir) /\
    pending (net w') = drop (length data) payload /\
    logged w' = logged w ++ [LogFileReceived dest (len data)] /\
    exists sizes, chunks w' = chunks w ++ sizes /\
                  Forall (fun n => (0 < n <= chunk_limit)%N) sizes /\
                  fold_right N.add 0%N sizes = len data.
Proof.
  cbn zeta. intros Hlen Hclosed Hfree Hnodir Hunlocked.
  unfold recv_file, bind.
  pose proof (recvall_spec 8 w) as [Hs1 H1]. cbn zeta in H1.
  change (N.to_nat 8) with 8%nat in H1.
  destruct (recvall 8 w) as [r1 w1]. cbn [fst snd] in *.
  destruct Hs1 as (Hd1 & Hl1 & Hc1 & Hu1 & Hch1 & He1 & Ho1).
  replace (8 <=? length (pending (net w)))%nat with true in H1
    by (symmetry; apply Nat.leb_le; exact Hlen).
  destruct H1 as [-> Hp1].
  unfold struct_unpack. rewrite length_take.
  replace (8 `min` length (pending (net w)) =? 8)%nat with true
    by (symmetry; apply Nat.eqb_eq; lia).
  cbn [ret].
  set (size := be_value (take 8 (pending (net w)))) in *.
  pose proof (mkdir_prefixes_spec (parent dest) [] w1) as (Hs2 & Hframe2 & Hdirs2 & Hok2).
  cbn zeta in *. unfold mkdir_parents.
  assert (Hmk : (mkdir_prefixes [] (parent dest) w1).1 = inr tt).
  { apply Hok2. intros p (k & Hk & ->). cbn [app]. rewrite Hd1. apply Hfree, Hk. }
  specialize (Hdirs2 Hmk).
  destruct (mkdir_prefixes [] (parent dest) w1) as [res2 w2]. cbn [fst snd] in *. subst res2.
  destruct Hs2 as (Hn2 & Hlk2 & Hl2 & Hc2 & Hu2 & Hch2).
  assert (Hdest2 : nodes (disk w2) !! dest = nodes (disk w) !! dest).
  { destruct (Hframe2 dest) as [->|(Hon & _)]; [rewrite Hd1; reflexivity|].
    exfalso. exact (not_on_the_way_parent dest Hon). }
  rewrite open_wb_ok; [| unfold is_dir in *; rewrite Hdest2; exact Hnodir
                       | rewrite Hlk2, Hd1; exact Hunlocked].
  unfold with_budget.
  match goal with
  | |- context [recv_file_loop ?b dest size 0%N ?w3] =>
      pose proof (recv_file_loop_spec b dest size 0%N w3 [] (now w2)
                    ltac:(cbn; lia) ltac:(cbn; apply lookup_insert_eq)) as Hloop;
      destruct (recv_file_loop b dest size 0%N w3) as [res4 w4]
  end.
  cbn zeta in Hloop. cbn [fst snd net disk nodes locked logged clock ui chunks app] in Hloop.
  destruct Hloop as (Lp & Ln & _ & Llog & _ & _ & _ & _ & (sizes & Ls & Lf & Lsum) & Lr).
  rewrite Hn2, Hp1 in Lp, Ln, Lsum, Lr.
  replace (N.to_nat (size - 0)) with (N.to_nat size) in * by lia.
  assert (Hnow : now w2 = now w) by (unfold now; rewrite Hc2, Hc1; reflexivity).
  assert (Hres : res4 = inr (len (take (N.to_nat size) (drop 8 (pending (net w)))))).
  { rewrite Lr. rewrite He1. unfold len. rewrite length_take.
    destruct (Nat.leb_spec (N.to_nat size) (length (drop 8 (pending (net w))))) as [Hle|Hgt].
    - f_equal. lia.
    - rewrite (Hclosed Hgt). f_equal. lia. }
  clear Lr. subst res4. unfold log_emit, ret. cbn [fst snd].
  eexists. split; [reflexivity|]. cbn [net disk nodes logged chunks].
  split; [rewrite Ln, Hnow; apply lookup_insert_eq|].
  split.
  { intros k Hk. rewrite Ln.
    assert (Hne : dest <> take k (parent dest)).
    { intros Heq. apply (not_on_the_way_parent dest). rewrite Heq at 2.
      apply take_on_the_way, Hk. }
    rewrite lookup_insert_ne by exact Hne.
    rewrite lookup_insert_ne by exact Hne.
    apply Hdirs2, take_on_the_way, Hk. }
  split; [rewrite Lp, take_drop_length; reflexivity|].
  split; [rewrite Llog, Hl2, Hl1; reflexivity|].
  exists sizes. split; [rewrite Ls, Hch2, Hch1; reflexivity|]. split; assumption.
Qed.

Lemma eqb_string_eq (a b : string) : String.eqb a b = true <-> a = b.
Proof. apply String.eqb_eq. Qed.

Lemma groups_get_group_add gid g fe groups :
  groups_get gid (group_add g fe groups) =
    if String.eqb g gid then Some (default [] (groups_get gid groups) ++ [fe])
    else groups_get gid groups.
Proof.
  induction groups as [|[g' files] rest IH]; cbn.
  - destruct (String.eqb g gid); reflexivity.
  - destruct (String.eqb g' g) eqn:Hg'; cbn.
    + apply String.eqb_eq in Hg' as ->. destruct (String.eqb g gid); reflexivity.
    + destruct (String.eqb g' gid) eqn:Hgid; cbn.
      * apply String.eqb_eq in Hgid as ->. rewrite String.eqb_sym, Hg'. reflexivity.
      * exact IH.
Qed.

Lemma groups_get_fold gid (index : list (string * FileEntry)) : forall groups,
  groups_get gid (fold_left (fun groups km => group_add (rel_folder km.2) km.2 groups)
                            index groups) =
    match groups_get gid groups, folder_files gid index.*2 with
    | None, [] => None
    | o, new => Some (default [] o ++ new)
    end.
Proof.
  induction index as [|[k e] index IH]; intros groups; cbn [fold_left fmap list_fmap snd].
  - unfold folder_files. cbn. destruct (groups_get gid groups); [rewrite app_nil_r|]; reflexivity.
  - rewrite IH, groups_get_group_add. unfold folder_files. rewrite filter_cons.
    destruct (decide (rel_folder e = gid)) as [Heq|Hne].
    + rewrite (proj2 (String.eqb_eq _ _) Heq).
      destruct (groups_get gid groups) as [fs|]; unfold default, from_option, id.
      * rewrite <- app_assoc. reflexivity.
      * reflexivity.
    + destruct (String.eqb (rel_folder e) gid) eqn:Heq;
        [apply String.eqb_eq in Heq; contradiction|].
      reflexivity.
Qed.

(** The group of a folder is the list of the manifest's entries with that
    folder ID, in manifest order; a folder without entries has no group. *)
Lemma group_index_get self gid :
  groups_get gid (_group_index self) =
    match folder_files gid (_index self).*2 with
    | [] => None
    | files => Some files
    end.
Proof.
  unfold _group_index. rewrite groups_get_fold. cbn.
  destruct (folder_files gid (_index self).*2); reflexivity.
Qed.

Lemma group_add_keys g fe groups :
  (group_add g fe groups).*1 = if in_groups g groups then groups.*1 else groups.*1 ++ [g].
Proof.
  unfold in_groups. induction groups as [|[g' files] rest IH]; cbn; [reflexivity|].
  destruct (String.eqb g' g) eqn:Hg; cbn; [reflexivity|].
  rewrite IH. destruct (groups_get g rest); reflexivity.
Qed.

Lemma in_groups_keys g groups : in_groups g groups = true <-> g ∈ groups.*1.
Proof.
  unfold in_groups. induction groups as [|[g' files] rest IH]; cbn.
  - split; [discriminate | intros H; inversion H].
  - destruct (String.eqb g' g) eqn:Hg.
    + apply String.eqb_eq in Hg as ->. split; [intros _; left | reflexivity].
    + rewrite IH. split; [intros H; right; exact H|].
      intros H. inversion H as [|? ? ? H']; subst; [|exact H'].
      rewrite String.eqb_refl in Hg. discriminate.
Qed.

Lemma group_add_NoDup g fe groups : NoDup groups.*1 -> NoDup (group_add g fe groups).*1.
Proof.
  intros Hnd. rewrite group_add_keys.
  destruct (in_groups g groups) eqn:Hin; [exact Hnd|].
  apply NoDup_app. split; [exact Hnd|]. split; [|apply NoDup_singleton].
  intros x Hx Hx'. apply list_elem_of_singleton in Hx' as ->.
  apply in_groups_keys in Hx. congruence.
Qed.

Lemma group_index_NoDup self : NoDup (_group_index self).*1.
Proof.
  unfold _group_index.
  assert (H : forall (index : list (string * FileEntry)) groups, NoDup groups.*1 ->
            NoDup (fold_left (fun groups km => group_add (rel_folder km.2) km.2 groups)
                             index groups).*1).
  { induction index as [|km index IH]; intros groups Hnd; [exact Hnd|].
    cbn [fold_left]. apply IH, group_add_NoDup, Hnd. }
  apply H. constructor.
Qed.

Lemma groups_get_elem gid files (groups : list (string * list FileEntry)) :
  NoDup groups.*1 ->
  (gid, files) ∈ groups <-> groups_get gid groups = Some files.
Proof.
  induction groups as [|[g fs] rest IH]; cbn; intros Hnd.
  - split; [intros H; inversion H | discriminate].
  - apply NoDup_cons in Hnd as [Hg Hnd].
    destruct (String.eqb g gid) eqn:Heq.
    + apply String.eqb_eq in Heq as ->. split.
      * intros H. apply elem_of_cons in H as [[= ->]|H]; [reflexivity|].
        exfalso. apply Hg. apply list_elem_of_fmap. exists (gid, files). auto.
      * intros [= ->]. left.
    + rewrite <- (IH Hnd). split.
      * intros H. apply elem_of_cons in H as [[= -> ->]|H]; [|exact H].
        rewrite String.eqb_refl in Heq. discriminate.
      * intros H. right. exact H.
Qed.

Lemma classify_fold_lookup gid (groups : list (string * list FileEntry)) :
  forall m : gmap string folder_class,
  NoDup groups.*1 ->
  fold_left (fun m gf => <[gf.1 := classify gf.2]> m) groups m !! gid =
    match groups_get gid groups with
    | Some files => Some (classify files)
    | None => m !! gid
    end.
Proof.
  induction groups as [|[g fs] rest IH]; intros m Hnd; cbn [fold_left groups_get].
  - reflexivity.
  - cbn [fmap list_fmap fst] in Hnd. apply NoDup_cons in Hnd as [Hg Hnd].
    rewrite (IH _ Hnd). cbn [fst snd].
    destruct (String.eqb g gid) eqn:Heq.
    + apply String.eqb_eq in Heq as ->.
      assert (Hnone : groups_get gid rest = None).
      { destruct (groups_get gid rest) eqn:Hget; [|reflexivity].
        exfalso. apply Hg. apply in_groups_keys. unfold in_groups. rewrite Hget. reflexivity. }
      rewrite Hnone. apply lookup_insert_eq.
    + destruct (groups_get gid rest); [reflexivity|].
      apply lookup_insert_ne. intros ->. rewrite String.eqb_refl in Heq. discriminate.
Qed.

Lemma existsb_kind_Exists k files :
  existsb (fun f => String.eqb (kind f) k) files = true <-> Exists (fun f => kind f = k) files.
Proof.
  rewrite existsb_exists, Exists_exists. split.
  - intros (f & Hin & Heq). exists f. split; [apply list_elem_of_In, Hin|].
    apply String.eqb_eq, Heq.
  - intros (f & Hin & Heq). exists f. split; [apply list_elem_of_In, Hin|].
    apply String.eqb_eq, Heq.
Qed.

(** C5: after [_classify_folders], a folder ID has a classification exactly
    when the manifest has entries for it, and that classification is decided
    by the kinds of those entries alone: assets for CRP without DLL, mods for
    DLL without CRP, mixed for both, assets for neither. *)
Theorem classify_folders_by_kinds self gid :
  let files := folder_files gid (_index self).*2 in
  let has k := Exists (fun f => kind f = k) files in
  _folder_class (_classify_folders self) !! gid =
    match files with
    | [] => None
    | _ => Some (classify files)
    end /\
  (has "crp" -> ~ has "dll" -> classify files = cls_assets) /\
  (has "dll" -> ~ has "crp" -> classify files = cls_mods) /\
  (has "crp" -> has "dll" -> classify files = cls_mixed) /\
  (~ has "crp" -> ~ has "dll" -> classify files = cls_assets).
Proof.
  cbn zeta. split.
  - unfold _classify_folders. cbn [_folder_class].
    rewrite classify_fold_lookup by apply group_index_NoDup.
    rewrite group_index_get.
    destruct (folder_files gid (_index self).*2); [apply lookup_empty | reflexivity].
  - set (files := folder_files gid (_index self).*2).
    unfold classify.
    pose proof (existsb_kind_Exists "crp" files) as Hcrp.
    pose proof (existsb_kind_Exists "dll" files) as Hdll.
    destruct (existsb (fun f => String.eqb (kind f) "crp") files);
      destruct (existsb (fun f => String.eqb (kind f) "dll") files); cbn;
      repeat split; intros; try reflexivity; exfalso; intuition congruence.
Qed.

Lemma mapR_inr {A B} (f : A -> exn + B) l bs :
  mapR f l = inr bs -> Forall2 (fun a b => f a = inr b) l bs.
Proof.
  revert bs. induction l as [|a l IH]; intros bs; cbn.
  - intros [= <-]. constructor.
  - unfold bindR. destruct (f a) as [e|b] eqn:Hfa; [discriminate|].
    destruct (mapR f l) as [e|bs'] eqn:Hm; [discriminate|].
    intros [= <-]. constructor; [exact Hfa | apply IH; reflexivity].
Qed.

Lemma folder_action_spec (acts : list action) :
  acts <> [] -> DELETE ∉ acts ->
  (UPDATE ∈ acts -> folder_action (list_to_set acts) = UPDATE) /\
  (UPDATE ∉ acts -> NEW ∈ acts -> folder_action (list_to_set acts) = NEW) /\
  (UPDATE ∉ acts -> NEW ∉ acts -> folder_action (list_to_set acts) = SAME).
Proof.
  intros Hne Hnd. unfold folder_action.
  destruct (decide (list_to_set acts = ({[SAME]} : gset action))) as [Heq|Hneq].
  - split; [|split]; [intros H | intros _ H | reflexivity];
      apply (elem_of_list_to_set (C := gset action)) in H;
      rewrite Heq in H; apply elem_of_singleton in H; discriminate.
  - destruct (decide (UPDATE ∈ (list_to_set acts : gset action))) as [Hu|Hu];
      rewrite elem_of_list_to_set in Hu.
    + split; [|split]; [reflexivity | contradiction | contradiction].
    + split; [|split]; [contradiction | reflexivity |].
      intros _ Hn. exfalso. apply Hneq. apply set_eq. intros a.
      rewrite elem_of_list_to_set, elem_of_singleton. split.
      * intros Ha. destruct a; [contradiction | contradiction | reflexivity | contradiction].
      * intros ->. destruct acts as [|a acts]; [congruence|].
        destruct a; [exfalso; apply Hn; left | exfalso; apply Hu; left | left
                    | exfalso; apply Hnd; left].
Qed.

Section PlannerFacts.

Variable sha256_hex : bytes -> string.
Variable self : SyncClient.
Variable fs : filesystem.

Abbreviation target_of e :=
  (build_client_target e (assets_path self) (mods_path self)
     (get_folder_target self (rel_folder e))).

(** What decides the action of a file: whether a node is at the target and,
    for a regular file, whether the hash of its content is the entry's. *)
Lemma classify_file_action_spec e d a :
  _classify_file_action sha256_hex self fs e d = inr a ->
  let t := build_client_target e (assets_path self) (mods_path self) d in
  (a = SAME <-> exists c m, nodes fs !! t = Some (File c m) /\ sha256_hex c = sha256 e) /\
  (a = UPDATE <-> exists c m, nodes fs !! t = Some (File c m) /\ sha256_hex c <> sha256 e) /\
  (a = NEW <-> nodes fs !! t = None) /\
  a <> DELETE.
Proof.
  unfold _classify_file_action, exists_, sha256_of_file, bindR. cbn zeta.
  destruct (nodes fs !! build_client_target e (assets_path self) (mods_path self) d)
    as [[c m|]|] eqn:Ht.
  - destruct (String.eqb (sha256_hex c) (sha256 e)) eqn:Hh; intros [= <-].
    + apply String.eqb_eq in Hh. repeat split; try discriminate; eauto.
      * intros (c' & m' & [= <- <-] & Hne). contradiction.
    + apply String.eqb_neq in Hh. repeat split; try discriminate; eauto.
      * intros (c' & m' & [= <- <-] & Heq). contradiction.
  - discriminate.
  - intros [= <-]. repeat split; try discriminate; eauto.
    + intros (c & m & [=] & _).
    + intros (c & m & [=] & _).
Qed.


Lemma plan_statuses_spec d files : forall acc statuses : gset action,
  foldR (fun statuses e =>
           a <-? _classify_file_action sha256_hex self fs e d ;;
           inr (statuses ∪ {[a]})) files acc = inr statuses ->
  exists actions,
    Forall2 (fun e a => _classify_file_action sha256_hex self fs e d = inr a) files actions /\
    statuses = acc ∪ list_to_set actions.
Proof.
  induction files as [|e files IH]; intros acc statuses; cbn.
  - intros [= <-]. exists []. split; [constructor|]. cbn. set_solver.
  - unfold bindR at 1. unfold bindR at 1.
    destruct (_classify_file_action sha256_hex self fs e d) as [x|a] eqn:Ha; [discriminate|].
    intros H. apply IH in H as (actions & Hall & ->).
    exists (a :: actions). split; [constructor; assumption|]. cbn. set_solver.
Qed.

(** The items one folder of the manifest contributes: its folder-level item,
    whose action aggregates the actions of the file-level items after it. *)
Lemma plan_group_inv gid files items :
  plan_group sha256_hex self fs (gid, files) = inr items ->
  exists kids,
    items = {| key := gid; entry := folder_entry gid;
               target := pjoin [] ("<" +:+ capitalize (get_folder_target self gid) +:+ ">/" +:+ gid);
               act := folder_action (list_to_set (act <$> kids));
               lvl := folder |} :: kids /\
    Forall2 (fun e it => file_item sha256_hex self fs gid (get_folder_target self gid) e = inr it)
            files kids.
Proof.
  unfold plan_group, plan_statuses. cbn [fst snd]. unfold bindR at 1.
  destruct (foldR _ files ∅) as [x|statuses] eqn:Hst; [discriminate|].
  unfold bindR.
  destruct (mapR _ files) as [x|kids] eqn:Hk; [discriminate|].
  intros [= <-]. exists kids.
  apply mapR_inr in Hk. split; [|exact Hk].
  do 2 f_equal.
  apply plan_statuses_spec in Hst as (actions & Hall & ->).
  f_equal. rewrite union_empty_l_L. f_equal.
  clear -Hall Hk. revert kids Hk.
  induction Hall as [|e a files actions Ha Hall IH]; intros kids Hk; inversion Hk; subst.
  - reflexivity.
  - cbn. f_equal; [|apply IH; assumption].
    unfold file_item, bindR in *. rewrite Ha in *.
    match goal with H : inr _ = inr _ |- _ => injection H as <- end. reflexivity.
Qed.

Lemma file_item_inv gid d e it :
  file_item sha256_hex self fs gid d e = inr it ->
  _classify_file_action sha256_hex self fs e d = inr (act it) /\
  key it = gid +:+ "/" +:+ name e /\ entry it = e /\ lvl it = file /\
  target it = build_client_target e (assets_path self) (mods_path self) d.
Proof.
  unfold file_item, bindR.
  destruct (_classify_file_action sha256_hex self fs e d) as [x|a]; [discriminate|].
  intros [= <-]. cbn. auto.
Qed.

Lemma delete_items_spec gid it :
  it ∈ delete_items self fs gid ->
  act it = DELETE /\ rel_folder (entry it) = gid /\
  (lvl it = folder -> key it = "(delete)/" +:+ gid) /\
  (exists rest, key it = "(" +:+ rest).
Proof.
  unfold delete_items. intros Hin.
  apply elem_of_cons in Hin as [->|Hin]; [cbn; eauto 10|].
  apply list_elem_of_In, in_flat_map in Hin as (base & _ & Hin).
  destruct (exists_ fs (pjoin base gid)); [|inversion Hin].
  apply list_elem_of_In, list_elem_of_omap in Hin as (f & _ & Hf).
  unfold delete_file_item in Hf.
  destruct (stat_file fs f) as [[sz mt]|]; [|discriminate].
  injection Hf as <-. cbn. repeat split; [discriminate | eauto].
Qed.

Lemma delete_items_head gid :
  {| key := "(delete)/" +:+ gid; entry := folder_entry gid;
     target := pjoin (assets_path self) gid; act := DELETE; lvl := folder |}
  ∈ delete_items self fs gid.
Proof. unfold delete_items. left. Qed.

Lemma elem_of_children d base :
  d ∈ children fs base <-> parent d = base /\ d <> base /\ is_Some (nodes fs !! d).
Proof.
  unfold children. rewrite list_elem_of_filter, list_elem_of_fmap. split.
  - intros ((Hp & Hne) & ([p n] & -> & Hin)). apply elem_of_map_to_list in Hin.
    cbn in *. rewrite Hin. eauto.
  - intros (Hp & Hne & [n Hn]). split; [auto|].
    exists (d, n). split; [reflexivity|]. apply elem_of_map_to_list. exact Hn.
Qed.

(** The IDs found under one root are the names of its numeric-named
    subdirectories. *)
Lemma local_ids_under_spec base ids :
  local_ids_under fs base = inr ids ->
  forall gid, gid ∈ ids <->
    is_dir fs base = true /\
    exists d, parent d = base /\ d <> base /\ is_dir fs d = true /\
              isdigit (basename d) = true /\ basename d = gid.
Proof.
  unfold local_ids_under.
  destruct (exists_ fs base) eqn:Hex; cbn [negb].
  - destruct (is_dir fs base) eqn:Hdir; [|discriminate].
    intros [= <-] gid. rewrite elem_of_list_to_set, list_elem_of_In, in_map_iff. split.
    + intros (d & Hname & Hin). apply list_elem_of_In, list_elem_of_filter in Hin as [Hok Hc].
      apply elem_of_children in Hc as (Hp & Hne & _).
      apply Is_true_true, andb_true_iff in Hok as [Hd Hdig].
      split; [reflexivity|]. exists d. auto.
    + intros (_ & d & Hp & Hne & Hd & Hdig & Hname). exists d. split; [exact Hname|].
      apply list_elem_of_In, list_elem_of_filter. split.
      * apply Is_true_true, andb_true_iff. auto.
      * apply elem_of_children. repeat split; auto.
        unfold is_dir in Hd. destruct (nodes fs !! d); [eauto | discriminate].
  - intros [= <-] gid. split; [set_solver|].
    intros (Hdir & _). unfold is_dir, exists_ in *.
    destruct (nodes fs !! base); discriminate.
Qed.

(** A plan is the items of the manifest's folders, folder by folder, followed
    by the items of the local numeric folders the manifest does not have. *)
Lemma build_plan_inv plan :
  build_plan sha256_hex self fs = inr plan ->
  exists per_group ids_assets ids_mods,
    Forall2 (fun gf items => plan_group sha256_hex self fs gf = inr items)
            (_group_index self) per_group /\
    local_ids_under fs (assets_path self) = inr ids_assets /\
    local_ids_under fs (mods_path self) = inr ids_mods /\
    plan = concat per_group ++
           flat_map (delete_items self fs)
             (filter (fun gid => in_groups gid (_group_index self) = false)
                     (elements (ids_assets ∪ ids_mods))).
Proof.
  unfold build_plan, bindR.
  destruct (mapR _ (_group_index self)) as [x|per_group] eqn:Hm; [discriminate|].
  destruct (local_ids_under fs (assets_path self)) as [x|ids_a]; [discriminate|].
  destruct (local_ids_under fs (mods_path self)) as [x|ids_m]; [discriminate|].
  intros [= <-]. exists per_group, ids_a, ids_m.
  split; [apply mapR_inr, Hm | auto].
Qed.

Lemma Forall2_concat_elem {A B} (P : A -> list B -> Prop) l ls x :
  Forall2 P l ls -> x ∈ concat ls -> exists a items, a ∈ l /\ P a items /\ x ∈ items.
Proof.
  induction 1 as [|a items l ls HP Hall IH]; cbn; intros Hin.
  - inversion Hin.
  - apply elem_of_app in Hin as [Hin|Hin].
    + exists a, items. split; [left | auto].
    + destruct (IH Hin) as (a' & items' & Ha' & HP' & Hx).
      exists a', items'. split; [right; exact Ha' | auto].
Qed.

Lemma Forall2_elem_l {A B} (P : A -> B -> Prop) l ls a :
  Forall2 P l ls -> a ∈ l -> exists b, b ∈ ls /\ P a b.
Proof.
  induction 1 as [|a' b l ls HP Hall IH]; intros Hin.
  - inversion Hin.
  - apply elem_of_cons in Hin as [->|Hin].
    + exists b. split; [left | exact HP].
    + destruct (IH Hin) as (b' & Hb' & HP'). exists b'. split; [right; exact Hb' | exact HP'].
Qed.

Lemma Forall2_elem_r {A B} (P : A -> B -> Prop) l ls b :
  Forall2 P l ls -> b ∈ ls -> exists a, a ∈ l /\ P a b.
Proof.
  induction 1 as [|a b' l ls HP Hall IH]; intros Hin.
  - inversion Hin.
  - apply elem_of_cons in Hin as [->|Hin].
    + exists a. split; [left | exact HP].
    + destruct (IH Hin) as (a' & Ha' & HP'). exists a'. split; [right; exact Ha' | exact HP'].
Qed.

Lemma elem_of_concat_intro {B} (ls : list (list B)) items x :
  items ∈ ls -> x ∈ items -> x ∈ concat ls.
Proof.
  induction ls as [|l ls IH]; intros Hin Hx; [inversion Hin|].
  cbn. apply elem_of_app. apply elem_of_cons in Hin as [->|Hin]; [left; exact Hx|].
  right. apply IH; assumption.
Qed.

(** Where an item of a plan comes from. *)
Lemma elem_of_plan plan it :
  build_plan sha256_hex self fs = inr plan ->
  it ∈ plan <->
    (exists gid files items,
       groups_get gid (_group_index self) = Some files /\
       plan_group sha256_hex self fs (gid, files) = inr items /\ it ∈ items) \/
    (exists gid ids_assets ids_mods,
       local_ids_under fs (assets_path self) = inr ids_assets /\
       local_ids_under fs (mods_path self) = inr ids_mods /\
       gid ∈ ids_assets ∪ ids_mods /\
       in_groups gid (_group_index self) = false /\ it ∈ delete_items self fs gid).
Proof.
  intros Hplan. apply build_plan_inv in Hplan as (per_group & ids_a & ids_m & Hall & Ha & Hm & ->).
  rewrite elem_of_app. split.
  - intros [Hin|Hin].
    + left. destruct (Forall2_concat_elem _ _ _ _ Hall Hin) as ([gid files] & items & Hgf & Hpg & Hit).
      exists gid, files, items. split; [|auto].
      apply groups_get_elem; [apply group_index_NoDup | exact Hgf].
    + right. apply list_elem_of_In, in_flat_map in Hin as (gid & Hgid & Hin).
      apply list_elem_of_In, list_elem_of_filter in Hgid as [Hmiss Hgid].
      apply elem_of_elements in Hgid.
      exists gid, ids_a, ids_m. repeat split; auto. apply list_elem_of_In, Hin.
  - intros [(gid & files & items & Hget & Hpg & Hit)|(gid & ia & im & Ha' & Hm' & Hgid & Hmiss & Hit)].
    + left. apply groups_get_elem in Hget; [|apply group_index_NoDup].
      destruct (Forall2_elem_l _ _ _ _ Hall Hget) as (items' & Hitems' & Hpg').
      rewrite Hpg in Hpg'. injection Hpg' as <-.
      eapply elem_of_concat_intro; eassumption.
    + right. rewrite Ha in Ha'. rewrite Hm in Hm'. injection Ha' as <-. injection Hm' as <-.
      apply list_elem_of_In, in_flat_map. exists gid. split; [|apply list_elem_of_In, Hit].
      apply list_elem_of_In, list_elem_of_filter. split; [exact Hmiss|].
      apply elem_of_elements, Hgid.
Qed.

Lemma elem_of_folder_files gid e (entries : list FileEntry) :
  e ∈ folder_files gid entries <-> rel_folder e = gid /\ e ∈ entries.
Proof. unfold folder_files. rewrite list_elem_of_filter. reflexivity. Qed.

Lemma groups_get_files gid files :
  groups_get gid (_group_index self) = Some files ->
  files <> [] /\ forall e, e ∈ files <-> rel_folder e = gid /\ e ∈ (_index self).*2.
Proof.
  rewrite group_index_get. intros H.
  assert (Hf : files = folder_files gid (_index self).*2 /\ files <> []).
  { destruct (folder_files gid (_index self).*2); [discriminate|].
    injection H as <-. split; [reflexivity | discriminate]. }
  destruct Hf as [-> Hne]. split; [exact Hne|]. intros e. apply elem_of_folder_files.
Qed.

Lemma in_groups_manifest gid :
  in_groups gid (_group_index self) = true <-> manifest_folder self gid.
Proof.
  unfold in_groups, manifest_folder. rewrite group_index_get. split.
  - destruct (folder_files gid (_index self).*2) as [|e l] eqn:Hf; [discriminate|].
    intros _. assert (He : e ∈ folder_files gid (_index self).*2) by (rewrite Hf; left).
    apply elem_of_folder_files in He as [Hrel He].
    apply list_elem_of_fmap in He as ([k e'] & -> & Hin). exists k, e'. auto.
  - intros (k & e & Hin & Hrel).
    assert (He : e ∈ folder_files gid (_index self).*2).
    { apply elem_of_folder_files. split; [exact Hrel|].
      apply list_elem_of_fmap. exists (k, e). auto. }
    destruct (folder_files gid (_index self).*2); [inversion He | reflexivity].
Qed.

Lemma plan_group_of_plan plan gid files :
  build_plan sha256_hex self fs = inr plan ->
  groups_get gid (_group_index self) = Some files ->
  exists items, plan_group sha256_hex self fs (gid, files) = inr items.
Proof.
  intros Hplan Hget.
  apply build_plan_inv in Hplan as (per_group & _ & _ & Hall & _).
  apply groups_get_elem in Hget; [|apply group_index_NoDup].
  destruct (Forall2_elem_l _ _ _ _ Hall Hget) as (items & _ & Hpg). eauto.
Qed.

(** The file-level items of a manifest folder. *)
Lemma kid_spec gid files kids it :
  groups_get gid (_group_index self) = Some files ->
  Forall2 (fun e it => file_item sha256_hex self fs gid (get_folder_target self gid) e = inr it)
          files kids ->
  it ∈ kids ->
  lvl it = file /\ rel_folder (entry it) = gid /\ entry it ∈ (_index self).*2 /\
  key it = gid +:+ "/" +:+ name (entry it) /\
  target it = target_of (entry it) /\
  _classify_file_action sha256_hex self fs (entry it) (get_folder_target self gid)
    = inr (act it).
Proof.
  intros Hget Hall Hin.
  destruct (Forall2_elem_r _ _ _ _ Hall Hin) as (e & He & Hitem).
  apply file_item_inv in Hitem as (Hact & Hkey & Hentry & Hlvl & Htarget).
  apply (groups_get_files _ _ Hget) in He as [Hrel He]. subst e.
  rewrite Htarget, Hrel. auto 10.
Qed.

(** C1: in a plan, every entry of the manifest has its file-level item, and
    the action of a file-level item of the manifest is SAME exactly when a
    regular file is at the computed target and its SHA-256 is the entry's,
    UPDATE exactly when a regular file is there with another hash, and NEW
    exactly when nothing is at the target; the folder's classification and the
    entry's size and time play no part. *)
Theorem build_plan_file_actions plan :
  build_plan sha256_hex self fs = inr plan ->
  (forall k e, (k, e) ∈ _index self ->
     exists it, it ∈ plan /\ lvl it = file /\ entry it = e /\ act it <> DELETE /\
                key it = rel_folder e +:+ "/" +:+ name e) /\
  (forall it, it ∈ plan -> lvl it = file -> act it <> DELETE ->
     entry it ∈ (_index self).*2 /\
     target it = target_of (entry it) /\
     (act it = SAME <->
        exists c m, nodes fs !! target it = Some (File c m) /\
                    sha256_hex c = sha256 (entry it)) /\
     (act it = UPDATE <->
        exists c m, nodes fs !! target it = Some (File c m) /\
                    sha256_hex c <> sha256 (entry it)) /\
     (act it = NEW <-> nodes fs !! target it = None)).
Proof.
  intros Hplan. split.
  - intros k e Hin.
    assert (He : e ∈ folder_files (rel_folder e) (_index self).*2).
    { apply elem_of_folder_files. split; [reflexivity|].
      apply list_elem_of_fmap. exists (k, e). auto. }
    destruct (groups_get (rel_folder e) (_group_index self)) as [files|] eqn:Hget.
    2:{ rewrite group_index_get in Hget.
        destruct (folder_files (rel_folder e) (_index self).*2); [inversion He | discriminate]. }
    destruct (plan_group_of_plan plan _ _ Hplan Hget) as (items & Hpg).
    destruct (plan_group_inv _ _ _ Hpg) as (kids & -> & Hall).
    assert (He' : e ∈ files) by (apply (groups_get_files _ _ Hget); apply elem_of_folder_files, He).
    destruct (Forall2_elem_l _ _ _ _ Hall He') as (it & Hit & Hitem).
    exists it. apply file_item_inv in Hitem as (Hact & Hkey & Hentry & Hlvl & _).
    apply classify_file_action_spec in Hact as (_ & _ & _ & Hnd).
    split; [|auto].
    apply (elem_of_plan plan it Hplan). left. exists (rel_folder e), files. eexists.
    split; [exact Hget|]. split; [exact Hpg|]. right. exact Hit.
  - intros it Hin Hlvl Hact.
    apply (elem_of_plan plan it Hplan) in Hin
      as [(gid & files & items & Hget & Hpg & Hit)|(gid & _ & _ & _ & _ & _ & _ & Hit)].
    2:{ apply delete_items_spec in Hit as (Hd & _). contradiction. }
    destruct (plan_group_inv _ _ _ Hpg) as (kids & -> & Hall).
    apply elem_of_cons in Hit as [->|Hit]; [discriminate Hlvl|].
    destruct (kid_spec _ _ _ _ Hget Hall Hit) as (_ & Hrel & Hentry & _ & Htarget & Hcl).
    apply classify_file_action_spec in Hcl as (Hsame & Hupd & Hnew & _).
    cbn zeta in *. rewrite <- Hrel in Hsame, Hupd, Hnew. rewrite <- Htarget in Hsame, Hupd, Hnew.
    auto.
Qed.

(** C4: a folder-level item of a plan is either the DELETE item of a local
    folder the manifest does not have, or the item of a manifest folder; the
    latter has at least one file-level item of its folder in the plan, and its
    action is UPDATE if one of them is UPDATE, otherwise NEW if one of them is
    NEW, otherwise SAME. *)
Theorem build_plan_folder_actions plan it :
  build_plan sha256_hex self fs = inr plan ->
  it ∈ plan -> lvl it = folder ->
  let gid := rel_folder (entry it) in
  let child c := c ∈ plan /\ lvl c = file /\ rel_folder (entry c) = gid in
  (act it = DELETE /\ ~ manifest_folder self gid) \/
  (manifest_folder self gid /\ key it = gid /\
   (exists c, child c) /\
   ((exists c, child c /\ act c = UPDATE) -> act it = UPDATE) /\
   (~ (exists c, child c /\ act c = UPDATE) ->
    (exists c, child c /\ act c = NEW) -> act it = NEW) /\
   (~ (exists c, child c /\ act c = UPDATE) ->
    ~ (exists c, child c /\ act c = NEW) -> act it = SAME)).
Proof.
  intros Hplan Hin Hlvl. cbn zeta.
  pose proof (elem_of_plan plan it Hplan) as Hel. apply Hel in Hin as Hfrom. clear Hel.
  destruct Hfrom as [(gid & files & items & Hget & Hpg & Hit)
                    |(gid & _ & _ & _ & _ & _ & Hmiss & Hit)].
  2:{ left. apply delete_items_spec in Hit as (Hd & Hrel & _ & _). split; [exact Hd|].
      rewrite Hrel, <- in_groups_manifest, Hmiss. discriminate. }
  right.
  destruct (plan_group_inv _ _ _ Hpg) as (kids & Hitems & Hall).
  assert (Hkid : forall c, c ∈ kids ->
            lvl c = file /\ rel_folder (entry c) = gid /\ act c <> DELETE).
  { intros c Hc. destruct (kid_spec _ _ _ _ Hget Hall Hc) as (? & ? & _ & _ & _ & Hcl).
    apply classify_file_action_spec in Hcl as (_ & _ & _ & ?). auto. }
  assert (Hhead : it = {| key := gid; entry := folder_entry gid;
                          target := pjoin [] ("<" +:+ capitalize (get_folder_target self gid)
                                              +:+ ">/" +:+ gid);
                          act := folder_action (list_to_set (act <$> kids));
                          lvl := folder |}).
  { rewrite Hitems in Hit. apply elem_of_cons in Hit as [->|Hit]; [reflexivity|].
    destruct (Hkid _ Hit) as (Hf & _). congruence. }
  assert (Hgid : rel_folder (entry it) = gid) by (rewrite Hhead; reflexivity).
  rewrite Hgid.
  assert (Hman : manifest_folder self gid).
  { apply in_groups_manifest. unfold in_groups. rewrite Hget. reflexivity. }
  assert (Hchild : forall c, (c ∈ plan /\ lvl c = file /\ rel_folder (entry c) = gid) <-> c ∈ kids).
  { intros c. split.
    - intros (Hc & Hcl & Hcg).
      apply (elem_of_plan plan c Hplan) in Hc
        as [(gid' & files' & items' & Hget' & Hpg' & Hc)|(gid' & _ & _ & _ & _ & _ & Hmiss & Hc)].
      + destruct (plan_group_inv _ _ _ Hpg') as (kids' & Hitems' & Hall').
        rewrite Hitems' in Hc. apply elem_of_cons in Hc as [->|Hc]; [discriminate Hcl|].
        destruct (kid_spec _ _ _ _ Hget' Hall' Hc) as (_ & Hrel' & _).
        assert (Heq : gid' = gid) by congruence. rewrite Heq in Hget', Hpg'.
        rewrite Hget in Hget'. injection Hget' as <-.
        rewrite Hpg in Hpg'. injection Hpg' as <-.
        assert (Hk : kids' = kids) by congruence. rewrite <- Hk. exact Hc.
      + exfalso. apply delete_items_spec in Hc as (_ & Hrel & _ & _).
        assert (Heq : gid' = gid) by congruence. rewrite Heq in Hmiss.
        apply in_groups_manifest in Hman. congruence.
    - intros Hc. destruct (Hkid c Hc) as (? & ? & _). split; [|auto].
      apply (elem_of_plan plan c Hplan). left. exists gid, files, items.
      split; [exact Hget|]. split; [exact Hpg|]. rewrite Hitems. right. exact Hc. }
  assert (Hne : act <$> kids <> []).
  { destruct (groups_get_files _ _ Hget) as [Hfiles _].
    pose proof (Forall2_length _ _ _ Hall) as Hlen.
    intros Hnil. apply (f_equal length) in Hnil. rewrite length_fmap in Hnil.
    apply Hfiles. destruct files; [reflexivity | simpl in *; lia]. }
  assert (Hnd : DELETE ∉ act <$> kids).
  { intros Hd. apply list_elem_of_fmap in Hd as (c & Hact & Hc).
    destruct (Hkid c Hc) as (_ & _ & Hn). apply Hn. symmetry. exact Hact. }
  destruct (folder_action_spec (act <$> kids) Hne Hnd) as (Hu & Hn & Hs).
  assert (Hacts : forall a, a ∈ act <$> kids <->
            exists c, (c ∈ plan /\ lvl c = file /\ rel_folder (entry c) = gid) /\ act c = a).
  { intros a. rewrite list_elem_of_fmap. split.
    - intros (c & -> & Hc). exists c. split; [apply Hchild, Hc | reflexivity].
    - intros (c & Hc & <-). exists c. split; [reflexivity | apply Hchild, Hc]. }
  split; [exact Hman|]. split; [rewrite Hhead; reflexivity|].
  split.
  { destruct kids as [|c kids']; [exfalso; apply Hne; reflexivity|].
    exists c. apply Hchild. left. }
  rewrite Hhead at 1 2 3. cbn [act].
  split; [intros H; apply Hu, Hacts, H|].
  split.
  - intros Hnu Hnew. apply Hn; [rewrite Hacts; exact Hnu | apply Hacts, Hnew].
  - intros Hnu Hnn. apply Hs; rewrite Hacts; assumption.
Qed.

Lemma isdigit_first s :
  isdigit s = true -> exists c rest, s = String c rest /\ isdigit_char c = true.
Proof.
  destruct s as [|c rest]; [discriminate|]. cbn. intros H.
  apply andb_true_iff in H as [Hc _]. eauto.
Qed.

(** An item that is not a DELETE item belongs to a folder of the manifest, and
    its key starts with that folder's ID. *)
Lemma kept_item_spec plan it :
  build_plan sha256_hex self fs = inr plan ->
  it ∈ plan -> act it <> DELETE ->
  manifest_folder self (rel_folder (entry it)) /\
  (isdigit (rel_folder (entry it)) = true ->
   exists c rest, key it = String c rest /\ isdigit_char c = true).
Proof.
  intros Hplan Hin Hact.
  apply (elem_of_plan plan it Hplan) in Hin
    as [(gid & files & items & Hget & Hpg & Hit)|(gid & _ & _ & _ & _ & _ & _ & Hit)].
  2:{ apply delete_items_spec in Hit as (Hd & _). contradiction. }
  assert (Hman : manifest_folder self gid).
  { apply in_groups_manifest. unfold in_groups. rewrite Hget. reflexivity. }
  destruct (plan_group_inv _ _ _ Hpg) as (kids & -> & Hall).
  apply elem_of_cons in Hit as [->|Hit].
  - cbn. split; [exact Hman|]. intros Hd. apply isdigit_first, Hd.
  - destruct (kid_spec _ _ _ _ Hget Hall Hit) as (_ & Hrel & _ & Hkey & _).
    rewrite Hrel. split; [exact Hman|]. intros Hd.
    apply isdigit_first in Hd as (c & rest & Hgid & Hc).
    rewrite Hkey, Hgid. cbn. eauto.
Qed.

(** C6: a numeric-named directory directly under a local root whose name is
    no folder ID of the manifest has its folder-level DELETE item in the plan,
    and every item of that folder is a DELETE item; DELETE items belong to
    such local folders only, every other item belongs to a folder of the
    manifest, so no folder ID has both kinds of item; and under a manifest
    whose folder IDs are numeric, as the host builds it, no DELETE item shares
    its key with another item. *)
Theorem build_plan_delete_candidates plan :
  build_plan sha256_hex self fs = inr plan ->
  (forall base d,
     base = assets_path self \/ base = mods_path self ->
     is_dir fs base = true -> parent d = base -> d <> base ->
     is_dir fs d = true -> isdigit (basename d) = true ->
     ~ manifest_folder self (basename d) ->
     (exists it, it ∈ plan /\ lvl it = folder /\ act it = DELETE /\
                 key it = "(delete)/" +:+ basename d /\
                 rel_folder (entry it) = basename d) /\
     (forall it, it ∈ plan -> rel_folder (entry it) = basename d -> act it = DELETE)) /\
  (forall it, it ∈ plan -> act it = DELETE ->
     ~ manifest_folder self (rel_folder (entry it)) /\
     exists base d,
       (base = assets_path self \/ base = mods_path self) /\
       parent d = base /\ d <> base /\ is_dir fs d = true /\
       isdigit (basename d) = true /\ basename d = rel_folder (entry it)) /\
  (forall it, it ∈ plan -> act it <> DELETE -> manifest_folder self (rel_folder (entry it))) /\
  (forall a b, a ∈ plan -> b ∈ plan -> act a = DELETE -> act b <> DELETE ->
     rel_folder (entry a) <> rel_folder (entry b)) /\
  ((forall k e, (k, e) ∈ _index self -> isdigit (rel_folder e) = true) ->
   forall a b, a ∈ plan -> b ∈ plan -> act a = DELETE -> act b <> DELETE ->
     key a <> key b).
Proof.
  intros Hplan.
  assert (Hdel : forall it, it ∈ plan -> act it = DELETE ->
            ~ manifest_folder self (rel_folder (entry it)) /\
            (exists rest, key it = "(" +:+ rest) /\
            exists base d,
              (base = assets_path self \/ base = mods_path self) /\
              parent d = base /\ d <> base /\ is_dir fs d = true /\
              isdigit (basename d) = true /\ basename d = rel_folder (entry it)).
  { intros it Hin Hact.
    apply (elem_of_plan plan it Hplan) in Hin
      as [(gid & files & items & Hget & Hpg & Hit)|(gid & ia & im & Ha & Hm & Hgid & Hmiss & Hit)].
    - exfalso. destruct (plan_group_inv _ _ _ Hpg) as (kids & -> & Hall).
      apply elem_of_cons in Hit as [->|Hit].
      + cbn in Hact.
        assert (Hne : act <$> kids <> []).
        { destruct (groups_get_files _ _ Hget) as [Hfiles _].
          pose proof (Forall2_length _ _ _ Hall) as Hlen.
          intros Hnil. apply (f_equal length) in Hnil. rewrite length_fmap in Hnil.
          apply Hfiles. destruct files; [reflexivity | simpl in *; lia]. }
        unfold folder_action in Hact. repeat case_decide; discriminate.
      + destruct (kid_spec _ _ _ _ Hget Hall Hit) as (_ & _ & _ & _ & _ & Hcl).
        apply classify_file_action_spec in Hcl as (_ & _ & _ & Hnd). contradiction.
    - apply delete_items_spec in Hit as (_ & Hrel & _ & Hkey). rewrite Hrel.
      split; [rewrite <- in_groups_manifest, Hmiss; discriminate|].
      split; [exact Hkey|].
      apply elem_of_union in Hgid as [Hgid|Hgid].
      + apply (local_ids_under_spec _ _ Ha) in Hgid as (_ & d & ? & ? & ? & ? & ?).
        exists (assets_path self), d. auto 10.
      + apply (local_ids_under_spec _ _ Hm) in Hgid as (_ & d & ? & ? & ? & ? & ?).
        exists (mods_path self), d. auto 10. }
  split; [|split; [|split; [|split]]].
  - intros base d Hbase Hbdir Hparent Hne Hddir Hdig Hnot.
    split.
    + pose proof Hplan as Hinv.
      apply build_plan_inv in Hinv as (per_group & ia & im & _ & Ha & Hm & _).
      exists {| key := "(delete)/" +:+ basename d; entry := folder_entry (basename d);
                target := pjoin (assets_path self) (basename d); act := DELETE;
                lvl := folder |}.
      split; [|cbn; auto].
      apply (elem_of_plan _ _ Hplan). right. exists (basename d), ia, im.
      split; [exact Ha|]. split; [exact Hm|].
      split; [|split; [|apply delete_items_head]].
      * apply elem_of_union.
        destruct Hbase as [->| ->]; [left; apply (local_ids_under_spec _ _ Ha)
                                    |right; apply (local_ids_under_spec _ _ Hm)];
          (split; [exact Hbdir|]; exists d; auto).
      * destruct (in_groups (basename d) (_group_index self)) eqn:Hg; [|reflexivity].
        exfalso. apply Hnot, in_groups_manifest, Hg.
    + intros it Hin Hrel. destruct (decide (act it = DELETE)) as [Hd|Hnd]; [exact Hd|].
      exfalso. apply Hnot. rewrite <- Hrel.
      apply (kept_item_spec plan it Hplan Hin Hnd).
  - intros it Hin Hact. destruct (Hdel it Hin Hact) as (? & _ & ?). auto.
  - intros it Hin Hact. apply (kept_item_spec plan it Hplan Hin Hact).
  - intros a b Ha Hb Hda Hnb Heq.
    destruct (Hdel a Ha Hda) as (Hnot & _). apply Hnot. rewrite Heq.
    apply (kept_item_spec plan b Hplan Hb Hnb).
  - intros Hnum a b Ha Hb Hda Hnb Heq.
    destruct (Hdel a Ha Hda) as (_ & (rest & Hka) & _).
    destruct (kept_item_spec plan b Hplan Hb Hnb) as ((k & e & Hin & Hrel) & Hkb).
    destruct Hkb as (c & rest' & Hkb & Hc); [rewrite <- Hrel; eapply Hnum, Hin|].
    rewrite Hka, Hkb in Heq. cbn in Heq. injection Heq as <- _. discriminate Hc.
Qed.

End PlannerFacts.

Lemma only_deleted_refl w : only_deleted w w.
Proof. repeat split; auto. exists []. rewrite app_nil_r. reflexivity. Qed.

Lemma only_deleted_trans w1 w2 w3 :
  only_deleted w1 w2 -> only_deleted w2 w3 -> only_deleted w1 w3.
Proof.
  intros (Hn & Hl & Hnet & Hc & Hu & Hch & (m1 & Hlog)) (Hn' & Hl' & Hnet' & Hc' & Hu' & Hch' & (m2 & Hlog')).
  repeat split; try congruence.
  - etransitivity; eassumption.
  - exists (m1 ++ m2). rewrite Hlog', Hlog, app_assoc. reflexivity.
Qed.

Lemma count_delete_file (m : gmap path node) p c t :
  m !! p = Some (File c t) ->
  base.size (filter (fun pn : path * node => is_file_node pn.2) m) =
    S (base.size (filter (fun pn : path * node => is_file_node pn.2) (delete p m))) /\
  base.size (filter (fun pn : path * node => negb (is_file_node pn.2)) (delete p m)) =
    base.size (filter (fun pn : path * node => negb (is_file_node pn.2)) m).
Proof.
  intros Hp. split.
  - rewrite map_filter_delete.
    assert (Hf : filter (fun pn : path * node => is_file_node pn.2) m !! p = Some (File c t)).
    { apply map_lookup_filter_Some. split; [exact Hp | exact I]. }
    rewrite map_size_delete, Hf.
    assert (base.size (filter (fun pn : path * node => is_file_node pn.2) m) <> 0%nat).
    { intros H0. apply map_size_empty_inv in H0. rewrite H0, lookup_empty in Hf. discriminate. }
    lia.
  - rewrite map_filter_delete_not; [reflexivity|].
    intros y Hy. rewrite Hp in Hy. injection Hy as <-. cbn. auto.
Qed.

Lemma count_delete_dir (m : gmap path node) p :
  m !! p = Some Dir ->
  base.size (filter (fun pn : path * node => negb (is_file_node pn.2)) m) =
    S (base.size (filter (fun pn : path * node => negb (is_file_node pn.2)) (delete p m))) /\
  base.size (filter (fun pn : path * node => is_file_node pn.2) (delete p m)) =
    base.size (filter (fun pn : path * node => is_file_node pn.2) m).
Proof.
  intros Hp. split.
  - rewrite map_filter_delete.
    assert (Hf : filter (fun pn : path * node => negb (is_file_node pn.2)) m !! p = Some Dir).
    { apply map_lookup_filter_Some. split; [exact Hp | exact I]. }
    rewrite map_size_delete, Hf.
    assert (base.size (filter (fun pn : path * node => negb (is_file_node pn.2)) m) <> 0%nat).
    { intros H0. apply map_size_empty_inv in H0. rewrite H0, lookup_empty in Hf. discriminate. }
    lia.
  - rewrite map_filter_delete_not; [reflexivity|].
    intros y Hy. rewrite Hp in Hy. injection Hy as <-. cbn. auto.
Qed.

(** [unlink] removes one regular file or changes nothing. *)
Lemma unlink_spec p w :
  (exists w', unlink p w = (inr tt, w') /\ only_deleted w w' /\ logged w' = logged w /\
              is_file (disk w) p = true /\ (p ∉ locked (disk w)) /\
              nodes (disk w') = delete p (nodes (disk w)) /\
              count_files (disk w) = S (count_files (disk w')) /\
              count_dirs (disk w') = count_dirs (disk w)) \/
  (exists e, unlink p w = (inl e, w) /\ e <> LoopBudget /\
             (is_file (disk w) p = true -> p ∈ locked (disk w))).
Proof.
  unfold unlink, is_file. destruct (nodes (disk w) !! p) as [[c t|]|] eqn:Hp.
  - destruct (decide (p ∈ locked (disk w))) as [Hl|Hl].
    + right. exists PermissionError. repeat split; auto; discriminate.
    + left. eexists. split; [reflexivity|]. unfold set_disk. cbn.
      destruct (count_delete_file _ _ _ _ Hp) as [Hf Hd].
      repeat split; auto; try apply delete_subseteq;
        try (exists []; rewrite app_nil_r; reflexivity).
  - right. exists IsADirectoryError. repeat split; auto; discriminate.
  - right. exists FileNotFoundError. repeat split; auto; discriminate.
Qed.

(** [rmdir] removes one directory or changes nothing. *)
Lemma rmdir_spec d w :
  (exists w', rmdir d w = (inr tt, w') /\ only_deleted w w' /\ logged w' = logged w /\
              nodes (disk w') = delete d (nodes (disk w)) /\
              is_dir (disk w) d = true /\
              count_dirs (disk w) = S (count_dirs (disk w')) /\
              count_files (disk w') = count_files (disk w)) \/
  (exists e, rmdir d w = (inl e, w) /\ e <> LoopBudget).
Proof.
  unfold rmdir, is_dir. destruct (nodes (disk w) !! d) as [[c t|]|] eqn:Hp.
  - right. exists NotADirectoryError. split; [reflexivity | discriminate].
  - destruct (decide (d ∈ locked (disk w))) as [Hl|Hl].
    + right. exists PermissionError. split; [reflexivity | discriminate].
    + destruct (children (disk w) d).
      * left. eexists. split; [reflexivity|]. unfold set_disk. cbn.
        destruct (count_delete_dir _ _ Hp) as [Hf Hd].
        repeat split; auto; try apply delete_subseteq;
          try (exists []; rewrite app_nil_r; reflexivity).
      * right. exists OSErrorNotEmpty. split; [reflexivity | discriminate].
  - right. exists FileNotFoundError. split; [reflexivity | discriminate].
Qed.

Lemma try_except_inr {A} (body : M A) handler w a w' :
  body w = (inr a, w') -> try_except body handler w = (inr a, w').
Proof. unfold try_except. intros ->. reflexivity. Qed.

Lemma try_except_inl {A} (body : M A) handler w e w' :
  body w = (inl e, w') -> e <> LoopBudget -> try_except body handler w = handler e w'.
Proof. unfold try_except. intros -> He. destruct e; try reflexivity. contradiction. Qed.




Lemma only_deleted_log w r :
  only_deleted w (World (net w) (disk w) (logged w ++ [r]) (clock w) (ui w) (chunks w)).
Proof. repeat split; auto. exists [r]. reflexivity. Qed.








Lemma is_file_delete_ne (m : gmap path node) lk lk' p f :
  p <> f -> is_file (Filesystem (delete p m) lk) f = is_file (Filesystem m lk') f.
Proof. intros Hne. unfold is_file. cbn. rewrite lookup_delete_ne by exact Hne. reflexivity. Qed.




Lemma elem_of_rglob fs d f :
  f ∈ rglob fs d <->
  is_dir fs d = true /\ d `prefix_of` f /\ f <> d /\ is_Some (nodes fs !! f).
Proof.
  unfold rglob. destruct (is_dir fs d).
  - rewrite list_elem_of_filter, list_elem_of_fmap. split.
    + intros ((Hp & Hne) & ([p n] & -> & Hin)). apply elem_of_map_to_list in Hin.
      cbn in *. rewrite Hin. eauto.
    + intros (_ & Hp & Hne & [n Hn]). split; [auto|].
      exists (f, n). split; [reflexivity|]. apply elem_of_map_to_list. exact Hn.
  - split; [intros H; inversion H | intros (H & _); discriminate].
Qed.




Lemma isdigit_no_slash s :
  all_chars isdigit_char s = true -> split_once s = (s, None).
Proof.
  induction s as [|c s IH]; cbn; [reflexivity|].
  intros H. apply andb_true_iff in H as [Hc Hs].
  destruct (Ascii.eqb c slash) eqn:Heq.
  - apply Ascii.eqb_eq in Heq as ->. discriminate Hc.
  - rewrite (IH Hs). reflexivity.
Qed.

Lemma isdigit_all_chars s : isdigit s = true -> all_chars isdigit_char s = true.
Proof. destruct s; [discriminate | auto]. Qed.





Lemma startswith_app pre s : startswith pre (pre +:+ s) = true.
Proof.
  unfold startswith. induction pre as [|c pre IH].
  - destruct s; reflexivity.
  - change (String c pre +:+ s) with (String c (pre +:+ s)).
    cbn [String.prefix]. destruct (ascii_dec c c); [exact IH | contradiction].
Qed.



Lemma elem_of_sorted gid ids : gid ∈ sorted ids <-> gid ∈ ids.
Proof.
  unfold sorted. rewrite merge_sort_Permutation. apply elem_of_elements.
Qed.

Lemma is_file_weaken w w' f :
  only_deleted w w' -> is_file (disk w') f = true -> is_file (disk w) f = true.
Proof.
  intros (Hn & _) H. unfold is_file in *.
  destruct (nodes (disk w') !! f) as [[c t|]|] eqn:Hf; try discriminate.
  rewrite (lookup_weaken _ _ _ _ Hf Hn). reflexivity.
Qed.
















Lemma stats_add_keys k d (st : stats) : (stats_add k d st).*1 = st.*1.
Proof.
  unfold stats_add. induction st as [|[k' v] st IH]; cbn; [reflexivity|].
  rewrite <- IH. destruct (String.eqb k' k); reflexivity.
Qed.

Lemma stats_set_keys k v (st : stats) : (stats_set k v st).*1 = st.*1.
Proof.
  unfold stats_set. induction st as [|[k' v'] st IH]; cbn; [reflexivity|].
  rewrite <- IH. destruct (String.eqb k' k); reflexivity.
Qed.

Lemma mkdir_prefixes_errors todo : forall done w e,
  (mkdir_prefixes done todo w).1 = inl e -> e = FileExistsError \/ e = NotADirectoryError.
Proof.
  induction todo as [|x rest IH]; intros done w e; cbn [mkdir_prefixes].
  - discriminate.
  - unfold bind.
    pose proof (mkdir_one_spec (match rest with [] => true | _ => false end) (done ++ [x]) w)
      as (_ & _ & Hq). cbn zeta in Hq.
    destruct (mkdir_one _ (done ++ [x]) w) as [[e1|[]] w1]; cbn [fst snd] in *.
    + intros [= <-]. destruct (nodes (disk w) !! (done ++ [x])) as [[c t|]|];
        [| destruct Hq; discriminate | destruct Hq; discriminate].
      injection Hq as ->. destruct rest; auto.
    + apply IH.
Qed.

Lemma open_wb_errors p w e w' :
  open_wb p w = (inl e, w') -> w' = w /\ (e = IsADirectoryError \/ e = PermissionError).
Proof.
  unfold open_wb, set_disk.
  destruct (nodes (disk w) !! p) as [[]|];
    try destruct (decide (p ∈ locked (disk w))); intros [= <- <-]; auto.
Qed.

(** [recv_file] takes bytes from the connection and gives none back, and its
    loop stays within its budget. *)
Lemma recv_file_consumes dest w :
  (recv_file dest w).1 <> inl LoopBudget /\
  (length (pending (net (recv_file dest w).2)) <= length (pending (net w)))%nat.
Proof.
  unfold recv_file, bind.
  pose proof (recvall_spec 8 w) as [Hs1 H1]. cbn zeta in H1.
  change (N.to_nat 8) with 8%nat in H1.
  destruct (recvall 8 w) as [r1 w1]. cbn [fst snd] in *.
  assert (Hlen1 : (length (pending (net w1)) <= length (pending (net w)))%nat).
  { destruct (8 <=? length (pending (net w)))%nat.
    - destruct H1 as [_ ->]. rewrite length_drop. lia.
    - destruct H1 as [-> _]. simpl. lia. }
  assert (Hr1 : r1 <> inl LoopBudget).
  { destruct (8 <=? length (pending (net w)))%nat.
    - destruct H1 as [-> _]. discriminate.
    - destruct H1 as [_ ->]. destruct (ending (net w)); discriminate. }
  destruct r1 as [e|raw]; cbn [fst snd];
    [split; [intros [= ->]; apply Hr1; reflexivity | exact Hlen1]|].
  unfold struct_unpack. destruct (length raw =? 8)%nat; cbn [ret raise fst snd];
    [|split; [discriminate | exact Hlen1]].
  unfold mkdir_parents.
  pose proof (mkdir_prefixes_spec (parent dest) [] w1) as (Hs2 & _).
  pose proof (mkdir_prefixes_errors (parent dest) [] w1) as He2.
  cbn zeta in *.
  destruct (mkdir_prefixes [] (parent dest) w1) as [[e|[]] w2]; cbn [fst snd] in *.
  { destruct Hs2 as (Hn2 & _). rewrite Hn2. split; [|exact Hlen1].
    destruct (He2 e eq_refl) as [-> | ->]; discriminate. }
  destruct Hs2 as (Hn2 & _).
  destruct (open_wb dest w2) as [[e|[]] w3] eqn:Hopen.
  { apply open_wb_errors in Hopen as (-> & He). cbn [fst snd].
    split; [destruct He as [-> | ->]; discriminate | rewrite Hn2; exact Hlen1]. }
  apply open_wb_inv in Hopen as (_ & _ & ->).
  unfold with_budget.
  match goal with
  | |- context [recv_file_loop ?b dest ?sz 0%N ?w3] =>
      pose proof (recv_file_loop_spec b dest sz 0%N w3 [] (now w2)
                    ltac:(cbn; lia) ltac:(cbn; apply lookup_insert_eq)) as Hloop;
      destruct (recv_file_loop b dest sz 0%N w3) as [res4 w4]
  end.
  cbn zeta in Hloop. cbn [fst snd net disk nodes locked logged clock ui chunks app] in Hloop.
  destruct Hloop as (Lp & _ & _ & _ & _ & _ & _ & _ & _ & Lr).
  assert (Hlen4 : (length (pending (net w4)) <= length (pending (net w)))%nat).
  { rewrite Lp, length_drop, Hn2. lia. }
  destruct res4 as [e|written]; cbn [fst snd].
  - split; [|exact Hlen4].
    match type of Lr with context [if ?b then _ else _] => destruct b end;
      [discriminate Lr|].
    destruct (ending (net w2)); [discriminate Lr|]. injection Lr as ->. discriminate.
  - unfold log_emit, ret. cbn. split; [discriminate | exact Hlen4].
Qed.

Section ExecutorFacts.

Variable sha256_hex : bytes -> string.
Variable json_encode : json -> bytes.
Variable json_decode : bytes -> option json.
Variable py_str_other : json -> string.

(** A message that arrives takes at least its four length bytes with it. *)
Lemma recv_json_consumes w :
  (recv_json json_decode w).1 <> inl LoopBudget /\
  (forall v, (recv_json json_decode w).1 = inr v ->
             (length (pending (net (recv_json json_decode w).2)) < length (pending (net w)))%nat).
Proof.
  pose proof (recv_json_spec json_decode w) as (_ & Hres & _). cbn zeta in Hres.
  split.
  - rewrite Hres. destruct (pending (net w)); destruct (ending (net w));
      try discriminate; unfold decoded;
      repeat match goal with
             | |- context [if ?b then _ else _] => destruct b
             | |- context [json_decode ?x] => destruct (json_decode x)
             end; discriminate.
  - intros v Hv. rewrite Hres in Hv.
    unfold recv_json, bind in *.
    pose proof (recvall_spec 4 w) as [_ H1]. cbn zeta in H1.
    change (N.to_nat 4) with 4%nat in H1.
    destruct (recvall 4 w) as [r1 w1]. cbn [fst snd] in *.
    destruct (Nat.leb_spec 4 (length (pending (net w)))) as [Hlen|Hlen].
    2:{ exfalso. destruct (pending (net w)); destruct (ending (net w)); discriminate Hv. }
    destruct H1 as [-> Hp1].
    assert (Hl4 : length (take 4 (pending (net w))) = 4%nat) by (rewrite length_take; lia).
    destruct (take 4 (pending (net w))) as [|t0 t] eqn:Ht; [discriminate|].
    rewrite <- Ht in *. unfold struct_unpack. rewrite Hl4. cbn [Nat.eqb ret].
    pose proof (recvall_spec (be_value (take 4 (pending (net w)))) w1) as [_ H2].
    cbn zeta in H2.
    destruct (recvall (be_value (take 4 (pending (net w)))) w1) as [r2 w2]. cbn [fst snd] in *.
    assert (Hlen2 : (length (pending (net w2)) <= length (pending (net w1)))%nat).
    { match type of H2 with (if ?b then _ else _) => destruct b end.
      - destruct H2 as [_ ->]. rewrite length_drop. lia.
      - destruct H2 as [-> _]. simpl. lia. }
    assert (Hlen1 : (length (pending (net w1)) < length (pending (net w)))%nat).
    { rewrite Hp1, length_drop. lia. }
    destruct r2 as [e|data]; cbn [fst snd]; [lia|].
    destruct (json_decode data); cbn; lia.
Qed.

Lemma msg_item_errors msg k e :
  msg_item msg k = inl e -> e = KeyError \/ e = TypeError.
Proof.
  unfold msg_item. destruct msg; try (intros [= <-]; auto).
  destruct (dict_get k members); [discriminate | intros [= <-]; auto].
Qed.

Lemma file_header_errors self dbk msg e :
  file_header py_str_other self dbk msg = inl e -> e = KeyError \/ e = TypeError.
Proof.
  unfold file_header, bindR.
  destruct (msg_item msg "rel_folder") as [e1|rel] eqn:H1;
    [intros [= <-]; eapply msg_item_errors, H1|].
  destruct (msg_item msg "name") as [e2|nm] eqn:H2;
    [intros [= <-]; eapply msg_item_errors, H2|].
  destruct (msg_item msg "size") as [e3|sz] eqn:H3;
    [intros [= <-]; eapply msg_item_errors, H3|].
  destruct (index_get _ _); [|intros [= <-]; auto].
  destruct (get_folder_target_of self rel) as [e4|fb] eqn:H4; [|discriminate].
  intros [= <-]. unfold get_folder_target_of in H4.
  destruct rel; try discriminate H4; injection H4 as <-; auto.
Qed.

Lemma receive_one_spec name size d target st w :
  let r := receive_one name size d target st w in
  r.1.2.*1 = st.*1 /\ r.1.1 <> Some LoopBudget /\
  (length (pending (net r.2)) <= length (pending (net w)))%nat.
Proof.
  cbn zeta. unfold receive_one.
  pose proof (recv_file_consumes target w) as (Hb & Hlen).
  destruct (recv_file target w) as [[e|v] w1]; cbn [fst snd] in *.
  - repeat split; [|exact Hlen]. intros [= ->]. apply Hb. reflexivity.
  - destruct (as_number size) as [e|sz] eqn:Hsz; cbn [fst snd].
    + split; [destruct d; apply stats_add_keys|]. split; [|exact Hlen].
      destruct size; cbn in Hsz; try discriminate Hsz; injection Hsz as <-; discriminate.
    + split; [|split; [discriminate | exact Hlen]].
      rewrite !stats_add_keys. destruct d; apply stats_add_keys.
Qed.

(** The receiving loop keeps the keys of the statistics and stays within the
    budget [synchronize] gives it. *)
Lemma receive_loop_spec self dbk budget : forall st w,
  (length (pending (net w)) < budget)%nat ->
  let r := receive_loop json_decode py_str_other budget self dbk st w in
  r.1.2.*1 = st.*1 /\ r.1.1 <> Some LoopBudget.
Proof.
  induction budget as [|budget IH]; intros st w Hb; [lia|].
  cbn zeta. cbn [receive_loop].
  pose proof (recv_json_consumes w) as (Hnb & Hcons).
  destruct (recv_json json_decode w) as [[e|msg] w1]; cbn [fst snd] in *.
  - split; [reflexivity|]. intros [= ->]. apply Hnb. reflexivity.
  - specialize (Hcons msg eq_refl).
    assert (Hb1 : (length (pending (net w1)) < budget)%nat) by lia.
    destruct (msg_get msg "action") as [e|action] eqn:Hget.
    { split; [reflexivity|]. unfold msg_get in Hget.
      destruct msg; try (injection Hget as <-; discriminate); discriminate Hget. }
    assert (Hskip : let r := receive_loop json_decode py_str_other budget self dbk st w1 in
                    r.1.2.*1 = st.*1 /\ r.1.1 <> Some LoopBudget) by (apply IH, Hb1).
    assert (Hfile :
      let r := match file_header py_str_other self dbk msg with
               | inl e => ((Some e, st), w1)
               | inr (name, size, dest_base, target) =>
                   match receive_one name size dest_base target st w1 with
                   | ((None, st'), w2) =>
                       receive_loop json_decode py_str_other budget self dbk st' w2
                   | stopped => stopped
                   end
               end in
      r.1.2.*1 = st.*1 /\ r.1.1 <> Some LoopBudget).
    { cbn zeta. destruct (file_header py_str_other self dbk msg) as [e|[[[name size] d] target]] eqn:Hh.
      - split; [reflexivity|]. cbn. intros [= ->].
        apply file_header_errors in Hh as [Hh|Hh]; discriminate Hh.
      - pose proof (receive_one_spec name size d target st w1) as (Hk & Hnb1 & Hlen1).
        cbn zeta in *.
        destruct (receive_one name size d target st w1) as [[[e|] st'] w2]; cbn [fst snd] in *.
        + split; [exact Hk | exact Hnb1].
        + rewrite <- Hk. apply IH. lia. }
    repeat match goal with
           | |- context [match ?x with _ => _ end] =>
               match x with
               | file_header _ _ _ _ => fail 1
               | receive_one _ _ _ _ _ _ => fail 1
               | _ => destruct x
               end
           end;
      first [exact Hskip | exact Hfile | (split; [reflexivity | discriminate])].
Qed.

Lemma classify_file_action_errors self fs e d x :
  _classify_file_action sha256_hex self fs e d = inl x -> x = IsADirectoryError.
Proof.
  unfold _classify_file_action, exists_, sha256_of_file, bindR.
  destruct (nodes fs !! _) as [[c m|]|]; [discriminate | intros [= <-]; reflexivity | discriminate].
Qed.

Lemma decide_entry_spec self fs r de :
  match decide_entry sha256_hex self fs r de with
  | inr r' => (counted r').*1 = (counted r).*1
  | inl x => x = IsADirectoryError \/ x = KeyError
  end.
Proof.
  unfold decide_entry, bindR.
  destruct (_classify_file_action sha256_hex self fs de.2 de.1) as [x|a] eqn:Ha.
  - left. eapply classify_file_action_errors, Ha.
  - destruct a; cbn; try destruct (index_get _ _); cbn; auto using stats_add_keys.
Qed.

Lemma decide_entries_spec self fs entries : forall r,
  match foldR (decide_entry sha256_hex self fs) entries r with
  | inr r' => (counted r').*1 = (counted r).*1
  | inl x => x = IsADirectoryError \/ x = KeyError
  end.
Proof.
  induction entries as [|de entries IH]; intros r; cbn [foldR]; [reflexivity|].
  unfold bindR. pose proof (decide_entry_spec self fs r de) as H1.
  destruct (decide_entry sha256_hex self fs r de) as [x|r1]; [exact H1|].
  specialize (IH r1). destruct (foldR _ entries r1); [exact IH | congruence].
Qed.

(** C9: without a socket, [synchronize] logs that it is not connected and
    returns the three keys "files", "bytes" and "seconds", all zero, leaving
    the connection, the disk and the client as they were; with a socket it
    either returns statistics under the ten keys of the full record, or raises
    before anything was sent or written because a directory sits at a target
    or a selected entry is missing from the manifest. *)
Theorem synchronize_not_connected_shape self selected_keys w :
  (_sock self = None ->
   synchronize sha256_hex json_encode json_decode py_str_other self selected_keys w =
     (inr ([("files", 0); ("bytes", 0); ("seconds", 0)]%Z, self),
      World (net w) (disk w) (logged w ++ [LogNotConnected]) (clock w) (ui w) (chunks w))) /\
  (_sock self <> None ->
   match (synchronize sha256_hex json_encode json_decode py_str_other self selected_keys w).1 with
   | inr (st, _) => st.*1 = full_stats_keys
   | inl e =>
       (e = IsADirectoryError \/ e = KeyError) /\
       (synchronize sha256_hex json_encode json_decode py_str_other self selected_keys w).2 = w
   end) /\
  full_stats_keys <> ["files"; "bytes"; "seconds"].
Proof.
  split; [|split; [|discriminate]].
  - intros Hs. unfold synchronize. rewrite Hs. reflexivity.
  - intros Hs.
    destruct (synchronize sha256_hex json_encode json_decode py_str_other self selected_keys w)
      as [res w'] eqn:Hrun.
    cbn [fst snd]. unfold synchronize in Hrun.
    destruct (_sock self) as [sock|]; [clear Hs | congruence].
    unfold bind at 1 in Hrun. unfold read_disk in Hrun.
    pose proof (decide_entries_spec self (disk w)
                  (_expand_selection_to_file_entries self selected_keys)
                  {| request_files := []; action_by_key := []; dest_by_key := [];
                     counted := initial_stats
                                  (length (_expand_selection_to_file_entries self selected_keys)) |})
      as Hdec.
    destruct (foldR _ _ _) as [x|r]; [injection Hrun as <- <-; split; [exact Hdec | reflexivity]|].
    cbn [counted] in Hdec.
    unfold bind, time_time in Hrun.
    assert (Hst : (stats_set "to_transfer" (Z.of_nat (length (request_files r))) (counted r)).*1
                  = full_stats_keys) by (rewrite stats_set_keys, Hdec; reflexivity).
    destruct (request_files r) as [|rf rfs] eqn:Hrf; [injection Hrun as <- _; exact Hst|].
    unfold request_and_receive in Hrun.
    match type of Hrun with
    | context [send_json json_encode ?obj ?w0] =>
        destruct (send_json json_encode obj w0) as [[e|[]] w1] eqn:Hsend
    end.
    + assert (He : e = StructError).
      { unfold send_json, struct_pack, bind, raise, sendall, ret in Hsend.
        destruct (_ <? _)%N; [discriminate Hsend | injection Hsend as <- _; reflexivity]. }
      subst e. cbn in Hrun. injection Hrun as <- _. rewrite stats_set_keys. exact Hst.
    + match type of Hrun with
      | context [receive_loop json_decode py_str_other ?b self ?dbk ?st ?w0] =>
          pose proof (receive_loop_spec self dbk b st w0 ltac:(lia)) as (Hk & Hnb);
          destruct (receive_loop json_decode py_str_other b self dbk st w0) as [[stopped st'] w2]
      end.
      cbn [fst snd] in *.
      destruct stopped as [e|]; [destruct e; try contradiction|];
        cbn in Hrun; injection Hrun as <- _; rewrite stats_set_keys, Hk; exact Hst.
Qed.

End ExecutorFacts.










(** C3, as stated, fails: five bytes are declared, two arrive, the call
    returns None and not the count of two; the count is in the file's length
    and in the log. *)
Lemma recv_file_returns_no_count :
  (recv_file example_dest short_transfer).1 = inr PyNone /\
  nodes (disk (recv_file example_dest short_transfer).2) !! example_dest =
    Some (File ["a"%byte; "b"%byte] 7) /\
  logged (recv_file example_dest short_transfer).2 = [LogFileReceived example_dest 2] /\
  PyNone <> PyInt 2.
Proof. repeat split; try (vm_compute; reflexivity). discriminate. Qed.

Lemma recv_file_short_transfer_returns_none_witness :
  (8 <= length (pending (net short_transfer)))%nat /\
  exists w',
    recv_file example_dest short_transfer = (inr PyNone, w') /\
    nodes (disk w') !! example_dest = Some (File ["a"%byte; "b"%byte] 7) /\
    logged w' = [LogFileReceived example_dest 2].
Proof.
  split; [vm_compute; lia|].
  destruct (recv_file_short_transfer_returns_none example_dest short_transfer)
    as (w' & Hrun & Hfile & _ & _ & Hlog & _).
  - vm_compute. lia.
  - intros _. reflexivity.
  - intros k Hk. vm_compute in Hk.
    destruct k as [|[|[|[|k]]]]; try lia; vm_compute; reflexivity.
  - vm_compute. reflexivity.
  - vm_compute. set_solver.
  - exists w'. split; [exact Hrun|]. split; [exact Hfile | exact Hlog].
Defined.

Lemma recv_file_at_most_declared_size_witness :
  exists v w',
    recv_file example_dest short_transfer = (inr v, w') /\
    exists data t sizes,
      nodes (disk w') !! example_dest = Some (File data t) /\
      data = take (N.to_nat (be_value (take 8 (pending (net short_transfer)))))
                  (drop 8 (pending (net short_transfer))) /\
      (len data <= be_value (take 8 (pending (net short_transfer))))%N /\
      pending (net w') = drop (length data) (drop 8 (pending (net short_transfer))) /\
      chunks w' = chunks short_transfer ++ sizes /\
      fold_right N.add 0%N sizes = len data.
Proof.
  eexists _, _. split; [vm_compute; reflexivity|].
  eapply (recv_file_at_most_declared_size example_dest short_transfer).
  vm_compute. reflexivity.
Defined.

Example example_plan_actions :
  match build_plan example_digest (example_client None) example_disk with
  | inr plan => map (fun it => (key it, act it, lvl it)) plan
  | inl _ => []
  end =
  [("42", NEW, folder); ("42/readme.txt", SAME, file); ("42/new.crp", NEW, file);
   ("7", UPDATE, folder); ("7/mod.dll", UPDATE, file);
   ("(delete)/99", DELETE, folder); ("(delete)/99/gone.crp", DELETE, file)].
Proof. vm_compute. reflexivity. Qed.

Example example_synchronize_stats :
  (synchronize example_digest example_encode (example_decode [file_message; done_message])
     example_str (example_client (Some Sock)) ["42"] example_session).1 =
  inr ([("selected_total", 2); ("to_transfer", 1); ("transferred_files", 1); ("bytes", 3);
        ("seconds", 4); ("new_count", 1); ("update_count", 0); ("same_count", 1);
        ("assets_files", 1); ("mods_files", 0)]%Z,
       example_client (Some Sock)).
Proof. vm_compute. reflexivity. Qed.

Lemma build_plan_file_actions_witness :
  exists plan,
    build_plan example_digest (example_client None) example_disk = inr plan /\
    forall it, it ∈ plan -> lvl it = file -> act it <> DELETE ->
      (act it = SAME <->
         exists c m, nodes example_disk !! target it = Some (File c m) /\
                     example_digest c = sha256 (entry it)) /\
      (act it = NEW <-> nodes example_disk !! target it = None).
Proof.
  eexists. split; [vm_compute; reflexivity|].
  intros it Hin Hlvl Hact.
  destruct (build_plan_file_actions example_digest (example_client None) example_disk _
              ltac:(vm_compute; reflexivity)) as [_ H].
  destruct (H it Hin Hlvl Hact) as (_ & _ & Hsame & _ & Hnew).
  split; assumption.
Defined.

Lemma build_plan_folder_actions_witness :
  exists plan it,
    build_plan example_digest (example_client None) example_disk = inr plan /\
    it ∈ plan /\ lvl it = folder /\ key it = "7" /\ act it = UPDATE /\
    exists c, c ∈ plan /\ lvl c = file /\ rel_folder (entry c) = "7" /\ act c = UPDATE.
Proof.
  eexists. eexists (Build_PlanItem "7" (folder_entry "7") ["<Mods>"; "7"] UPDATE folder).
  split; [vm_compute; reflexivity|].
  assert (Hin : Build_PlanItem "7" (folder_entry "7") ["<Mods>"; "7"] UPDATE folder ∈
                match build_plan example_digest (example_client None) example_disk with
                | inr plan => plan
                | inl _ => []
                end).
  { vm_compute. do 3 right. left. }
  split; [exact Hin|]. split; [reflexivity|]. split; [reflexivity|]. split; [reflexivity|].
  destruct (build_plan_folder_actions example_digest (example_client None) example_disk _ _
              ltac:(vm_compute; reflexivity) Hin eq_refl) as [[Hd _]|(_ & _ & (c & Hc) & _)].
  - discriminate Hd.
  - exists {| key := "7/mod.dll";
              entry := {| rel_folder := "7"; name := "mod.dll"; size := 3; mtime := 3;
                          sha256 := "new"; kind := "dll" |};
              target := ["home"; "Mods"; "7"; "mod.dll"]; act := UPDATE; lvl := file |}.
    split; [vm_compute; do 4 right; left | auto].
Defined.

Lemma build_plan_delete_candidates_witness :
  exists plan,
    build_plan example_digest (example_client None) example_disk = inr plan /\
    forall a b, a ∈ plan -> b ∈ plan -> act a = DELETE -> act b <> DELETE ->
      rel_folder (entry a) <> rel_folder (entry b) /\ key a <> key b.
Proof.
  eexists. split; [vm_compute; reflexivity|].
  intros a b Ha Hb Hda Hnb.
  destruct (build_plan_delete_candidates example_digest (example_client None) example_disk _
              ltac:(vm_compute; reflexivity)) as (_ & _ & _ & Hids & Hkeys).
  split; [apply (Hids a b Ha Hb Hda Hnb)|].
  apply (Hkeys ltac:(intros k e Hin; vm_compute in Hin;
                     repeat (apply elem_of_cons in Hin as [[= -> ->]|Hin]; [reflexivity|]);
                     inversion Hin) a b Ha Hb Hda Hnb).
Defined.

Lemma synchronize_not_connected_shape_witness :
  _sock (example_client (Some Sock)) <> None /\
  match (synchronize example_digest example_encode
           (example_decode [file_message; done_message]) example_str
           (example_client (Some Sock)) ["42"] example_session).1 with
  | inr (st, _) => st.*1 = full_stats_keys
  | inl e =>
      (e = IsADirectoryError \/ e = KeyError) /\
      (synchronize example_digest example_encode
         (example_decode [file_message; done_message]) example_str
         (example_client (Some Sock)) ["42"] example_session).2 = example_session
  end.
Proof.
  split; [discriminate|].
  apply (synchronize_not_connected_shape example_digest example_encode
           (example_decode [file_message; done_message]) example_str
           (example_client (Some Sock)) ["42"] example_session).
  discriminate.
Defined.


Lemma classify_cases files :
  let has k := Exists (fun f => kind f = k) files in
  (classify files = cls_mixed <-> has "crp" /\ has "dll") /\
  (classify files = cls_mods <-> has "dll" /\ ~ has "crp") /\
  (classify files = cls_assets <-> ~ has "dll").
Proof.
  cbn zeta. unfold classify.
  pose proof (existsb_kind_Exists "crp" files) as Hc.
  pose proof (existsb_kind_Exists "dll" files) as Hd.
  destruct (existsb (fun f => String.eqb (kind f) "crp") files);
    destruct (existsb (fun f => String.eqb (kind f) "dll") files); cbn;
    naive_solver.
Qed.

Lemma folder_class_lookup self gid :
  _folder_class (_classify_folders self) !! gid =
    match folder_files gid (_index self).*2 with
    | [] => None
    | files => Some (classify files)
    end.
Proof.
  unfold _classify_folders. cbn [_folder_class].
  rewrite classify_fold_lookup by apply group_index_NoDup.
  rewrite group_index_get, lookup_empty.
  destruct (folder_files gid (_index self).*2); reflexivity.
Qed.

(** X1: where a folder goes once the manifest is classified.  A folder goes to
    the mods root exactly when it is overridden to mods, or is not overridden
    and the manifest has a DLL entry and no CRP entry for it; every other
    folder, a mixed one and one the manifest does not know included, goes to
    the assets root unless it is overridden. *)
Theorem get_folder_target_after_classification self gid :
  let c := _classify_folders self in
  let files := folder_files gid (_index self).*2 in
  let has k := Exists (fun f => kind f = k) files in
  (get_folder_target c gid = mods <->
     _folder_override self !! gid = Some mods \/
     (_folder_override self !! gid = None /\ has "dll" /\ ~ has "crp")) /\
  (get_folder_target c gid = assets <->
     _folder_override self !! gid = Some assets \/
     (_folder_override self !! gid = None /\ (has "crp" \/ ~ has "dll"))).
Proof.
  cbn zeta. unfold get_folder_target. rewrite folder_class_lookup.
  change (_folder_override (_classify_folders self)) with (_folder_override self).
  destruct (_folder_override self !! gid) as [d|] eqn:Ho.
  - destruct d; naive_solver.
  - pose proof (classify_cases (folder_files gid (_index self).*2)) as (Hmix & Hmods & Hassets).
    cbn zeta in *.
    destruct (folder_files gid (_index self).*2) as [|f files] eqn:Hfiles.
    + cbn. split; split; auto.
      * discriminate.
      * intros [H|(_ & H & _)]; [discriminate | inversion H].
      * intros _. right. split; [reflexivity|]. right. intros H. inversion H.
    + cbn [default from_option id].
      destruct (classify (f :: files)) eqn:Hc.
      * split; split; try discriminate; auto.
        -- intros [H|(_ & Hd & Hn)]; [discriminate|].
           exfalso. apply (proj1 Hassets); auto.
        -- intros _. right. split; [reflexivity|]. right. apply Hassets. reflexivity.
      * split; split; try discriminate; auto.
        -- intros _. right. split; [reflexivity|]. apply Hmods. reflexivity.
        -- intros [H|(_ & [Hcrp|Hnd])]; [discriminate| |];
             exfalso; destruct (proj1 Hmods eq_refl); auto.
      * split; split; try discriminate; auto.
        -- intros [H|(_ & Hd & Hn)]; [discriminate|].
           exfalso. destruct (proj1 Hmix eq_refl); auto.
        -- intros _. right. split; [reflexivity|]. left. apply Hmix. reflexivity.
Qed.

(** X2: [mixed_folders] lists, each once, exactly the folder IDs for which the
    manifest has both a CRP entry and a DLL entry. *)
Theorem mixed_folders_spec self :
  NoDup (mixed_folders (_classify_folders self)) /\
  forall gid,
    gid ∈ mixed_folders (_classify_folders self) <->
    Exists (fun f => kind f = "crp") (folder_files gid (_index self).*2) /\
    Exists (fun f => kind f = "dll") (folder_files gid (_index self).*2).
Proof.
  unfold mixed_folders. split.
  - eapply NoDup_fmap_fst; [|apply NoDup_filter, NoDup_map_to_list].
    intros k a b Ha Hb.
    apply list_elem_of_filter in Ha as [_ Ha]. apply list_elem_of_filter in Hb as [_ Hb].
    apply elem_of_map_to_list in Ha, Hb. congruence.
  - intros gid. rewrite list_elem_of_fmap.
    pose proof (classify_cases (folder_files gid (_index self).*2)) as (Hmix & _).
    cbn zeta in Hmix. rewrite <- Hmix. split.
    + intros ([g c] & -> & Hin). apply list_elem_of_filter in Hin as [Hc Hin].
      cbn in Hc. subst c. apply elem_of_map_to_list in Hin.
      rewrite folder_class_lookup in Hin. cbn.
      destruct (folder_files g (_index self).*2); [discriminate | congruence].
    + intros Hc. exists (gid, cls_mixed). split; [reflexivity|].
      apply list_elem_of_filter. split; [reflexivity|].
      apply elem_of_map_to_list. rewrite folder_class_lookup.
      destruct (folder_files gid (_index self).*2) eqn:Hf; [|congruence].
      cbn in Hc. discriminate.
Qed.




Section PlanErrors.

Variable sha256_hex : bytes -> string.
Variable self : SyncClient.
Variable fs : filesystem.

Abbreviation target_at e :=
  (build_client_target e (assets_path self) (mods_path self)
     (get_folder_target self (rel_folder e))).











End PlanErrors.

Section OverrideFacts.

Variable sha256_hex : bytes -> string.

Lemma kept_item_from_group self fs plan it :
  build_plan sha256_hex self fs = inr plan ->
  it ∈ plan -> act it <> DELETE -> lvl it = file ->
  entry it ∈ (_index self).*2 /\
  target it = build_client_target (entry it) (assets_path self) (mods_path self)
                (get_folder_target self (rel_folder (entry it))).
Proof.
  intros Hplan Hin Hact Hlvl.
  apply (elem_of_plan sha256_hex self fs plan it Hplan) in Hin
    as [(gid & files & items & Hg & Hpg & Hit)|(gid & ia & im & _ & _ & _ & _ & Hit)].
  - apply plan_group_inv in Hpg as (kids & -> & Hkids).
    apply elem_of_cons in Hit as [->|Hit]; [discriminate Hlvl|].
    destruct (kid_spec sha256_hex self fs gid files kids it Hg Hkids Hit)
      as (_ & _ & Hidx & _ & Ht & _).
    split; assumption.
  - apply delete_items_spec in Hit as (Hd & _). contradiction.
Qed.

(** X4: an override decides where the planner looks.  In a plan built after
    [set_folder_override self gid d], every file-level item of folder [gid]
    that is no deletion has its target under the root [d] names, whatever the
    classification of the folder; the items of every other folder have the
    target they have without the override. *)
Theorem set_folder_override_redirects_plan self fs gid d plan :
  build_plan sha256_hex (set_folder_override self gid d) fs = inr plan ->
  forall it, it ∈ plan -> lvl it = file -> act it <> DELETE ->
    (rel_folder (entry it) = gid ->
     target it = pjoin (pjoin (match d with
                               | assets => assets_path self
                               | mods => mods_path self
                               end) gid) (name (entry it))) /\
    (rel_folder (entry it) <> gid ->
     target it = build_client_target (entry it) (assets_path self) (mods_path self)
                   (get_folder_target self (rel_folder (entry it)))).
Proof.
  intros Hplan it Hin Hlvl Hact.
  destruct (kept_item_from_group _ _ _ _ Hplan Hin Hact Hlvl) as [_ Ht].
  cbn [assets_path mods_path set_folder_override] in Ht.
  unfold get_folder_target in Ht. cbn [_folder_override _folder_class set_folder_override] in Ht.
  split.
  - intros Hg. rewrite Hg, lookup_insert_eq in Ht. rewrite Ht.
    unfold build_client_target. rewrite Hg. reflexivity.
  - intros Hg. rewrite lookup_insert_ne in Ht by congruence. exact Ht.
Qed.

End OverrideFacts.

(** ** The selection *)

Lemma dedupe_spec out : forall seen : gset string,
  let result := dedupe seen out in
  NoDup (map (fun de : dest * FileEntry => entry_key de.2) result) /\
  (forall de, de ∈ result -> de ∈ out /\ entry_key de.2 ∉ seen) /\
  (forall de, de ∈ out -> entry_key de.2 ∉ seen ->
     exists de', de' ∈ result /\ entry_key de'.2 = entry_key de.2).
Proof.
  induction out as [|[d e] out IH]; intros seen; cbn.
  - split; [constructor|]. split; intros de H; inversion H.
  - destruct (decide (entry_key e ∈ seen)) as [Hs|Hs].
    + destruct (IH seen) as (Hnd & Hsub & Hall). split; [exact Hnd|]. split.
      * intros de Hde. destruct (Hsub de Hde). split; [right|]; assumption.
      * intros de Hde Hns. apply elem_of_cons in Hde as [->|Hde]; [contradiction|].
        apply Hall; assumption.
    + destruct (IH (seen ∪ {[entry_key e]})) as (Hnd & Hsub & Hall). split; [|split].
      * cbn. constructor; [|exact Hnd].
        intros Hin. apply list_elem_of_fmap in Hin as (de & Heq & Hde).
        destruct (Hsub de Hde) as [_ Hns]. apply Hns. rewrite <- Heq. set_solver.
      * intros de Hde. apply elem_of_cons in Hde as [->|Hde].
        -- split; [left | exact Hs].
        -- destruct (Hsub de Hde) as [Hin Hns]. split; [right; exact Hin | set_solver].
      * intros de Hde Hns. apply elem_of_cons in Hde as [->|Hde].
        -- exists (d, e). split; [left | reflexivity].
        -- destruct (decide (entry_key de.2 = entry_key e)) as [Heq|Hne].
           ++ exists (d, e). split; [left | symmetry; exact Heq].
           ++ destruct (Hall de Hde) as (de' & Hin' & Heq'); [set_solver|].
              exists de'. split; [right; exact Hin' | exact Heq'].
Qed.

Lemma index_get_elem k e (index : list (string * FileEntry)) :
  index_get k index = Some e -> (k, e) ∈ index.
Proof.
  induction index as [|[k' e'] index IH]; cbn; [discriminate|].
  destruct (String.eqb k' k) eqn:Hk.
  - intros [= ->]. apply eqb_string_eq in Hk. subst. left.
  - intros H. right. apply IH, H.
Qed.

Lemma startswith_inv pre : forall k,
  startswith pre k = true -> exists rest, k = pre +:+ rest.
Proof.
  unfold startswith. induction pre as [|c pre IH]; intros k.
  - intros _. exists k. reflexivity.
  - destruct k as [|c' k]; cbn [String.prefix]; [discriminate|].
    destruct (Ascii.ascii_dec c c') as [<-|]; [|discriminate].
    intros H. destruct (IH k H) as [rest ->]. exists rest. reflexivity.
Qed.

Lemma has_slash_delete_prefix k : startswith "(delete)/" k = true -> has_slash k = true.
Proof. intros H. apply startswith_inv in H as [rest ->]. reflexivity. Qed.

(** X5: what a selection expands to.  The result holds no entry key twice
    and only entries of the manifest; each comes from a selected folder ID, with
    the folder's destination, or from a selected file key the manifest has;
    every entry of a selected folder and the entry of every selected file key
    of the manifest is represented; and keys that start with "(delete)/"
    select nothing. *)
Theorem expand_selection_spec self selected_keys :
  let result := _expand_selection_to_file_entries self selected_keys in
  NoDup (map (fun de : dest * FileEntry => entry_key de.2) result) /\
  (forall d e, (d, e) ∈ result ->
     e ∈ (_index self).*2 /\
     ((rel_folder e ∈ selected_keys /\ has_slash (rel_folder e) = false /\
       d = get_folder_target self (rel_folder e)) \/
      (exists k, k ∈ selected_keys /\ has_slash k = true /\
                 startswith "(delete)/" k = false /\
                 index_get k (_index self) = Some e /\
                 d = get_folder_target self (split_once k).1))) /\
  (forall gid e, gid ∈ selected_keys -> has_slash gid = false ->
     e ∈ (_index self).*2 -> rel_folder e = gid ->
     exists d e', (d, e') ∈ result /\ entry_key e' = entry_key e) /\
  (forall k e, k ∈ selected_keys -> has_slash k = true ->
     startswith "(delete)/" k = false -> index_get k (_index self) = Some e ->
     exists d e', (d, e') ∈ result /\ entry_key e' = entry_key e) /\
  ((forall k, k ∈ selected_keys -> startswith "(delete)/" k = true) -> result = []).
Proof.
  cbn zeta. unfold _expand_selection_to_file_entries.
  set (from_folders := flat_map _ (elements (filter _ (list_to_set selected_keys)))).
  set (from_files := flat_map _ (elements (list_to_set selected_keys : gset string))).
  destruct (dedupe_spec (from_folders ++ from_files) ∅) as (Hnd & Hsub & Hall).
  cbn zeta in *.
  assert (Hfold : forall d e, (d, e) ∈ from_folders <->
            rel_folder e ∈ selected_keys /\ has_slash (rel_folder e) = false /\
            d = get_folder_target self (rel_folder e) /\ e ∈ (_index self).*2).
  { intros d e. unfold from_folders. rewrite list_elem_of_In, in_flat_map. split.
    - intros (gid & Hgid & Hin). apply list_elem_of_In in Hgid, Hin.
      apply elem_of_elements, elem_of_filter in Hgid as [Hcond Hsel].
      apply elem_of_list_to_set in Hsel.
      apply list_elem_of_fmap in Hin as (e' & [= -> ->] & He').
      destruct (groups_get gid (_group_index self)) as [files|] eqn:Hg;
        [|inversion He'].
      cbn in He'. apply (groups_get_files self _ _ Hg) in He' as [Hrel Hidx].
      rewrite Hrel. apply Is_true_true, andb_true_iff in Hcond as [Hns _].
      apply negb_true_iff in Hns. auto.
    - intros (Hsel & Hns & -> & Hidx). exists (rel_folder e). split.
      + apply list_elem_of_In, elem_of_elements, elem_of_filter. split.
        * apply Is_true_true. rewrite Hns. cbn.
          destruct (startswith "(delete)/" (rel_folder e)) eqn:Hp; [|reflexivity].
          apply has_slash_delete_prefix in Hp. congruence.
        * apply elem_of_list_to_set, Hsel.
      + apply list_elem_of_In, list_elem_of_fmap. exists e. split; [reflexivity|].
        destruct (groups_get (rel_folder e) (_group_index self)) as [files|] eqn:Hg.
        * cbn. apply (groups_get_files self _ _ Hg). auto.
        * exfalso. rewrite group_index_get in Hg.
          assert (Hin : e ∈ folder_files (rel_folder e) (_index self).*2)
            by (apply elem_of_folder_files; auto).
          destruct (folder_files (rel_folder e) (_index self).*2);
            [inversion Hin | discriminate]. }
  assert (Hfile : forall d e, (d, e) ∈ from_files <->
            exists k, k ∈ selected_keys /\ has_slash k = true /\
                      startswith "(delete)/" k = false /\
                      index_get k (_index self) = Some e /\
                      d = get_folder_target self (split_once k).1).
  { intros d e. unfold from_files. rewrite list_elem_of_In, in_flat_map. split.
    - intros (k & Hk & Hin). apply list_elem_of_In in Hk, Hin.
      apply elem_of_elements, elem_of_list_to_set in Hk.
      destruct (has_slash k) eqn:Hs; [|inversion Hin].
      destruct (startswith "(delete)/" k) eqn:Hp; [inversion Hin|]. cbn in Hin.
      destruct (index_get k (_index self)) as [e'|] eqn:Hi; [|inversion Hin].
      apply list_elem_of_singleton in Hin as [= -> ->].
      exists k. auto.
    - intros (k & Hk & Hs & Hp & Hi & ->). exists k. split.
      + apply list_elem_of_In, elem_of_elements, elem_of_list_to_set, Hk.
      + rewrite Hs, Hp, Hi. cbn. left. reflexivity. }
  split; [exact Hnd|]. split; [|split; [|split]].
  - intros d e Hin. destruct (Hsub _ Hin) as [Hout _].
    apply elem_of_app in Hout as [Hout|Hout].
    + apply Hfold in Hout as (Hsel & Hns & Hd & Hidx). split; [exact Hidx|]. left. auto.
    + apply Hfile in Hout as (k & Hk & Hs & Hp & Hi & Hd). split.
      * apply list_elem_of_fmap. exists (k, e). split; [reflexivity|].
        apply index_get_elem, Hi.
      * right. exists k. auto.
  - intros gid e Hsel Hns Hidx Hrel. subst gid.
    destruct (Hall (get_folder_target self (rel_folder e), e)) as ([d e'] & Hin & Heq).
    + apply elem_of_app. left. apply Hfold. auto.
    + set_solver.
    + exists d, e'. auto.
  - intros k e Hk Hs Hp Hi.
    destruct (Hall (get_folder_target self (split_once k).1, e)) as ([d e'] & Hin & Heq).
    + apply elem_of_app. right. apply Hfile. exists k. auto.
    + set_solver.
    + exists d, e'. auto.
  - intros Hdel.
    destruct (dedupe ∅ (from_folders ++ from_files)) as [|[d e] rest] eqn:Hres; [reflexivity|].
    exfalso. destruct (Hsub (d, e)) as [Hout _]; [left|].
    apply elem_of_app in Hout as [Hout|Hout].
    + apply Hfold in Hout as (Hsel & Hns & _). apply Hdel in Hsel.
      apply has_slash_delete_prefix in Hsel. congruence.
    + apply Hfile in Hout as (k & Hk & _ & Hp & _). apply Hdel in Hk. congruence.
Qed.

Lemma split_once_some s h t : split_once s = (h, Some t) -> s = h +:+ "/" +:+ t.
Proof.
  revert h. induction s as [|c s IH]; intros h; cbn; [discriminate|].
  destruct (Ascii.eqb c slash) eqn:Hc.
  - intros [= <- <-]. apply Ascii.eqb_eq in Hc. subst c. reflexivity.
  - destruct (split_once s) as [h' t'] eqn:Hs. intros [= <- ->].
    rewrite (IH h' eq_refl). reflexivity.
Qed.

Lemma split_once_none s h : split_once s = (h, None) -> h = s.
Proof.
  revert h. induction s as [|c s IH]; intros h; cbn.
  - intros [= <-]. reflexivity.
  - destruct (Ascii.eqb c slash); [discriminate|].
    destruct (split_once s) as [h' t'] eqn:Hs. intros [= <- ->].
    rewrite (IH h' eq_refl). reflexivity.
Qed.

Lemma split_once_app_slash h t :
  has_slash h = false -> split_once (h +:+ "/" +:+ t) = (h, Some t).
Proof.
  unfold has_slash. change ("/" +:+ t) with (String slash t).
  induction h as [|c h IH].
  { reflexivity. }
  change (String c h +:+ String slash t) with (String c (h +:+ String slash t)).
  cbn [split_once].
  destruct (Ascii.eqb c slash); [discriminate|].
  destruct (split_once h) as [h' [t'|]] eqn:Hs; [discriminate|].
  intros _. rewrite IH by reflexivity. reflexivity.
Qed.

Lemma key_body_prefixed k : key_body ("(delete)/" +:+ k) = k.
Proof. unfold key_body. rewrite startswith_app. reflexivity. Qed.

Lemma key_body_bare k : startswith "(delete)/" k = false -> key_body k = k.
Proof. unfold key_body. intros ->. reflexivity. Qed.

Lemma key_body_cases k : k = key_body k \/ k = "(delete)/" +:+ key_body k.
Proof.
  unfold key_body. destruct (startswith "(delete)/" k) eqn:Hp; [|left; reflexivity].
  right. apply startswith_inv in Hp as [rest ->]. reflexivity.
Qed.

Lemma normalise_key_body acc k : normalise_key acc k = normalise_bare acc (key_body k).
Proof. unfold normalise_key, key_body. destruct (startswith _ k); reflexivity. Qed.

(** Where the IDs and the file targets of the normalised keys come from. *)
Lemma normalise_keys_inv keys : forall acc,
  let r := fold_left normalise_key keys acc in
  (forall gid, gid ∈ r.1 ->
     gid ∈ acc.1 \/ (isdigit gid = true /\ exists k, k ∈ keys /\ key_body k = gid)) /\
  (forall gid rel, (gid, rel) ∈ r.2 ->
     (gid, rel) ∈ acc.2 \/
     (isdigit gid = true /\ rel <> "" /\
      exists k, k ∈ keys /\ key_body k = gid +:+ "/" +:+ rel)).
Proof.
  induction keys as [|k keys IH]; intros acc; cbn.
  - split; auto.
  - destruct (IH (normalise_key acc k)) as [Hids Hfiles]. cbn zeta in *.
    rewrite normalise_key_body in *. unfold normalise_bare in *.
    destruct (split_once (key_body k)) as [h [t|]] eqn:Hs.
    + apply split_once_some in Hs.
      destruct (isdigit h && negb (String.eqb t "")) eqn:Hc.
      * apply andb_true_iff in Hc as [Hd Ht]. apply negb_true_iff, String.eqb_neq in Ht.
        split.
        -- intros gid Hg. destruct (Hids gid Hg) as [H|(Hdig & k' & Hk' & Hb)]; [left; exact H|].
           right. split; [exact Hdig|]. exists k'. split; [right|]; assumption.
        -- intros gid rel Hg.
           destruct (Hfiles gid rel Hg) as [H|(Hdig & Hrel & k' & Hk' & Hb)].
           ++ cbn in H. apply elem_of_app in H as [H|H]; [left; exact H|].
              apply list_elem_of_singleton in H as [= -> ->].
              right. split; [exact Hd|]. split; [exact Ht|]. exists k. split; [left | exact Hs].
           ++ right. split; [exact Hdig|]. split; [exact Hrel|].
              exists k'. split; [right|]; assumption.
      * split.
        -- intros gid Hg. destruct (Hids gid Hg) as [H|(Hdig & k' & Hk' & Hb)]; [left; exact H|].
           right. split; [exact Hdig|]. exists k'. split; [right|]; assumption.
        -- intros gid rel Hg.
           destruct (Hfiles gid rel Hg) as [H|(Hdig & Hrel & k' & Hk' & Hb)]; [left; exact H|].
           right. split; [exact Hdig|]. split; [exact Hrel|].
           exists k'. split; [right|]; assumption.
    + destruct (isdigit (key_body k)) eqn:Hd.
      * split.
        -- intros gid Hg. destruct (Hids gid Hg) as [H|(Hdig & k' & Hk' & Hb)].
           ++ cbn in H. apply elem_of_union in H as [H|H]; [left; exact H|].
              apply elem_of_singleton in H. subst gid.
              right. split; [exact Hd|]. exists k. split; [left | reflexivity].
           ++ right. split; [exact Hdig|]. exists k'. split; [right|]; assumption.
        -- intros gid rel Hg.
           destruct (Hfiles gid rel Hg) as [H|(Hdig & Hrel & k' & Hk' & Hb)]; [left; exact H|].
           right. split; [exact Hdig|]. split; [exact Hrel|].
           exists k'. split; [right|]; assumption.
      * split.
        -- intros gid Hg. destruct (Hids gid Hg) as [H|(Hdig & k' & Hk' & Hb)]; [left; exact H|].
           right. split; [exact Hdig|]. exists k'. split; [right|]; assumption.
        -- intros gid rel Hg.
           destruct (Hfiles gid rel Hg) as [H|(Hdig & Hrel & k' & Hk' & Hb)]; [left; exact H|].
           right. split; [exact Hdig|]. split; [exact Hrel|].
           exists k'. split; [right|]; assumption.
Qed.

Lemma removed_only_refl P w : removed_only P w w.
Proof.
  split; [apply only_deleted_refl|]. intros p [n Hn] H. congruence.
Qed.

Lemma removed_only_trans P w1 w2 w3 :
  removed_only P w1 w2 -> removed_only P w2 w3 -> removed_only P w1 w3.
Proof.
  intros [Ho1 H1] [Ho2 H2]. split; [eapply only_deleted_trans; eassumption|].
  intros p Hp Hgone.
  destruct (nodes (disk w2) !! p) as [n|] eqn:H2p.
  - apply H2; [eexists; exact H2p | exact Hgone].
  - apply H1; assumption.
Qed.

Lemma removed_only_impl (P Q : path -> Prop) w w' :
  (forall p, P p -> Q p) -> removed_only P w w' -> removed_only Q w w'.
Proof. intros HPQ [Ho H]. split; [exact Ho|]. intros p Hp Hg. apply HPQ, H; assumption. Qed.

Lemma removed_only_log P w r :
  removed_only P w (World (net w) (disk w) (logged w ++ [r]) (clock w) (ui w) (chunks w)).
Proof.
  split; [apply only_deleted_log|]. cbn. intros p [n Hn] H. congruence.
Qed.

Lemma removed_only_delete (P : path -> Prop) w w1 p r :
  only_deleted w w1 -> nodes (disk w1) = delete p (nodes (disk w)) -> P p ->
  removed_only P w (World (net w1) (disk w1) (logged w1 ++ [r]) (clock w1) (ui w1) (chunks w1)).
Proof.
  intros Hod Hnodes HP. split.
  - eapply only_deleted_trans; [exact Hod | apply only_deleted_log].
  - cbn. intros q [n Hq] Hgone. rewrite Hnodes in Hgone.
    destruct (decide (q = p)) as [->|Hne]; [exact HP|].
    rewrite lookup_delete_ne in Hgone by congruence. congruence.
Qed.

Lemma delete_one_removes n f w :
  exists n' w', delete_one n f w = (inr n', w') /\ removed_only (fun p => p = f) w w'.
Proof.
  unfold delete_one, bind, get_world.
  destruct (is_file (disk w) f) eqn:Hfile.
  2:{ exists n, w. split; [reflexivity | apply removed_only_refl]. }
  destruct (unlink_spec f w) as [(w1 & Hun & Hod & Hlog & _ & _ & Hnodes & _)|(e & Hun & He & Hl)].
  - exists (S n). eexists. split.
    + apply try_except_inr. unfold bind. rewrite Hun. cbn. reflexivity.
    + apply removed_only_delete with (p := f); auto.
  - exists n. eexists. split.
    + erewrite try_except_inl; [| unfold bind; rewrite Hun; reflexivity | exact He].
      cbn. reflexivity.
    + apply removed_only_log.
Qed.

Lemma foldM_delete_one_removes l : forall n w,
  exists n' w', foldM delete_one l n w = (inr n', w') /\ removed_only (fun p => p ∈ l) w w'.
Proof.
  induction l as [|f l IH]; intros n w; cbn.
  - exists n, w. split; [reflexivity | apply removed_only_refl].
  - unfold bind. destruct (delete_one_removes n f w) as (n1 & w1 & -> & H1).
    destruct (IH n1 w1) as (n2 & w2 & -> & H2).
    exists n2, w2. split; [reflexivity|].
    eapply removed_only_trans.
    + eapply removed_only_impl; [|exact H1]. intros p ->. left.
    + eapply removed_only_impl; [|exact H2]. intros p Hp. right. exact Hp.
Qed.

Lemma delete_folder_under_removes gid c base w :
  exists c' w', delete_folder_under gid c base w = (inr c', w') /\
                removed_only (fun p => pjoin base gid `prefix_of` p) w w'.
Proof.
  unfold delete_folder_under, bind at 1, get_world.
  destruct (exists_ (disk w) (pjoin base gid) && is_dir (disk w) (pjoin base gid)).
  2:{ exists c, w. split; [reflexivity | apply removed_only_refl]. }
  unfold bind.
  destruct (foldM_delete_one_removes (rglob (disk w) (pjoin base gid)) c.1 w)
    as (n1 & w1 & -> & H1).
  assert (H1' : removed_only (fun p => pjoin base gid `prefix_of` p) w w1).
  { eapply removed_only_impl; [|exact H1]. intros p Hp.
    apply elem_of_rglob in Hp as (_ & Hpre & _). exact Hpre. }
  destruct (rmdir_spec (pjoin base gid) w1)
    as [(w2 & Hrm & Hod2 & Hlog & Hnodes & Hdir & _)|(e & Hrm & He)].
  - exists (n1, S c.2). eexists. split.
    + apply try_except_inr. unfold bind. rewrite Hrm. cbn. reflexivity.
    + eapply removed_only_trans; [exact H1'|].
      apply removed_only_delete with (p := pjoin base gid); auto.
  - exists (n1, c.2), w1. split; [|exact H1'].
    erewrite try_except_inl; [| unfold bind; rewrite Hrm; reflexivity | exact He].
    reflexivity.
Qed.

Lemma delete_folder_removes self c gid w :
  exists c' w', delete_folder self c gid w = (inr c', w') /\
    removed_only (fun p => pjoin (assets_path self) gid `prefix_of` p \/
                           pjoin (mods_path self) gid `prefix_of` p) w w'.
Proof.
  unfold delete_folder. cbn [foldM]. unfold bind.
  destruct (delete_folder_under_removes gid c (assets_path self) w) as (c1 & w1 & -> & H1).
  destruct (delete_folder_under_removes gid c1 (mods_path self) w1) as (c2 & w2 & -> & H2).
  exists c2, w2. split; [reflexivity|].
  eapply removed_only_trans; (eapply removed_only_impl; [|eassumption]); cbn; auto.
Qed.

Lemma delete_file_in_removes bases gid rel : forall n w,
  exists r w', delete_file_in bases gid rel n w = (inr r, w') /\
    removed_only (fun p => exists base, base ∈ bases /\ p = pjoin (pjoin base gid) rel /\
                                        is_file (disk w) p = true) w w'.
Proof.
  induction bases as [|base rest IH]; intros n w; cbn [delete_file_in].
  - exists (n, false), w. split; [reflexivity | apply removed_only_refl].
  - assert (Hrest : forall w0, disk w0 = disk w ->
              removed_only (fun p => exists base, base ∈ rest /\ p = pjoin (pjoin base gid) rel /\
                                                  is_file (disk w0) p = true) w0
                           (delete_file_in rest gid rel n w0).2 ->
              removed_only (fun p => exists b, b ∈ base :: rest /\
                                               p = pjoin (pjoin b gid) rel /\
                                               is_file (disk w) p = true) w0
                           (delete_file_in rest gid rel n w0).2).
    { intros w0 Hd. apply removed_only_impl. intros p (b & Hb & Hp & Hf).
      exists b. split; [right; exact Hb|]. rewrite <- Hd. auto. }
    unfold bind at 1, get_world.
    destruct (exists_ (disk w) (pjoin (pjoin base gid) rel) &&
              is_file (disk w) (pjoin (pjoin base gid) rel)) eqn:Hthere.
    2:{ destruct (IH n w) as (r & w' & Hrun & Hr). exists r, w'. split; [exact Hrun|].
        specialize (Hrest w eq_refl). rewrite Hrun in Hrest. apply Hrest, Hr. }
    apply andb_true_iff in Hthere as [_ Hfile].
    unfold bind at 1.
    destruct (unlink_spec (pjoin (pjoin base gid) rel) w)
      as [(w1 & Hun & Hod & Hlog & _ & _ & Hnodes & _)|(e & Hun & He & Hl)].
    + erewrite try_except_inr; [| unfold bind; rewrite Hun; cbn; reflexivity].
      eexists. eexists. split; [reflexivity|].
      apply removed_only_delete with (p := pjoin (pjoin base gid) rel); auto.
      exists base. split; [left|]. auto.
    + erewrite try_except_inl; [| unfold bind; rewrite Hun; reflexivity | exact He].
      cbn [bind log_emit ret fst snd]. unfold bind, log_emit, ret.
      match goal with |- context [delete_file_in rest gid rel n ?w1] =>
        destruct (IH n w1) as (r & w' & Hrun & Hr); specialize (Hrest w1 eq_refl);
        rewrite Hrun in *; exists r, w' end.
      split; [reflexivity|].
      eapply removed_only_trans; [apply removed_only_log | apply Hrest, Hr].
Qed.

Lemma delete_file_removes self n t w :
  exists n' w', delete_file self n t w = (inr n', w') /\
    removed_only (fun p => (p = pjoin (pjoin (assets_path self) t.1) t.2 \/
                            p = pjoin (pjoin (mods_path self) t.1) t.2) /\
                           is_file (disk w) p = true) w w'.
Proof.
  unfold delete_file, bind.
  destruct (delete_file_in_removes [assets_path self; mods_path self] t.1 t.2 n w)
    as ([n' found] & w' & -> & Hr).
  assert (Hr' : removed_only (fun p => (p = pjoin (pjoin (assets_path self) t.1) t.2 \/
                                        p = pjoin (pjoin (mods_path self) t.1) t.2) /\
                                       is_file (disk w) p = true) w w').
  { eapply removed_only_impl; [|exact Hr]. intros p (b & Hb & Hp & Hf). split; [|exact Hf].
    apply elem_of_cons in Hb as [->|Hb]; [left; exact Hp|].
    apply list_elem_of_singleton in Hb as ->. right. exact Hp. }
  cbn [fst snd]. destruct found.
  - exists n', w'. split; [reflexivity | exact Hr'].
  - exists n'. eexists. split; [unfold log_emit, ret; reflexivity|].
    eapply removed_only_trans; [exact Hr' | apply removed_only_log].
Qed.

Lemma foldM_removes {A B} (f : A -> B -> M A) (Q : B -> world -> path -> Prop) :
  (forall b w w' p, only_deleted w w' -> Q b w' p -> Q b w p) ->
  (forall a b w, exists a' w', f a b w = (inr a', w') /\ removed_only (Q b w) w w') ->
  forall l a w, exists a' w', foldM f l a w = (inr a', w') /\
                              removed_only (fun p => exists b, b ∈ l /\ Q b w p) w w'.
Proof.
  intros Hmono Hf. induction l as [|b l IH]; intros a w; cbn.
  - exists a, w. split; [reflexivity | apply removed_only_refl].
  - unfold bind. destruct (Hf a b w) as (a1 & w1 & -> & H1).
    destruct (IH a1 w1) as (a2 & w2 & -> & H2).
    exists a2, w2. split; [reflexivity|].
    eapply removed_only_trans.
    + eapply removed_only_impl; [|exact H1]. intros p Hp. exists b. split; [left | exact Hp].
    + eapply removed_only_impl; [|exact H2]. intros p (b' & Hb' & Hp).
      exists b'. split; [right; exact Hb'|]. eapply Hmono; [apply H1 | exact Hp].
Qed.

(** X6: [delete_local] takes nothing from the disk but what its keys name.  A
    path that is gone afterwards lies at or below [<root>/<gid>] for an
    all-digit [gid] that a key names as a whole folder, or is the regular file
    [<root>/<gid>/<rel>] of a key [gid/rel] with all-digit [gid] and non-empty
    [rel]; keys may carry the prefix "(delete)/" or not.  Keys whose folder
    part is not all digits take nothing. *)
Theorem delete_local_removes_only_named self delete_keys w p :
  is_Some (nodes (disk w) !! p) ->
  nodes (disk (delete_local self delete_keys w).2) !! p = None ->
  exists base gid k,
    (base = assets_path self \/ base = mods_path self) /\
    isdigit gid = true /\ k ∈ delete_keys /\
    ((key_body k = gid /\ pjoin base gid `prefix_of` p) \/
     (exists rel, rel <> "" /\ key_body k = gid +:+ "/" +:+ rel /\
                  p = pjoin (pjoin base gid) rel /\ is_file (disk w) p = true)).
Proof.
  intros Hp Hgone. unfold delete_local in Hgone.
  destruct (normalise_keys_inv delete_keys (∅, [])) as [Hids Hfiles]. cbn zeta in *.
  destruct (fold_left normalise_key delete_keys (∅, [])) as [norm_ids file_targets].
  cbn [fst snd] in *. unfold bind in Hgone.
  destruct (foldM_removes (delete_folder self)
              (fun gid (_ : world) p => pjoin (assets_path self) gid `prefix_of` p \/
                                        pjoin (mods_path self) gid `prefix_of` p)
              (fun _ _ _ _ _ H => H) (delete_folder_removes self)
              (sorted norm_ids) (0, 0)%nat w) as ([n1 d1] & w1 & Hrun1 & H1).
  rewrite Hrun1 in Hgone.
  destruct (foldM_removes (delete_file self)
              (fun (t : string * string) w p =>
                 (p = pjoin (pjoin (assets_path self) t.1) t.2 \/
                  p = pjoin (pjoin (mods_path self) t.1) t.2) /\ is_file (disk w) p = true)
              (fun t w w' p Hod H => conj (proj1 H) (is_file_weaken w w' p Hod (proj2 H)))
              (delete_file_removes self) file_targets n1 w1) as (n2 & w2 & Hrun2 & H2).
  cbn [fst snd] in Hgone. rewrite Hrun2 in Hgone. cbn in Hgone.
  destruct (removed_only_trans _ _ _ _
              (removed_only_impl _ (fun p => (exists gid, gid ∈ sorted norm_ids /\
                   (pjoin (assets_path self) gid `prefix_of` p \/
                    pjoin (mods_path self) gid `prefix_of` p)) \/
                 (exists t, t ∈ file_targets /\
                   (p = pjoin (pjoin (assets_path self) t.1) t.2 \/
                    p = pjoin (pjoin (mods_path self) t.1) t.2) /\
                   is_file (disk w) p = true)) _ _ (fun p H => or_introl H) H1)
              (removed_only_impl _ (fun p => (exists gid, gid ∈ sorted norm_ids /\
                   (pjoin (assets_path self) gid `prefix_of` p \/
                    pjoin (mods_path self) gid `prefix_of` p)) \/
                 (exists t, t ∈ file_targets /\
                   (p = pjoin (pjoin (assets_path self) t.1) t.2 \/
                    p = pjoin (pjoin (mods_path self) t.1) t.2) /\
                   is_file (disk w) p = true)) _ _
                 (fun p H => or_intror
                    match H with
                    | ex_intro _ t (conj Ht (conj Hp Hf)) =>
                        ex_intro _ t (conj Ht (conj Hp (is_file_weaken w w1 p (proj1 H1) Hf)))
                    end) H2)) as [_ Hall].
  destruct (Hall p Hp Hgone) as [(gid & Hgid & Hpre)|([gid rel] & Ht & Hpath & Hfile)].
  - apply elem_of_sorted in Hgid.
    destruct (Hids gid Hgid) as [H|(Hdig & k & Hk & Hb)]; [set_solver|].
    destruct Hpre as [Hpre|Hpre].
    + exists (assets_path self), gid, k. auto 10.
    + exists (mods_path self), gid, k. auto 10.
  - destruct (Hfiles gid rel Ht) as [H|(Hdig & Hrel & k & Hk & Hb)]; [inversion H|].
    cbn [fst snd] in Hpath. destruct Hpath as [Hpath|Hpath].
    + exists (assets_path self), gid, k. split; [auto|]. split; [exact Hdig|].
      split; [exact Hk|]. right. exists rel. auto.
    + exists (mods_path self), gid, k. split; [auto|]. split; [exact Hdig|].
      split; [exact Hk|]. right. exists rel. auto.
Qed.

Lemma normalise_keys_prefixed keys : forall acc,
  (forall k, k ∈ keys -> startswith "(delete)/" k = false) ->
  fold_left normalise_key (map (fun k => "(delete)/" +:+ k) keys) acc =
  fold_left normalise_key keys acc.
Proof.
  induction keys as [|k keys IH]; intros acc H; cbn; [reflexivity|].
  rewrite !normalise_key_body, key_body_prefixed, key_body_bare by (apply H; left).
  apply IH. intros k' Hk'. apply H. right. exact Hk'.
Qed.

(** X7: the prefix "(delete)/" is optional.  For keys that do not carry it,
    [delete_local] does the same with and without the prefix put in front of
    every key: the same result, the same disk, the same log. *)
Theorem delete_local_prefix_optional self keys w :
  (forall k, k ∈ keys -> startswith "(delete)/" k = false) ->
  delete_local self (map (fun k => "(delete)/" +:+ k) keys) w = delete_local self keys w.
Proof.
  intros H. unfold delete_local. rewrite normalise_keys_prefixed by exact H. reflexivity.
Qed.

Lemma isdigit_not_rooted gid : isdigit gid = true -> startswith "/" gid = false.
Proof.
  intros H. apply isdigit_first in H as (c & rest & -> & Hc).
  unfold startswith. cbn [String.prefix].
  destruct (ascii_dec "/" c) as [<-|]; [discriminate Hc | reflexivity].
Qed.

Lemma delete_file_first self n gid rel w c t :
  nodes (disk w) !! pjoin (pjoin (assets_path self) gid) rel = Some (File c t) ->
  pjoin (pjoin (assets_path self) gid) rel ∉ locked (disk w) ->
  (files_deleted <- foldM (delete_file self) [(gid, rel)] n ;; ret (files_deleted, 0%nat)) w =
    (inr (S n, 0%nat),
     World (net w)
           (Filesystem (delete (pjoin (pjoin (assets_path self) gid) rel) (nodes (disk w)))
                       (locked (disk w)))
           (logged w ++ [LogDeleted (pjoin (pjoin (assets_path self) gid) rel)])
           (clock w) (ui w) (chunks w)).
Proof.
  intros Hfile Hlock.
  assert (Hin : delete_file_in [assets_path self; mods_path self] gid rel n w =
                (inr (S n, true),
                 World (net w)
                   (Filesystem (delete (pjoin (pjoin (assets_path self) gid) rel)
                                       (nodes (disk w))) (locked (disk w)))
                   (logged w ++ [LogDeleted (pjoin (pjoin (assets_path self) gid) rel)])
                   (clock w) (ui w) (chunks w))).
  { cbn [delete_file_in]. unfold bind at 1, get_world.
    unfold exists_, is_file. rewrite Hfile. cbn [andb]. unfold bind at 1.
    erewrite try_except_inr.
    2:{ unfold bind, unlink. rewrite Hfile.
        destruct (decide (_ ∈ locked (disk w))) as [Hl|_]; [contradiction|].
        unfold set_disk, log_emit, ret. cbn. reflexivity. }
    reflexivity. }
  cbn [foldM]. unfold delete_file. cbn [fst snd]. unfold bind. rewrite Hin. reflexivity.
Qed.

(** X8: a relative part that begins with a slash is an absolute path.  For an
    all-digit [gid] and a [rel] that starts with "/", the key [gid/rel] makes
    [delete_local] remove the regular file at the path [rel] itself, wherever
    the two roots are: [base / gid / Path(rel)] is [Path(rel)]. *)
Theorem delete_local_rooted_rel_escapes self gid rel c t w :
  isdigit gid = true ->
  startswith "/" rel = true ->
  nodes (disk w) !! path_parts rel = Some (File c t) ->
  path_parts rel ∉ locked (disk w) ->
  delete_local self [gid +:+ "/" +:+ rel] w =
    (inr (1, 0)%nat,
     World (net w)
           (Filesystem (delete (path_parts rel) (nodes (disk w))) (locked (disk w)))
           (logged w ++ [LogDeleted (path_parts rel)]) (clock w) (ui w) (chunks w)).
Proof.
  intros Hdig Hroot Hfile Hlock.
  assert (Hrel : rel <> "").
  { intros ->. discriminate Hroot. }
  assert (Hbare : startswith "(delete)/" (gid +:+ "/" +:+ rel) = false).
  { apply isdigit_first in Hdig as (c0 & rest & -> & Hc0).
    unfold startswith.
    change (String c0 rest +:+ "/" +:+ rel) with (String c0 (rest +:+ "/" +:+ rel)).
    cbn [String.prefix].
    destruct (ascii_dec "(" c0) as [<-|]; [discriminate Hc0 | reflexivity]. }
  unfold delete_local. cbn [fold_left].
  rewrite normalise_key_body, key_body_bare by exact Hbare.
  unfold normalise_bare.
  rewrite split_once_app_slash.
  2:{ unfold has_slash. rewrite isdigit_no_slash; [reflexivity|].
      apply isdigit_all_chars, Hdig. }
  rewrite Hdig. rewrite (proj2 (String.eqb_neq rel "") Hrel). cbn [negb andb fst snd].
  assert (Hsorted : sorted (∅ : gset string) = []).
  { unfold sorted. rewrite elements_empty. reflexivity. }
  rewrite Hsorted.
  pose proof (delete_file_first self 0 gid rel w c t) as H.
  assert (Hp : pjoin (pjoin (assets_path self) gid) rel = path_parts rel).
  { unfold pjoin at 1. rewrite Hroot. reflexivity. }
  rewrite Hp in H. exact (H Hfile Hlock).
Qed.

Lemma on_the_way_prefix (q dest : path) :
  on_the_way [] (parent dest) q -> q `prefix_of` dest.
Proof.
  intros (k & Hk & ->). cbn. unfold parent in *.
  destruct dest as [|x dest _] using rev_ind; [cbn in Hk; lia|].
  rewrite removelast_last. exists (drop k dest ++ [x]).
  rewrite app_assoc, take_drop. reflexivity.
Qed.

Lemma recv_file_frame dest w : received_at dest w (recv_file dest w).2.
Proof.
  unfold recv_file, bind.
  pose proof (recvall_spec 8 w) as [Hs1 _].
  destruct (recvall 8 w) as [r1 w1]. cbn [fst snd] in *.
  destruct Hs1 as (Hd1 & Hl1 & Hc1 & Hu1 & Hch1 & He1 & Ho1).
  assert (H1 : received_at dest w w1).
  { unfold received_at. rewrite Hd1. repeat split; auto. }
  destruct r1 as [e|raw]; cbn [fst snd]; [exact H1|].
  unfold struct_unpack. destruct (length raw =? 8)%nat; cbn [ret raise fst snd]; [|exact H1].
  unfold mkdir_parents.
  pose proof (mkdir_prefixes_spec (parent dest) [] w1) as (Hs2 & Hn2 & _).
  cbn zeta in *.
  destruct (mkdir_prefixes [] (parent dest) w1) as [r2 w2]. cbn [fst snd] in *.
  destruct Hs2 as (Hnet2 & Hlk2 & Hlog2 & Hc2 & Hu2 & Hch2).
  assert (H2 : received_at dest w w2).
  { unfold received_at. rewrite Hnet2, Hlk2, Hc2, <- Hd1. repeat split; auto.
    - intros p. destruct (Hn2 p) as [->|(Hway & _)]; [left; reflexivity|].
      right. apply on_the_way_prefix, Hway.
    - intros p Hp. destruct (Hn2 p) as [->|(_ & _ & ->)]; [exact Hp | eauto].
    - intros p _. destruct (Hn2 p) as [->|(_ & _ & ->)]; auto. }
  destruct r2 as [e|[]]; cbn [fst snd]; [exact H2|].
  destruct (open_wb dest w2) as [[e|[]] w3] eqn:Hopen.
  { apply open_wb_errors in Hopen as (-> & _). exact H2. }
  apply open_wb_inv in Hopen as (_ & _ & ->).
  unfold with_budget.
  match goal with
  | |- context [recv_file_loop ?b dest ?sz 0%N ?w3] =>
      pose proof (recv_file_loop_spec b dest sz 0%N w3 [] (now w2)
                    ltac:(cbn; lia) ltac:(cbn; apply lookup_insert_eq)) as Hloop;
      destruct (recv_file_loop b dest sz 0%N w3) as [res4 w4]
  end.
  cbn zeta in Hloop. cbn [fst snd net disk nodes locked logged clock ui chunks app] in Hloop.
  destruct Hloop as (_ & Ln & Llk & _ & Lc & Lu & Le & Lo & _ & _).
  destruct H2 as (A1 & A2 & A3 & A4 & A6 & A7 & A8).
  assert (H4 : received_at dest w w4).
  { unfold received_at. rewrite Lo, Le, Llk, Lc, Ln.
    repeat split; try assumption.
    - intros p. destruct (decide (p = dest)) as [->|Hne]; [right; reflexivity|].
      rewrite !lookup_insert_ne by congruence. apply A6.
    - intros p Hp. destruct (decide (p = dest)) as [->|Hne].
      + rewrite lookup_insert_eq. eauto.
      + rewrite !lookup_insert_ne by congruence. apply A7, Hp.
    - intros p Hne. rewrite !lookup_insert_ne by congruence. apply A8, Hne. }
  destruct res4 as [e|written]; cbn [fst snd]; [exact H4|].
  unfold log_emit, ret. cbn. exact H4.
Qed.

(** ** Reading the statistics *)

Lemma stats_get_add_ne k k' d st : k <> k' -> stats_get k (stats_add k' d st) = stats_get k st.
Proof.
  intros Hne. unfold stats_get, stats_add.
  induction st as [|[k0 v] st IH]; cbn; [reflexivity|].
  destruct (String.eqb k0 k') eqn:H0; cbn.
  - apply eqb_string_eq in H0. subst k0.
    destruct (String.eqb k' k) eqn:H1; [apply eqb_string_eq in H1; congruence | exact IH].
  - destruct (String.eqb k0 k); [reflexivity | exact IH].
Qed.

Lemma stats_get_add_eq k d st :
  k ∈ st.*1 -> stats_get k (stats_add k d st) = (stats_get k st + d)%Z.
Proof.
  unfold stats_get, stats_add.
  induction st as [|[k0 v] st IH]; cbn; [intros H; inversion H|].
  intros Hin. destruct (String.eqb k0 k) eqn:H0; cbn; rewrite H0; cbn; [reflexivity|].
  apply IH. apply elem_of_cons in Hin as [->|Hin]; [|exact Hin].
  rewrite String.eqb_refl in H0. discriminate.
Qed.

Lemma stats_get_set_ne k k' v st : k <> k' -> stats_get k (stats_set k' v st) = stats_get k st.
Proof.
  intros Hne. unfold stats_get, stats_set.
  induction st as [|[k0 v0] st IH]; cbn; [reflexivity|].
  destruct (String.eqb k0 k') eqn:H0; cbn.
  - apply eqb_string_eq in H0. subst k0.
    destruct (String.eqb k' k) eqn:H1; [apply eqb_string_eq in H1; congruence | exact IH].
  - destruct (String.eqb k0 k); [reflexivity | exact IH].
Qed.

Lemma stats_get_set_eq k v st : k ∈ st.*1 -> stats_get k (stats_set k v st) = v.
Proof.
  unfold stats_get, stats_set.
  induction st as [|[k0 v0] st IH]; cbn; [intros H; inversion H|].
  intros Hin. destruct (String.eqb k0 k) eqn:H0; cbn; rewrite H0; cbn; [reflexivity|].
  apply IH. apply elem_of_cons in Hin as [->|Hin]; [|exact Hin].
  rewrite String.eqb_refl in H0. discriminate.
Qed.

Lemma dict_set_fresh {V} k (v : V) d : k ∉ d.*1 -> dict_set k v d = d ++ [(k, v)].
Proof.
  induction d as [|[k0 v0] d IH]; cbn; [reflexivity|].
  intros Hn. destruct (String.eqb k0 k) eqn:H0.
  - apply eqb_string_eq in H0. subst k0. exfalso. apply Hn. left.
  - rewrite IH; [reflexivity|]. intros H. apply Hn. right. exact H.
Qed.

Ltac stats_key :=
  match goal with
  | H : _.*1 = full_stats_keys |- _ ∈ _.*1 =>
      rewrite H; unfold full_stats_keys; repeat (first [left | right])
  end.

Section ExecutorInvariants.

Variable sha256_hex : bytes -> string.
Variable json_encode : json -> bytes.
Variable json_decode : bytes -> option json.
Variable py_str_other : json -> string.

(** An invariant of the receiving loop: [P] holds of the statistics and the
    world as long as the loop goes on, [Q] of what it stops with. *)
Lemma receive_loop_invariant self dbk (P Q : stats -> world -> Prop) :
  (forall st w, P st w -> Q st w) ->
  (forall st w, P st w -> P st (recv_json json_decode w).2) ->
  (forall st w msg name size d target,
     P st w -> file_header py_str_other self dbk msg = inr (name, size, d, target) ->
     let r := receive_one name size d target st w in
     Q r.1.2 r.2 /\ (r.1.1 = None -> P r.1.2 r.2)) ->
  forall budget st w,
    P st w ->
    let r := receive_loop json_decode py_str_other budget self dbk st w in
    Q r.1.2 r.2 /\ (r.1.1 = None -> P r.1.2 r.2).
Proof.
  intros HPQ Hjson Hone.
  induction budget as [|budget IH]; intros st w HP; cbn zeta; cbn [receive_loop].
  { split; [apply HPQ, HP | discriminate]. }
  specialize (Hjson st w HP).
  destruct (recv_json json_decode w) as [[e|msg] w1]; cbn [fst snd] in *.
  { split; [apply HPQ, Hjson | discriminate]. }
  destruct (msg_get msg "action") as [e|action] eqn:Hget.
  { split; [apply HPQ, Hjson | discriminate]. }
  assert (Hskip : let r := receive_loop json_decode py_str_other budget self dbk st w1 in
                  Q r.1.2 r.2 /\ (r.1.1 = None -> P r.1.2 r.2)) by (apply IH, Hjson).
  assert (Hdone : Q st w1 /\ (@None exn = None -> P st w1)).
  { split; [apply HPQ, Hjson | intros _; exact Hjson]. }
  assert (Hfile :
    let r := match file_header py_str_other self dbk msg with
             | inl e => ((Some e, st), w1)
             | inr (name, size, dest_base, target) =>
                 match receive_one name size dest_base target st w1 with
                 | ((None, st'), w2) =>
                     receive_loop json_decode py_str_other budget self dbk st' w2
                 | stopped => stopped
                 end
             end in
    Q r.1.2 r.2 /\ (r.1.1 = None -> P r.1.2 r.2)).
  { cbn zeta.
    destruct (file_header py_str_other self dbk msg) as [e|[[[name size] d] target]] eqn:Hh.
    - split; [apply HPQ, Hjson | discriminate].
    - pose proof (Hone st w1 msg name size d target Hjson Hh) as [HQ1 HP1]. cbn zeta in *.
      destruct (receive_one name size d target st w1) as [[[e|] st'] w2]; cbn [fst snd] in *.
      + split; [exact HQ1 | discriminate].
      + apply IH, HP1. reflexivity. }
  repeat match goal with
         | |- context [match ?x with _ => _ end] =>
             match x with
             | file_header _ _ _ _ => fail 1
             | receive_one _ _ _ _ _ _ => fail 1
             | _ => destruct x
             end
         end;
    first [exact Hskip | exact Hfile | exact Hdone].
Qed.

Lemma decide_entry_cases self fs r de r' :
  decide_entry sha256_hex self fs r de = inr r' ->
  dest_by_key r' = dict_set (entry_key de.2) de.1 (dest_by_key r) /\
  ((same_on_disk sha256_hex self fs de = true /\ request_files r' = request_files r /\
    counted r' = stats_add "same_count" 1 (counted r)) \/
   (same_on_disk sha256_hex self fs de = false /\
    (exists meta, index_get (entry_key de.2) (_index self) = Some meta /\
                  request_files r' =
                    dict_set (entry_key de.2) (meta_json meta) (request_files r)) /\
    (counted r' = stats_add "new_count" 1 (counted r) \/
     counted r' = stats_add "update_count" 1 (counted r)))).
Proof.
  unfold decide_entry, bindR, same_on_disk, _classify_file_action, exists_, sha256_of_file.
  destruct (nodes fs !! _) as [[c t|]|]; cbn; [| discriminate |].
  - destruct (String.eqb (sha256_hex c) (sha256 de.2)).
    + intros [= <-]. cbn. split; [reflexivity|]. left. auto.
    + destruct (index_get _ _) as [meta|]; [|discriminate].
      intros [= <-]. cbn. split; [reflexivity|]. right.
      split; [reflexivity|]. split; [eauto | auto].
  - destruct (index_get _ _) as [meta|]; [|discriminate].
    intros [= <-]. cbn. split; [reflexivity|]. right.
    split; [reflexivity|]. split; [eauto | auto].
Qed.

Lemma dict_set_keys {V} k (v : V) d :
  forall k', k' ∈ (dict_set k v d).*1 <-> k' = k \/ k' ∈ d.*1.
Proof.
  induction d as [|[k0 v0] d IH]; intros k'; cbn.
  - rewrite list_elem_of_singleton. split; [auto | intros [H|H]; [exact H | inversion H]].
  - destruct (String.eqb k0 k) eqn:H0; cbn.
    + apply eqb_string_eq in H0. subst k0. rewrite !elem_of_cons. tauto.
    + rewrite !elem_of_cons, IH. tauto.
Qed.

Lemma dict_get_set {V} k (v : V) d k' :
  dict_get k' (dict_set k v d) = if String.eqb k k' then Some v else dict_get k' d.
Proof.
  induction d as [|[k0 v0] d IH]; cbn.
  - reflexivity.
  - destruct (String.eqb k0 k) eqn:H0; cbn.
    + apply eqb_string_eq in H0. subst k0. destruct (String.eqb k k'); reflexivity.
    + destruct (String.eqb k0 k') eqn:H1; [|exact IH].
      apply eqb_string_eq in H1. subst k0.
      rewrite String.eqb_sym, H0. reflexivity.
Qed.

(** What the deciding loop leaves: the request lists the entries that are not
    yet on the disk, in order, the counters count them, and every entry's
    destination is on record. *)
Lemma decide_entries_cases self fs entries : forall r r',
  foldR (decide_entry sha256_hex self fs) entries r = inr r' ->
  NoDup (map (fun de : dest * FileEntry => entry_key de.2) entries) ->
  (forall de, de ∈ entries -> entry_key de.2 ∉ (request_files r).*1) ->
  (counted r).*1 = full_stats_keys ->
  exists metas,
    request_files r' = request_files r ++ metas /\
    Forall2 (requested_as self) (filter (fun de => same_on_disk sha256_hex self fs de = false) entries)
            metas /\
    (counted r').*1 = full_stats_keys /\
    stats_get "same_count" (counted r') =
      (stats_get "same_count" (counted r) +
       Z.of_nat (length (filter (fun de => same_on_disk sha256_hex self fs de = true) entries)))%Z /\
    (stats_get "new_count" (counted r') + stats_get "update_count" (counted r') =
     stats_get "new_count" (counted r) + stats_get "update_count" (counted r) +
     Z.of_nat (length metas))%Z /\
    (forall k, k <> "same_count" -> k <> "new_count" -> k <> "update_count" ->
               stats_get k (counted r') = stats_get k (counted r)) /\
    (forall de, de ∈ entries -> dict_get (entry_key de.2) (dest_by_key r') = Some de.1) /\
    (forall k, (forall de, de ∈ entries -> entry_key de.2 <> k) ->
               dict_get k (dest_by_key r') = dict_get k (dest_by_key r)).
Proof.
  induction entries as [|de entries IH]; intros r r'; cbn [foldR].
  - intros [= <-] _ _ Hk. exists []. rewrite app_nil_r. cbn.
    repeat split; auto; try lia. intros de H. inversion H.
  - unfold bindR at 1.
    destruct (decide_entry sha256_hex self fs r de) as [x|r1] eqn:Hstep; [discriminate|].
    intros Hfold Hnd Hfresh Hk.
    apply decide_entry_cases in Hstep as (Hdbk & Hcase).
    cbn in Hnd. apply NoDup_cons in Hnd as [Hhead Hnd].
    assert (Hk1 : (counted r1).*1 = full_stats_keys).
    { destruct Hcase as [(_ & _ & ->)|(_ & _ & [-> | ->])]; rewrite stats_add_keys; exact Hk. }
    assert (Hfresh1 : forall de', de' ∈ entries -> entry_key de'.2 ∉ (request_files r1).*1).
    { intros de' Hin. destruct Hcase as [(_ & -> & _)|(_ & (meta & _ & ->) & _)].
      - apply Hfresh. right. exact Hin.
      - rewrite dict_set_keys. intros [Heq|Hold].
        + apply Hhead. apply list_elem_of_fmap. exists de'. auto.
        + revert Hold. apply Hfresh. right. exact Hin. }
    destruct (IH r1 r' Hfold Hnd Hfresh1 Hk1)
      as (metas & Hreq & Hall & Hk' & Hsame & Hnu & Hother & Hdest & Hdest').
    assert (Hd0 : dict_get (entry_key de.2) (dest_by_key r') = Some de.1).
    { rewrite Hdest'.
      - rewrite Hdbk, dict_get_set, String.eqb_refl. reflexivity.
      - intros de' Hin Heq. apply Hhead. apply list_elem_of_fmap. exists de'. auto. }
    assert (Hd1 : forall k, (forall de', de' ∈ de :: entries -> entry_key de'.2 <> k) ->
                            dict_get k (dest_by_key r') = dict_get k (dest_by_key r)).
    { intros k Hno. rewrite Hdest' by (intros de' Hin; apply Hno; right; exact Hin).
      rewrite Hdbk, dict_get_set.
      destruct (String.eqb (entry_key de.2) k) eqn:Heq; [|reflexivity].
      apply eqb_string_eq in Heq. exfalso. apply (Hno de); [left | exact Heq]. }
    assert (Hd2 : forall de', de' ∈ de :: entries ->
                              dict_get (entry_key de'.2) (dest_by_key r') = Some de'.1).
    { intros de' Hin. apply elem_of_cons in Hin as [->|Hin]; [exact Hd0 | apply Hdest, Hin]. }
    destruct Hcase as [(Hs & Hr1 & Hc1)|(Hs & (meta & Hmeta & Hr1) & Hc1)].
    + exists metas. rewrite !filter_cons, Hs.
      destruct (decide (true = false)) as [Hx|_]; [discriminate Hx|].
      destruct (decide (true = true)) as [_|Hx]; [|contradiction].
      rewrite Hreq, Hr1. split; [reflexivity|]. split; [exact Hall|]. split; [exact Hk'|].
      split; [|split; [|split]].
      * rewrite Hsame, Hc1, stats_get_add_eq by stats_key. cbn [length]. lia.
      * rewrite Hnu, Hc1, !stats_get_add_ne by discriminate. reflexivity.
      * intros k H1 H2 H3. rewrite Hother, Hc1, stats_get_add_ne by auto. reflexivity.
      * split; assumption.
    + exists ((entry_key de.2, meta_json meta) :: metas). rewrite !filter_cons, Hs.
      destruct (decide (false = false)) as [_|Hx]; [|contradiction].
      destruct (decide (false = true)) as [Hx|_]; [discriminate Hx|].
      rewrite Hreq, Hr1, dict_set_fresh by (apply Hfresh; left).
      split; [rewrite <- app_assoc; reflexivity|].
      split; [constructor; [split; [reflexivity | eauto] | exact Hall]|].
      split; [exact Hk'|]. split; [|split; [|split]].
      * rewrite Hsame. destruct Hc1 as [-> | ->]; rewrite stats_get_add_ne by discriminate;
          reflexivity.
      * rewrite Hnu. cbn [length].
        destruct Hc1 as [-> | ->].
        -- rewrite stats_get_add_eq by stats_key.
           rewrite stats_get_add_ne by discriminate. lia.
        -- rewrite stats_get_add_eq by stats_key.
           rewrite stats_get_add_ne by discriminate. lia.
      * intros k H1 H2 H3. rewrite Hother by auto.
        destruct Hc1 as [-> | ->]; rewrite stats_get_add_ne by auto; reflexivity.
      * split; assumption.
Qed.

Lemma request_and_receive_cases self r st w :
  ((2 ^ 32 <= len (json_encode (request_message r)))%N /\
   request_and_receive json_encode json_decode py_str_other self r st w =
     ((Some StructError, st), w)) \/
  ((len (json_encode (request_message r)) < 2 ^ 32)%N /\
   request_and_receive json_encode json_decode py_str_other self r st w =
     receive_loop json_decode py_str_other (S (length (pending (net (requested json_encode r w)))))
                  self (dest_by_key r) st (requested json_encode r w)).
Proof.
  unfold request_and_receive. fold (request_message r).
  destruct (N.lt_ge_cases (len (json_encode (request_message r))) (2 ^ 32)) as [Hlt|Hge].
  - right. split; [exact Hlt|]. rewrite (send_json_ok json_encode _ w Hlt). reflexivity.
  - left. split; [exact Hge|]. rewrite (send_json_too_long json_encode _ w Hge). reflexivity.
Qed.

Lemma request_and_receive_budget self r st w :
  (request_and_receive json_encode json_decode py_str_other self r st w).1.1
    <> Some LoopBudget.
Proof.
  destruct (request_and_receive_cases self r st w) as [[_ ->]|[_ ->]]; [discriminate|].
  apply (receive_loop_spec json_decode py_str_other). lia.
Qed.

Lemma synchronize_connected_eq self selected_keys w :
  _sock self <> None ->
  let entries := _expand_selection_to_file_entries self selected_keys in
  synchronize sha256_hex json_encode json_decode py_str_other self selected_keys w =
  match foldR (decide_entry sha256_hex self (disk w)) entries
              (first_request (length entries)) with
  | inl e => (inl e, w)
  | inr r =>
      let st := stats_set "to_transfer" (Z.of_nat (length (request_files r))) (counted r) in
      match request_files r with
      | [] => (inr (st, self), ticked w)
      | _ :: _ =>
          match request_and_receive json_encode json_decode py_str_other self r st
                                    (ticked w) with
          | ((None, st'), w1) =>
              (inr (stats_set "seconds" (now w1 - now w)%Z st', self), ticked w1)
          | ((Some LoopBudget, st'), w1) => (inl LoopBudget, w1)
          | ((Some e, st'), w1) =>
              (inr (stats_set "seconds" (now w1 - now w)%Z st', close self),
               disconnected e w1)
          end
      end
  end.
Proof.
  intros Hsock. cbn zeta. unfold synchronize.
  destruct (_sock self) as [sock|]; [|contradiction].
  unfold bind at 1, read_disk, first_request. cbn beta.
  destruct (foldR _ _ _) as [e|r]; [reflexivity|].
  unfold bind at 1, time_time at 1. fold (ticked w).
  destruct (request_files r) as [|km rest] eqn:Hreq; [reflexivity|].
  destruct (request_and_receive _ _ _ _ _ _ _) as [[[e|] st'] w1]; [|reflexivity].
  destruct e; reflexivity.
Qed.

(** The ways a connected call of [synchronize] goes. *)
Lemma synchronize_connected_cases self selected_keys w :
  _sock self <> None ->
  let entries := _expand_selection_to_file_entries self selected_keys in
  let run := synchronize sha256_hex json_encode json_decode py_str_other self selected_keys w in
  (exists e, foldR (decide_entry sha256_hex self (disk w)) entries
                   (first_request (length entries)) = inl e /\ run = (inl e, w)) \/
  (exists r, foldR (decide_entry sha256_hex self (disk w)) entries
                   (first_request (length entries)) = inr r /\
     let st := stats_set "to_transfer" (Z.of_nat (length (request_files r))) (counted r) in
     ((request_files r = [] /\ run = (inr (st, self), ticked w)) \/
      (request_files r <> [] /\
       exists stopped st' w1,
         request_and_receive json_encode json_decode py_str_other self r st (ticked w) =
           ((stopped, st'), w1) /\
         match stopped with
         | None => run = (inr (stats_set "seconds" (now w1 - now w)%Z st', self), ticked w1)
         | Some e =>
             e <> LoopBudget /\
             run = (inr (stats_set "seconds" (now w1 - now w)%Z st', close self),
                    disconnected e w1)
         end))).
Proof.
  intros Hsock. cbn zeta. rewrite (synchronize_connected_eq self selected_keys w Hsock).
  cbn zeta.
  destruct (foldR _ _ _) as [e|r]; [left; eauto|]. right. exists r. split; [reflexivity|].
  destruct (request_files r) as [|km rest] eqn:Hreq; [left; auto|]. right.
  split; [discriminate|].
  pose proof (request_and_receive_budget self r
                (stats_set "to_transfer" (Z.of_nat (length (km :: rest))) (counted r))
                (ticked w)) as Hb.
  destruct (request_and_receive _ _ _ _ _ _ _) as [[[e|] st'] w1]; cbn [fst snd] in Hb.
  - exists (Some e), st', w1. split; [reflexivity|]. split; [congruence|].
    destruct e; try reflexivity. contradiction.
  - exists None, st', w1. split; reflexivity.
Qed.

Lemma filter_split_length {A} (f : A -> bool) (l : list A) :
  (length (filter (fun a => f a = true) l) + length (filter (fun a => f a = false) l))%nat
  = length l.
Proof.
  induction l as [|a l IH]; [reflexivity|].
  rewrite !filter_cons. destruct (f a).
  - destruct (decide (true = true)) as [_|H]; [|contradiction].
    destruct (decide (true = false)) as [H|_]; [discriminate H|]. cbn. lia.
  - destruct (decide (false = true)) as [H|_]; [discriminate H|].
    destruct (decide (false = false)) as [_|H]; [|contradiction]. cbn. lia.
Qed.

Lemma expand_selection_NoDup self selected_keys :
  NoDup (map (fun de : dest * FileEntry => entry_key de.2)
             (_expand_selection_to_file_entries self selected_keys)).
Proof. unfold _expand_selection_to_file_entries. apply dedupe_spec. Qed.

Lemma initial_stats_get n :
  stats_get "selected_total" (initial_stats n) = Z.of_nat n /\
  forall k, k ∈ ["to_transfer"; "transferred_files"; "bytes"; "seconds"; "new_count";
                 "update_count"; "same_count"; "assets_files"; "mods_files"] ->
            stats_get k (initial_stats n) = 0%Z.
Proof.
  split; [reflexivity|]. intros k Hk.
  repeat (apply elem_of_cons in Hk as [->|Hk]; [reflexivity|]). inversion Hk.
Qed.

Ltac initial_key := repeat (first [left | right]).

(** The counters the deciding loop has set when it hands over. *)
Lemma decided_counters self fs selected_keys r :
  let entries := _expand_selection_to_file_entries self selected_keys in
  foldR (decide_entry sha256_hex self fs) entries (first_request (length entries)) = inr r ->
  let st := stats_set "to_transfer" (Z.of_nat (length (request_files r))) (counted r) in
  Forall2 (requested_as self) (filter (fun de => same_on_disk sha256_hex self fs de = false) entries)
          (request_files r) /\
  st.*1 = full_stats_keys /\
  stats_get "selected_total" st = Z.of_nat (length entries) /\
  stats_get "same_count" st =
    Z.of_nat (length (filter (fun de => same_on_disk sha256_hex self fs de = true) entries)) /\
  (stats_get "new_count" st + stats_get "update_count" st)%Z =
    Z.of_nat (length (request_files r)) /\
  stats_get "to_transfer" st = Z.of_nat (length (request_files r)) /\
  stats_get "transferred_files" st = 0%Z /\ stats_get "assets_files" st = 0%Z /\
  stats_get "mods_files" st = 0%Z /\ stats_get "bytes" st = 0%Z /\
  stats_get "seconds" st = 0%Z /\
  (forall de, de ∈ entries -> dict_get (entry_key de.2) (dest_by_key r) = Some de.1) /\
  (forall k, (forall de, de ∈ entries -> entry_key de.2 <> k) ->
             dict_get k (dest_by_key r) = None).
Proof.
  cbn zeta. intros Hfold.
  destruct (decide_entries_cases self fs _ _ _ Hfold (expand_selection_NoDup _ _))
    as (metas & Hreq & Hall & Hk & Hsame & Hnu & Hother & Hdest & Hdest').
  { intros de _ H. inversion H. }
  { reflexivity. }
  cbn [request_files first_request app] in Hreq. subst metas.
  split; [exact Hall|]. split; [rewrite stats_set_keys; exact Hk|].
  rewrite stats_get_set_eq by stats_key.
  rewrite !stats_get_set_ne by discriminate.
  cbn [first_request counted dest_by_key] in *.
  destruct (initial_stats_get (length (_expand_selection_to_file_entries self selected_keys)))
    as [Hi0 Hi].
  rewrite !Hi in Hsame, Hnu by initial_key.
  rewrite (Hother "selected_total"), (Hother "transferred_files"), (Hother "assets_files"),
    (Hother "mods_files"), (Hother "bytes"), (Hother "seconds") by discriminate.
  rewrite Hi0, !Hi by initial_key. rewrite Hsame, Hnu.
  split; [reflexivity|]. split; [f_equal; lia|]. split; [f_equal; lia|].
  repeat (split; [reflexivity|]). split; [exact Hdest|].
  intros k Hk'. rewrite Hdest' by exact Hk'. reflexivity.
Qed.

(** X9: the statistics of a connected call add up.  Whenever a connected
    [synchronize] returns, "selected_total" is the number of selected entries
    and equals same_count + new_count + update_count; "to_transfer" equals
    new_count + update_count; "transferred_files" is assets_files +
    mods_files when the transfer ended without an exception (the client is
    still connected), and at most one less when an exception cut it short. *)
Theorem synchronize_statistics_add_up self selected_keys w st c' w' :
  _sock self <> None ->
  synchronize sha256_hex json_encode json_decode py_str_other self selected_keys w =
    (inr (st, c'), w') ->
  let n k := stats_get k st in
  n "selected_total" =
    Z.of_nat (length (_expand_selection_to_file_entries self selected_keys)) /\
  n "selected_total" = (n "same_count" + n "new_count" + n "update_count")%Z /\
  n "to_transfer" = (n "new_count" + n "update_count")%Z /\
  (n "transferred_files" <= n "assets_files" + n "mods_files" <= n "transferred_files" + 1)%Z /\
  (_sock c' <> None -> n "transferred_files" = (n "assets_files" + n "mods_files")%Z).
Proof.
  intros Hsock Hrun. cbn zeta.
  destruct (synchronize_connected_cases self selected_keys w Hsock)
    as [(e & _ & He)|(r & Hfold & Hcases)]; [congruence|].
  cbn zeta in Hcases.
  pose proof (decided_counters self (disk w) selected_keys r Hfold)
    as (Hall & Hk & Htot & Hsame & Hnu & Htt & Htr & Ha & Hm & _ & _ & _ & _).
  cbn zeta in *.
  pose proof (filter_split_length (same_on_disk sha256_hex self (disk w))
                (_expand_selection_to_file_entries self selected_keys)) as Hsplit.
  pose proof (Forall2_length _ _ _ Hall) as Hlen.
  set (st0 := stats_set "to_transfer" (Z.of_nat (length (request_files r))) (counted r)) in *.
  set (frozen := fun s : stats =>
         s.*1 = full_stats_keys /\
         stats_get "selected_total" s = stats_get "selected_total" st0 /\
         stats_get "same_count" s = stats_get "same_count" st0 /\
         stats_get "new_count" s = stats_get "new_count" st0 /\
         stats_get "update_count" s = stats_get "update_count" st0 /\
         stats_get "to_transfer" s = stats_get "to_transfer" st0).
  assert (Hfin : forall (s : stats) sec,
            frozen s ->
            (stats_get "transferred_files" s <=
             stats_get "assets_files" s + stats_get "mods_files" s <=
             stats_get "transferred_files" s + 1)%Z ->
            st = stats_set "seconds" sec s ->
            stats_get "selected_total" st =
              Z.of_nat (length (_expand_selection_to_file_entries self selected_keys)) /\
            stats_get "selected_total" st =
              (stats_get "same_count" st + stats_get "new_count" st +
               stats_get "update_count" st)%Z /\
            stats_get "to_transfer" st =
              (stats_get "new_count" st + stats_get "update_count" st)%Z /\
            (stats_get "transferred_files" st <=
             stats_get "assets_files" st + stats_get "mods_files" st <=
             stats_get "transferred_files" st + 1)%Z /\
            (stats_get "transferred_files" s =
               (stats_get "assets_files" s + stats_get "mods_files" s)%Z ->
             stats_get "transferred_files" st =
               (stats_get "assets_files" st + stats_get "mods_files" st)%Z)).
  { intros s sec (_ & F1 & F2 & F3 & F4 & F5) Hbal ->.
    rewrite !stats_get_set_ne by discriminate. lia. }
  assert (Hfrozen0 : frozen st0) by (unfold frozen; auto 10).
  destruct Hcases as [[Hempty Hres]|(Hne & stopped & st' & w1 & Hrr & Hres)].
  - rewrite Hres in Hrun. injection Hrun as <- <- <-.
    split; [exact Htot|]. split; [lia|]. split; [lia|]. split; [lia|]. intros _. lia.
  - set (P := fun (s : stats) (_ : world) =>
                frozen s /\ stats_get "transferred_files" s =
                            (stats_get "assets_files" s + stats_get "mods_files" s)%Z).
    set (Q := fun (s : stats) (_ : world) =>
                frozen s /\ (stats_get "transferred_files" s <=
                             stats_get "assets_files" s + stats_get "mods_files" s <=
                             stats_get "transferred_files" s + 1)%Z).
    assert (Hloop : Q st' w1 /\ (stopped = None -> P st' w1)).
    { destruct (request_and_receive_cases self r st0 (ticked w)) as [[_ Heq]|[_ Heq]];
        rewrite Heq in Hrr.
      - injection Hrr as <- <- <-. split; [|discriminate].
        split; [exact Hfrozen0 | lia].
      - assert (HPQ : forall s x, P s x -> Q s x).
        { intros s x [H1 H2]. split; [exact H1 | lia]. }
        assert (HP0 : P st0 (requested json_encode r (ticked w))).
        { split; [exact Hfrozen0 | lia]. }
        pose proof (fun Hone => receive_loop_invariant self (dest_by_key r) P Q HPQ
                      (fun s x H => H) Hone
                      (S (length (pending (net (requested json_encode r (ticked w)))))) st0 _ HP0) as Hinv.
        cbn zeta in Hinv. rewrite Hrr in Hinv. apply Hinv. clear Hinv.
        intros s x msg name size d target [(Fk & F1 & F2 & F3 & F4 & F5) Hbal] _.
        cbn zeta. unfold receive_one.
        destruct (recv_file target x) as [[e|v] x1]; cbn [fst snd].
        { split; [|discriminate]. split; [unfold frozen; auto 10 | lia]. }
        assert (Hk1 : (match d with
                       | assets => stats_add "assets_files" 1 s
                       | mods => stats_add "mods_files" 1 s
                       end).*1 = full_stats_keys).
        { destruct d; rewrite stats_add_keys; exact Fk. }
        destruct (as_number size) as [e|sz]; cbn [fst snd].
        { split; [|discriminate]. unfold Q, frozen.
          destruct d; rewrite ?stats_add_keys, ?stats_get_add_eq by stats_key;
            rewrite !stats_get_add_ne by discriminate; repeat split; auto; lia. }
        assert (Hk2 : (stats_add "bytes" sz
                         (match d with
                          | assets => stats_add "assets_files" 1 s
                          | mods => stats_add "mods_files" 1 s
                          end)).*1 = full_stats_keys).
        { rewrite stats_add_keys. exact Hk1. }
        assert (HP : P (stats_add "transferred_files" 1
                          (stats_add "bytes" sz
                             (match d with
                              | assets => stats_add "assets_files" 1 s
                              | mods => stats_add "mods_files" 1 s
                              end))) x1).
        { unfold P, frozen. rewrite stats_add_keys.
          rewrite stats_get_add_eq by stats_key.
          rewrite !(stats_get_add_ne _ "transferred_files") by discriminate.
          rewrite !(stats_get_add_ne _ "bytes") by discriminate.
          destruct d; rewrite ?stats_get_add_eq by stats_key;
            rewrite !stats_get_add_ne by discriminate; repeat split; auto; lia. }
        split; [|intros _; exact HP].
        destruct HP as [HF HB]. split; [exact HF | lia]. }
    destruct Hloop as [[HF HB] HP].
    destruct stopped as [e|].
    + destruct Hres as [_ Hres]. rewrite Hres in Hrun. injection Hrun as <- <- <-.
      destruct (Hfin st' _ HF HB eq_refl) as (G1 & G2 & G3 & G4 & _).
      split; [exact G1|]. split; [exact G2|]. split; [exact G3|]. split; [exact G4|].
      cbn. intros H. contradiction.
    + rewrite Hres in Hrun. injection Hrun as <- <- <-.
      destruct (HP eq_refl) as [_ HB'].
      destruct (Hfin st' _ HF HB eq_refl) as (G1 & G2 & G3 & G4 & G5).
      split; [exact G1|]. split; [exact G2|]. split; [exact G3|]. split; [exact G4|].
      intros _. apply G5, HB'.
Qed.

Lemma recv_json_same_but_inbox w : same_but_inbox w (recv_json json_decode w).2.
Proof. apply (recv_json_spec json_decode w). Qed.

Lemma receive_one_world name size d target st w :
  let r := receive_one name size d target st w in
  received_at target w r.2.
Proof.
  cbn zeta. unfold receive_one.
  pose proof (recv_file_frame target w) as H.
  destruct (recv_file target w) as [[e|v] w1]; cbn [fst snd] in *; [exact H|].
  destruct (as_number size); cbn [fst snd]; [exact H|].
  unfold received_at, ui_emit, log_emit in *. cbn.
  destruct H as (A1 & A2 & A3 & A4 & A6 & A7 & A8).
  exact (conj A1 (conj A2 (conj A3 (conj A4 (conj A6 (conj A7 A8)))))).
Qed.

(** The receiving loop sends nothing. *)
Lemma receive_loop_outbox self dbk budget st w :
  outbox (net (receive_loop json_decode py_str_other budget self dbk st w).2) =
  outbox (net w).
Proof.
  refine (proj1 (receive_loop_invariant self dbk
                   (fun _ x => outbox (net x) = outbox (net w))
                   (fun _ x => outbox (net x) = outbox (net w)) _ _ _ budget st w _)).
  - auto.
  - intros s x H. rewrite <- H. apply recv_json_same_but_inbox.
  - intros s x msg name size d target H _. cbn zeta.
    destruct (receive_one_world name size d target s x) as (Ho & _).
    rewrite Ho. auto.
  - reflexivity.
Qed.

(** X10: a connected [synchronize] sends one message at most: the request for
    the selected entries that are not on the disk with their hash, in the order
    of the selection, each under its key with the manifest's metadata.  With
    nothing to request it sends and receives nothing and only reads the clock;
    a request of 4 GiB or more is not sent at all. *)
Theorem synchronize_sends_one_request self selected_keys w st c' w' :
  _sock self <> None ->
  synchronize sha256_hex json_encode json_decode py_str_other self selected_keys w =
    (inr (st, c'), w') ->
  let entries := _expand_selection_to_file_entries self selected_keys in
  let wanted := filter (fun de => same_on_disk sha256_hex self (disk w) de = false) entries in
  exists files,
    Forall2 (requested_as self) wanted files /\
    let data := json_encode (JObj [("action", JStr "REQUEST_FILES"); ("files", JObj files)]) in
    (wanted = [] -> w' = ticked w /\ c' = self) /\
    (wanted <> [] -> (len data < 2 ^ 32)%N ->
     outbox (net w') = outbox (net w) ++ be_bytes 4 (len data) ++ data) /\
    (wanted <> [] -> (2 ^ 32 <= len data)%N ->
     outbox (net w') = outbox (net w) /\ c' = close self).
Proof.
  intros Hsock Hrun. cbn zeta.
  destruct (synchronize_connected_cases self selected_keys w Hsock)
    as [(e & _ & He)|(r & Hfold & Hcases)]; [congruence|].
  cbn zeta in Hcases.
  pose proof (decided_counters self (disk w) selected_keys r Hfold) as (Hall & _).
  exists (request_files r). split; [exact Hall|].
  fold (request_message r).
  destruct Hcases as [[Hempty Hres]|(Hne & stopped & st' & w1 & Hrr & Hres)].
  - rewrite Hres in Hrun. injection Hrun as <- <- <-.
    rewrite Hempty in Hall. apply Forall2_nil_inv_r in Hall.
    split; [auto|]. split; intros H; contradiction.
  - assert (Hwanted : filter (fun de => same_on_disk sha256_hex self (disk w) de = false)
                        (_expand_selection_to_file_entries self selected_keys) <> []).
    { intros H. rewrite H in Hall. apply Forall2_nil_inv_l in Hall. contradiction. }
    split; [intros H; contradiction|].
    assert (Hout : outbox (net w') = outbox (net w1)).
    { destruct stopped as [e|].
      - destruct Hres as [_ Hres]. rewrite Hres in Hrun. injection Hrun as <- <- <-.
        reflexivity.
      - rewrite Hres in Hrun. injection Hrun as <- <- <-. reflexivity. }
    destruct (request_and_receive_cases self r
                (stats_set "to_transfer" (Z.of_nat (length (request_files r))) (counted r))
                (ticked w)) as [[Hlong Heq]|[Hshort Heq]]; rewrite Heq in Hrr.
    + injection Hrr as <- <- <-. split; [intros _ H; lia|]. intros _ _.
      split; [exact Hout|].
      destruct Hres as [_ Hres]. rewrite Hres in Hrun. injection Hrun as <- <- <-.
      reflexivity.
    + split; [|intros _ H; lia]. intros _ _. rewrite Hout.
      replace w1 with (receive_loop json_decode py_str_other
                         (S (length (pending (net (requested json_encode r (ticked w))))))
                         self (dest_by_key r)
                         (stats_set "to_transfer" (Z.of_nat (length (request_files r)))
                                    (counted r))
                         (requested json_encode r (ticked w))).2 by (rewrite Hrr; reflexivity).
      rewrite receive_loop_outbox. reflexivity.
Qed.






End ExecutorInvariants.


Lemma sent_sent a b s : sent b (sent a s) = sent (a ++ b) s.
Proof. unfold sent. cbn. rewrite app_assoc. reflexivity. Qed.

Lemma reads_concat n : (0 < n)%nat -> forall fuel (l : bytes),
  (length l <= fuel)%nat -> concat (reads fuel n l) = l.
Proof.
  intros Hn. induction fuel as [|fuel IH]; intros l Hl.
  - destruct l; [reflexivity | cbn in Hl; lia].
  - destruct l as [|b l]; [reflexivity|]. cbn [reads concat].
    rewrite IH; [apply take_drop|]. rewrite length_drop. cbn [length] in *. lia.
Qed.

Lemma reads_bounded n fuel : forall l : bytes,
  Forall (fun chunk : bytes => (length chunk <= n)%nat) (reads fuel n l).
Proof.
  induction fuel as [|fuel IH]; intros l; [constructor|].
  destruct l as [|b l]; [constructor|]. cbn [reads]. constructor; [|apply IH].
  rewrite length_take. lia.
Qed.

Lemma lift_sendall data s : lift (sendall data) s = (inr tt, sent data s).
Proof. reflexivity. Qed.

Lemma send_chunks pieces : forall w,
  foldM (fun _ chunk => sendall chunk) pieces tt w =
    (inr tt, World (Conn (inbox (net w)) (ending (net w)) (outbox (net w) ++ concat pieces))
                   (disk w) (logged w) (clock w) (ui w) (chunks w)).
Proof.
  induction pieces as [|c pieces IH]; intros w.
  - cbn. rewrite app_nil_r. destruct w as [[i e o] d l ck u ch]. reflexivity.
  - cbn [foldM concat]. unfold bind. cbn [sendall]. rewrite IH. cbn.
    rewrite app_assoc. reflexivity.
Qed.

Lemma lift_send_chunks pieces s :
  lift (foldM (fun _ chunk => sendall chunk) pieces tt) s = (inr tt, sent (concat pieces) s).
Proof. unfold lift. rewrite send_chunks. reflexivity. Qed.

Lemma lift_pack_send width n s :
  lift (bind (struct_pack width n) sendall) s =
    if (n <? 256 ^ N.of_nat width)%N then (inr tt, sent (be_bytes width n) s)
    else (inl StructError, s).
Proof.
  unfold lift, bind, struct_pack. destruct (n <? 256 ^ N.of_nat width)%N.
  - reflexivity.
  - destruct s. reflexivity.
Qed.

(** What [send_file] does, by what is at the path. *)
Lemma send_file_cases p s :
  send_file p s =
    match nodes (disk (hw s)) !! p with
    | None => (inl FileNotFoundError, s)
    | Some Dir =>
        if (dir_size s p <? 2 ^ 64)%N
        then (inl IsADirectoryError, sent (be_bytes 8 (dir_size s p)) s)
        else (inl StructError, s)
    | Some (File c _) =>
        if (len c <? 2 ^ 64)%N then
          if decide (p ∈ denied s)
          then (inl PermissionError, sent (be_bytes 8 (len c)) s)
          else (inr tt, noted (LogFileSent p (len c)) (sent (be_bytes 8 (len c) ++ c) s))
        else (inl StructError, s)
    end.
Proof.
  unfold send_file, hbind at 1, hread at 1, stat_size.
  destruct (nodes (disk (hw s)) !! p) as [[c t|]|] eqn:Hp; [| |reflexivity].
  - unfold hbind at 1. rewrite lift_pack_send. change (256 ^ N.of_nat 8)%N with (2 ^ 64)%N.
    destruct (len c <? 2 ^ 64)%N; [|reflexivity].
    unfold hbind at 1, hread, read_bytes. cbn [hw sent disk]. rewrite Hp.
    cbn [denied sent]. destruct (decide (p ∈ denied s)); [reflexivity|].
    unfold hbind. rewrite lift_send_chunks.
    rewrite reads_concat by (try lia; cbn; lia).
    rewrite sent_sent. reflexivity.
  - unfold hbind at 1. rewrite lift_pack_send. change (256 ^ N.of_nat 8)%N with (2 ^ 64)%N.
    destruct (dir_size s p <? 2 ^ 64)%N; [|reflexivity].
    unfold hbind at 1, hread, read_bytes. cbn [hw sent disk]. rewrite Hp. reflexivity.
Qed.

(** What a call of [recv_file] that finds its eight size bytes and a free
    destination leaves. *)
Lemma recv_file_result dest w :
  let avail := pending (net w) in
  let size := be_value (take 8 avail) in
  let payload := drop 8 avail in
  let data := take (N.to_nat size) payload in
  (8 <= length avail)%nat ->
  ((length payload < N.to_nat size)%nat -> ending (net w) = Closed) ->
  (forall k, (0 < k <= length (parent dest))%nat ->
             is_file (disk w) (take k (parent dest)) = false) ->
  is_dir (disk w) dest = false ->
  dest ∉ locked (disk w) ->
  exists w',
    recv_file dest w = (inr PyNone, w') /\
    nodes (disk w') !! dest = Some (File data (now w)) /\
    (forall k, (0 < k <= length (parent dest))%nat ->
               nodes (disk w') !! take k (parent dest) = Some Dir) /\
    pending (net w') = drop (length data) payload /\
    logged w' = logged w ++ [LogFileReceived dest (len data)] /\
    exists sizes, chunks w' = chunks w ++ sizes /\
                  Forall (fun n => (0 < n <= chunk_limit)%N) sizes /\
                  fold_right N.add 0%N sizes = len data.
Proof.
  cbn zeta. intros Hlen Hclosed Hfree Hnodir Hunlocked.
  unfold recv_file, bind.
  pose proof (recvall_spec 8 w) as [Hs1 H1]. cbn zeta in H1.
  change (N.to_nat 8) with 8%nat in H1.
  destruct (recvall 8 w) as [r1 w1]. cbn [fst snd] in *.
  destruct Hs1 as (Hd1 & Hl1 & Hc1 & Hu1 & Hch1 & He1 & Ho1).
  replace (8 <=? length (pending (net w)))%nat with true in H1
    by (symmetry; apply Nat.leb_le; exact Hlen).
  destruct H1 as [-> Hp1].
  unfold struct_unpack. rewrite length_take.
  replace (8 `min` length (pending (net w)) =? 8)%nat with true
    by (symmetry; apply Nat.eqb_eq; lia).
  cbn [ret].
  set (size := be_value (take 8 (pending (net w)))) in *.
  pose proof (mkdir_prefixes_spec (parent dest) [] w1) as (Hs2 & Hframe2 & Hdirs2 & Hok2).
  cbn zeta in *. unfold mkdir_parents.
  assert (Hmk : (mkdir_prefixes [] (parent dest) w1).1 = inr tt).
  { apply Hok2. intros p (k & Hk & ->). cbn [app]. rewrite Hd1. apply Hfree, Hk. }
  specialize (Hdirs2 Hmk).
  destruct (mkdir_prefixes [] (parent dest) w1) as [res2 w2]. cbn [fst snd] in *. subst res2.
  destruct Hs2 as (Hn2 & Hlk2 & Hl2 & Hc2 & Hu2 & Hch2).
  assert (Hdest2 : nodes (disk w2) !! dest = nodes (disk w) !! dest).
  { destruct (Hframe2 dest) as [->|(Hon & _)]; [rewrite Hd1; reflexivity|].
    exfalso. exact (not_on_the_way_parent dest Hon). }
  rewrite open_wb_ok; [| unfold is_dir in *; rewrite Hdest2; exact Hnodir
                       | rewrite Hlk2, Hd1; exact Hunlocked].
  unfold with_budget.
  match goal with
  | |- context [recv_file_loop ?b dest size 0%N ?w3] =>
      pose proof (recv_file_loop_spec b dest size 0%N w3 [] (now w2)
                    ltac:(cbn; lia) ltac:(cbn; apply lookup_insert_eq)) as Hloop;
      destruct (recv_file_loop b dest size 0%N w3) as [res4 w4]
  end.
  cbn zeta in Hloop. cbn [fst snd net disk nodes locked logged clock ui chunks app] in Hloop.
  destruct Hloop as (Lp & Ln & _ & Llog & _ & _ & _ & _ & (sizes & Ls & Lf & Lsum) & Lr).
  rewrite Hn2, Hp1 in Lp, Ln, Lsum, Lr.
  replace (N.to_nat (size - 0)) with (N.to_nat size) in * by lia.
  assert (Hnow : now w2 = now w) by (unfold now; rewrite Hc2, Hc1; reflexivity).
  assert (Hres : res4 = inr (len (take (N.to_nat size) (drop 8 (pending (net w)))))).
  { rewrite Lr. rewrite He1. unfold len. rewrite length_take.
    destruct (Nat.leb_spec (N.to_nat size) (length (drop 8 (pending (net w))))) as [Hle|Hgt].
    - f_equal. lia.
    - rewrite (Hclosed Hgt). f_equal. lia. }
  clear Lr. subst res4. unfold log_emit, ret. cbn [fst snd].
  eexists. split; [reflexivity|]. cbn [net disk nodes logged chunks].
  split; [rewrite Ln, Hnow; apply lookup_insert_eq|].
  split.
  { intros k Hk. rewrite Ln.
    assert (Hne : dest <> take k (parent dest)).
    { intros Heq. apply (not_on_the_way_parent dest). rewrite Heq at 2.
      apply take_on_the_way, Hk. }
    rewrite lookup_insert_ne by exact Hne.
    rewrite lookup_insert_ne by exact Hne.
    apply Hdirs2, take_on_the_way, Hk. }
  split; [rewrite Lp, take_drop_length; reflexivity|].
  split; [rewrite Llog, Hl2, Hl1; reflexivity|].
  exists sizes. split; [rewrite Ls, Hch2, Hch1; reflexivity|]. split; assumption.
Qed.

Lemma take_be_bytes_app width n (tail : bytes) :
  take width (be_bytes width n ++ tail) = be_bytes width n.
Proof.
  rewrite take_app_le by (rewrite be_bytes_length; lia).
  apply take_ge. rewrite be_bytes_length. lia.
Qed.

Lemma drop_be_bytes_app width n (tail : bytes) :
  drop width (be_bytes width n ++ tail) = tail.
Proof.
  rewrite drop_app_ge by (rewrite be_bytes_length; lia).
  rewrite be_bytes_length, Nat.sub_diag. reflexivity.
Qed.

(** A whole file on the wire is a whole file on the disk. *)
Lemma recv_file_delivers dest w (data rest : bytes) :
  pending (net w) = be_bytes 8 (len data) ++ data ++ rest ->
  (len data < 2 ^ 64)%N ->
  (forall k, (0 < k <= length (parent dest))%nat ->
             is_file (disk w) (take k (parent dest)) = false) ->
  is_dir (disk w) dest = false ->
  dest ∉ locked (disk w) ->
  exists w',
    recv_file dest w = (inr PyNone, w') /\
    nodes (disk w') !! dest = Some (File data (now w)) /\
    pending (net w') = rest /\
    logged w' = logged w ++ [LogFileReceived dest (len data)] /\
    received_at dest w w'.
Proof.
  intros Hwire Hsize Hfree Hnodir Hunlocked.
  pose proof (recv_file_frame dest w) as Hframe.
  pose proof (recv_file_result dest w) as Hres. cbn zeta in Hres.
  destruct Hres as (w' & Hrun & Hdest & _ & Hpend & Hlog & _); try assumption.
  - rewrite Hwire, length_app, be_bytes_length. lia.
  - rewrite Hwire, take_be_bytes_app, drop_be_bytes_app.
    rewrite be_value_be_bytes_small by exact Hsize.
    unfold len. rewrite length_app. lia.
  - rewrite Hrun in Hframe. cbn [snd] in Hframe.
    rewrite Hwire, take_be_bytes_app, drop_be_bytes_app in Hdest, Hpend, Hlog.
    rewrite be_value_be_bytes_small in Hdest, Hpend, Hlog by exact Hsize.
    assert (Htake : take (N.to_nat (len data)) (data ++ rest) = data).
    { unfold len. rewrite Nat2N.id. rewrite take_app_le by lia. apply take_ge. lia. }
    rewrite Htake in Hdest, Hpend, Hlog.
    exists w'. split; [exact Hrun|]. split; [exact Hdest|].
    split; [rewrite Hpend, drop_app_ge, Nat.sub_diag by lia; reflexivity|].
    split; [exact Hlog | exact Hframe].
Qed.

(** X13: a file sent is the file received.  [send_file] on a regular file the
    host may read, shorter than 2^64 bytes, writes the 8-byte size and then the
    content, and nothing else, to the connection; [recv_file] on a connection
    that delivers these bytes, however cut into segments and whatever follows
    them, writes exactly the content to a destination that can be created, and
    leaves what follows on the connection. *)
Theorem send_file_recv_file_roundtrip p content t s :
  nodes (disk (hw s)) !! p = Some (File content t) ->
  p ∉ denied s ->
  (len content < 2 ^ 64)%N ->
  exists wire,
    send_file p s = (inr tt, noted (LogFileSent p (len content)) (sent wire s)) /\
    forall dest w rest,
      pending (net w) = wire ++ rest ->
      (forall k, (0 < k <= length (parent dest))%nat ->
                 is_file (disk w) (take k (parent dest)) = false) ->
      is_dir (disk w) dest = false ->
      dest ∉ locked (disk w) ->
      exists w',
        recv_file dest w = (inr PyNone, w') /\
        nodes (disk w') !! dest = Some (File content (now w)) /\
        pending (net w') = rest.
Proof.
  intros Hp Hden Hsize. exists (be_bytes 8 (len content) ++ content). split.
  - rewrite send_file_cases, Hp.
    replace (len content <? 2 ^ 64)%N with true by (symmetry; apply N.ltb_lt; exact Hsize).
    destruct (decide (p ∈ denied s)); [contradiction | reflexivity].
  - intros dest w rest Hwire Hfree Hnodir Hunlocked.
    assert (Hwire' : pending (net w) = be_bytes 8 (len content) ++ content ++ rest).
    { rewrite Hwire, <- app_assoc. reflexivity. }
    destruct (recv_file_delivers dest w content rest Hwire' Hsize Hfree Hnodir Hunlocked)
      as (w' & H1 & H2 & H3 & _).
    exists w'. auto.
Qed.


Section ScanFacts.

Variable sha256_hex : bytes -> string.

Lemma logged_more_nil s : logged_more [] s s.
Proof. unfold logged_more. rewrite app_nil_r. destruct s. reflexivity. Qed.

Lemma logged_more_trans m1 m2 s1 s2 s3 :
  logged_more m1 s1 s2 -> logged_more m2 s2 s3 -> logged_more (m1 ++ m2) s1 s3.
Proof. unfold logged_more. intros -> ->. cbn. rewrite app_assoc. reflexivity. Qed.

Lemma scan_yield_logged more s s' sub fp :
  logged_more more s s' -> scan_yield sha256_hex s' sub fp = scan_yield sha256_hex s sub fp.
Proof. intros ->. reflexivity. Qed.

Lemma scan_file_spec sub entries fp s :
  exists more,
    scan_file sha256_hex sub entries fp s =
      (inr (entries ++ option_list (scan_yield sha256_hex s sub fp)),
       HostWorld (hw s) (denied s) (dir_size s) (hlogged s ++ more)) /\
    (is_file (disk (hw s)) fp = true -> fp ∈ denied s -> more = [LogNoPermission fp]).
Proof.
  unfold scan_file, hbind at 1, hget, scan_yield, is_file, try_permission.
  destruct (nodes (disk (hw s)) !! fp) as [[c t|]|] eqn:Hfp.
  - unfold hbind at 1, scan_entry, hread, stat_file, sha256_of_file, bindR. rewrite Hfp.
    destruct (decide (fp ∈ denied s)) as [Hd|Hd].
    + exists [LogNoPermission fp]. split; [|auto]. cbn. rewrite app_nil_r. reflexivity.
    + eexists. split; [reflexivity | intros _ H; contradiction].
  - exists []. split; [|discriminate]. cbn. rewrite !app_nil_r. destruct s. reflexivity.
  - exists []. split; [|discriminate]. cbn. rewrite !app_nil_r. destruct s. reflexivity.
Qed.

Lemma scan_files_spec sub l : forall entries s,
  exists more,
    hfoldM (scan_file sha256_hex sub) l entries s =
      (inr (entries ++ omap (scan_yield sha256_hex s sub) l),
       HostWorld (hw s) (denied s) (dir_size s) (hlogged s ++ more)) /\
    (forall fp, fp ∈ l -> is_file (disk (hw s)) fp = true -> (fp ∈ denied s) ->
                LogNoPermission fp ∈ more).
Proof.
  induction l as [|fp l IH]; intros entries s.
  - exists []. cbn. rewrite !app_nil_r. split; [destruct s; reflexivity|].
    intros fp H. inversion H.
  - cbn [hfoldM]. unfold hbind.
    destruct (scan_file_spec sub entries fp s) as (m1 & -> & Hden).
    destruct (IH (entries ++ option_list (scan_yield sha256_hex s sub fp))
                 (HostWorld (hw s) (denied s) (dir_size s) (hlogged s ++ m1)))
      as (m2 & -> & Hden2).
    exists (m1 ++ m2). cbn [hw denied dir_size hlogged]. split.
    + rewrite <- !app_assoc. cbn [omap list_omap].
      change (omap (scan_yield sha256_hex (HostWorld (hw s) (denied s) (dir_size s) (hlogged s ++ m1)) sub) l)
        with (omap (scan_yield sha256_hex s sub) l).
      f_equal. f_equal. unfold omap at 2. cbn.
      destruct (scan_yield sha256_hex s sub fp); reflexivity.
    + intros fp' Hin Hf Hd. apply elem_of_app.
      apply elem_of_cons in Hin as [->|Hin].
      * left. rewrite (Hden Hf Hd). left.
      * right. apply Hden2; assumption.
Qed.

Lemma scan_sub_spec entries sub s :
  exists more,
    scan_sub sha256_hex entries sub s =
      (inr (entries ++ (if is_numbered_dir (disk (hw s)) sub
                        then omap (scan_yield sha256_hex s sub) (rglob (disk (hw s)) sub)
                        else [])),
       HostWorld (hw s) (denied s) (dir_size s) (hlogged s ++ more)) /\
    (is_numbered_dir (disk (hw s)) sub = true ->
     forall fp, fp ∈ rglob (disk (hw s)) sub -> is_file (disk (hw s)) fp = true ->
                fp ∈ denied s -> LogNoPermission fp ∈ more).
Proof.
  unfold scan_sub, hbind at 1, hget.
  destruct (is_numbered_dir (disk (hw s)) sub).
  - destruct (scan_files_spec sub (rglob (disk (hw s)) sub) entries s) as (more & -> & Hden).
    exists more. split; [reflexivity | intros _; exact Hden].
  - exists []. rewrite !app_nil_r. split; [destruct s; reflexivity | discriminate].
Qed.

Lemma scan_subs_spec subs : forall entries s,
  exists more,
    hfoldM (scan_sub sha256_hex) subs entries s =
      (inr (entries ++
            flat_map (fun sub =>
                        if is_numbered_dir (disk (hw s)) sub
                        then omap (scan_yield sha256_hex s sub) (rglob (disk (hw s)) sub)
                        else []) subs),
       HostWorld (hw s) (denied s) (dir_size s) (hlogged s ++ more)) /\
    (forall sub fp, sub ∈ subs -> is_numbered_dir (disk (hw s)) sub = true ->
       fp ∈ rglob (disk (hw s)) sub -> is_file (disk (hw s)) fp = true ->
       fp ∈ denied s -> LogNoPermission fp ∈ more).
Proof.
  induction subs as [|sub subs IH]; intros entries s.
  - exists []. cbn. rewrite !app_nil_r. split; [destruct s; reflexivity|].
    intros sub fp H. inversion H.
  - cbn [hfoldM flat_map]. unfold hbind.
    destruct (scan_sub_spec entries sub s) as (m1 & -> & Hden1).
    match goal with
    | |- context [hfoldM _ subs ?e ?s1] => destruct (IH e s1) as (m2 & -> & Hden2)
    end.
    cbn [hw denied dir_size hlogged] in *.
    exists (m1 ++ m2). split.
    + rewrite <- !app_assoc. reflexivity.
    + intros sub' fp Hin Hnum Hfp Hfile Hd. apply elem_of_app.
      apply elem_of_cons in Hin as [->|Hin].
      * left. apply Hden1; assumption.
      * right. eapply Hden2; eassumption.
Qed.

Lemma scan_workshop_eq root s :
  scan_workshop sha256_hex root s =
    match nodes (disk (hw s)) !! root with
    | None => (inr [], noted (LogRootMissing root) s)
    | Some (File _ _) => (inl NotADirectoryError, s)
    | Some Dir =>
        match hfoldM (scan_sub sha256_hex) (children (disk (hw s)) root) [] s with
        | (inr entries, s1) => (inr entries, noted (LogScanDone (length entries)) s1)
        | (inl e, s1) => (inl e, s1)
        end
    end.
Proof.
  unfold scan_workshop, hbind at 1, hget, exists_, is_dir.
  destruct (nodes (disk (hw s)) !! root) as [[c0 t0|]|]; reflexivity.
Qed.

(** X15: what [scan_workshop] finds.  On a root that is a directory it
    returns, changes nothing but the host's log, and lists exactly the regular
    files the host may read that lie below a directory with an all-digit name
    directly under the root, each with the folder's name, its path relative
    to the folder, its size, time and hash, and its kind by the lower-cased
    suffix; a file the system refuses to open is left out and logged, and the
    scan goes on.  A root that does not exist gives the empty list and a
    warning; a root that is a regular file raises NotADirectoryError. *)
Theorem scan_workshop_spec root s :
  (is_dir (disk (hw s)) root = true ->
   exists entries more,
     scan_workshop sha256_hex root s =
       (inr entries, HostWorld (hw s) (denied s) (dir_size s) (hlogged s ++ more)) /\
     (forall e, e ∈ entries <->
        exists sub fp c t,
          parent sub = root /\ sub <> root /\ is_dir (disk (hw s)) sub = true /\
          isdigit (basename sub) = true /\
          sub `prefix_of` fp /\ fp <> sub /\
          nodes (disk (hw s)) !! fp = Some (File c t) /\ fp ∉ denied s /\
          e = scanned_entry sha256_hex sub fp c t) /\
     (forall sub fp c t,
        parent sub = root -> sub <> root -> is_dir (disk (hw s)) sub = true ->
        isdigit (basename sub) = true -> sub `prefix_of` fp -> fp <> sub ->
        nodes (disk (hw s)) !! fp = Some (File c t) -> fp ∈ denied s ->
        LogNoPermission fp ∈ more)) /\
  (nodes (disk (hw s)) !! root = None ->
   scan_workshop sha256_hex root s =
     (inr [], HostWorld (hw s) (denied s) (dir_size s) (hlogged s ++ [LogRootMissing root]))) /\
  (is_file (disk (hw s)) root = true ->
   scan_workshop sha256_hex root s = (inl NotADirectoryError, s)).
Proof.
  rewrite scan_workshop_eq. unfold is_dir, is_file.
  destruct (nodes (disk (hw s)) !! root) as [[c0 t0|]|] eqn:Hroot.
  - split; [discriminate|]. split; [discriminate | intros _; reflexivity].
  - split; [|split; discriminate]. intros _.
    destruct (scan_subs_spec (children (disk (hw s)) root) [] s) as (more & -> & Hden).
    cbn [app]. unfold noted. cbn [hw denied dir_size hlogged].
    eexists. eexists. split; [rewrite <- app_assoc; reflexivity|]. split.
    + intros e. rewrite list_elem_of_In, in_flat_map. split.
      * intros (sub & Hsub & He). apply list_elem_of_In in Hsub, He.
        apply elem_of_children in Hsub as (Hpar & Hne & _).
        unfold is_numbered_dir in He.
        destruct (is_dir (disk (hw s)) sub) eqn:Hd; [|inversion He].
        destruct (isdigit (basename sub)) eqn:Hdig; [|inversion He]. cbn in He.
        apply list_elem_of_omap in He as (fp & Hfp & Hy).
        apply elem_of_rglob in Hfp as (_ & Hpre & Hfne & _).
        unfold scan_yield in Hy.
        destruct (nodes (disk (hw s)) !! fp) as [[c t|]|] eqn:Hn; try discriminate.
        destruct (decide (fp ∈ denied s)) as [|Hnd]; [discriminate|].
        injection Hy as <-. exists sub, fp, c, t. unfold is_dir in Hd. auto 10.
      * intros (sub & fp & c & t & Hpar & Hne & Hd & Hdig & Hpre & Hfne & Hn & Hnd & ->).
        exists sub. split.
        -- apply list_elem_of_In, elem_of_children. split; [exact Hpar|]. split; [exact Hne|].
           unfold is_dir in Hd. destruct (nodes (disk (hw s)) !! sub); [eauto | discriminate].
        -- apply list_elem_of_In. unfold is_numbered_dir, is_dir. rewrite Hd, Hdig. cbn.
           apply list_elem_of_omap. exists fp. split.
           ++ apply elem_of_rglob. split; [exact Hd|]. split; [exact Hpre|].
              split; [exact Hfne | rewrite Hn; eauto].
           ++ unfold scan_yield. rewrite Hn.
              destruct (decide (fp ∈ denied s)); [contradiction | reflexivity].
    + intros sub fp c t Hpar Hne Hd Hdig Hpre Hfne Hn Hden'.
      apply elem_of_app. left. apply (Hden sub fp).
      * apply elem_of_children. split; [exact Hpar|]. split; [exact Hne|].
        unfold is_dir in Hd. destruct (nodes (disk (hw s)) !! sub); [eauto | discriminate].
      * unfold is_numbered_dir, is_dir. rewrite Hd, Hdig. reflexivity.
      * apply elem_of_rglob. split; [exact Hd|]. split; [exact Hpre|].
        split; [exact Hfne | rewrite Hn; eauto].
      * unfold is_file. rewrite Hn. reflexivity.
      * exact Hden'.
  - split; [discriminate|]. split; [intros _; reflexivity | discriminate].
Qed.

(** ** The index *)

Lemma grouped_snoc entries e :
  grouped (entries ++ [e]) = dict_set (entry_key e) (meta_json e) (grouped entries).
Proof. unfold grouped. rewrite fold_left_app. reflexivity. Qed.

Lemma dict_set_NoDup {V} k (v : V) d : NoDup d.*1 -> NoDup (dict_set k v d).*1.
Proof.
  induction d as [|[k0 v0] d IH]; cbn; intros Hnd.
  - constructor; [intros H; inversion H | constructor].
  - apply NoDup_cons in Hnd as [Hhead Hnd].
    destruct (String.eqb k0 k) eqn:H0; cbn.
    + constructor; assumption.
    + constructor; [|apply IH, Hnd].
      rewrite dict_set_keys. intros [->|H]; [|contradiction].
      rewrite String.eqb_refl in H0. discriminate.
Qed.

Lemma dict_get_elem {V} k (v : V) d : NoDup d.*1 -> (k, v) ∈ d <-> dict_get k d = Some v.
Proof.
  induction d as [|[k0 v0] d IH]; cbn; intros Hnd.
  - split; [intros H; inversion H | discriminate].
  - apply NoDup_cons in Hnd as [Hhead Hnd]. rewrite elem_of_cons.
    destruct (String.eqb k0 k) eqn:H0.
    + apply eqb_string_eq in H0. subst k0. split.
      * intros [[= ->]|Hin]; [reflexivity|].
        exfalso. apply Hhead. apply list_elem_of_fmap. exists (k, v). auto.
      * intros [= ->]. left. reflexivity.
    + rewrite <- IH by exact Hnd. split; [|auto].
      intros [[= -> ->]|Hin]; [|exact Hin].
      rewrite String.eqb_refl in H0. discriminate.
Qed.

Lemma grouped_NoDup entries : NoDup (grouped entries).*1.
Proof.
  induction entries as [|e entries IH] using rev_ind; [constructor|].
  rewrite grouped_snoc. apply dict_set_NoDup, IH.
Qed.

(** The index holds, under every key, the metadata of the last entry with
    that key. *)
Lemma grouped_get entries k v :
  dict_get k (grouped entries) = Some v ->
  exists e, e ∈ entries /\ entry_key e = k /\ v = meta_json e.
Proof.
  induction entries as [|e entries IH] using rev_ind; [discriminate|].
  rewrite grouped_snoc, dict_get_set.
  destruct (String.eqb (entry_key e) k) eqn:Hk.
  - intros [= <-]. apply eqb_string_eq in Hk. exists e. split; [|auto].
    apply elem_of_app. right. left.
  - intros H. destruct (IH H) as (e' & Hin & He').
    exists e'. split; [apply elem_of_app; left; exact Hin | exact He'].
Qed.

Lemma grouped_get_unique entries e :
  e ∈ entries ->
  (forall e', e' ∈ entries -> entry_key e' = entry_key e -> e' = e) ->
  dict_get (entry_key e) (grouped entries) = Some (meta_json e).
Proof.
  induction entries as [|e0 entries IH] using rev_ind; [intros H; inversion H|].
  intros Hin Huniq. rewrite grouped_snoc, dict_get_set.
  destruct (String.eqb (entry_key e0) (entry_key e)) eqn:Hk.
  - apply eqb_string_eq in Hk. rewrite (Huniq e0); [reflexivity | | exact Hk].
    apply elem_of_app. right. left.
  - apply IH.
    + apply elem_of_app in Hin as [Hin|Hin]; [exact Hin|].
      apply list_elem_of_singleton in Hin. subst e0.
      rewrite String.eqb_refl in Hk. discriminate.
    + intros e' He'. apply Huniq. apply elem_of_app. left. exact He'.
Qed.

(** ** Names without slashes *)

Lemma split_slash_plain s : has_slash s = false -> split_slash s = [s].
Proof.
  unfold has_slash. induction s as [|c s IH]; cbn; [reflexivity|].
  destruct (Ascii.eqb c slash); [discriminate|].
  destruct (split_once s) as [h [t|]]; [discriminate|].
  intros _. rewrite IH by reflexivity. reflexivity.
Qed.

Lemma split_slash_app_slash h t :
  has_slash h = false -> split_slash (h +:+ "/" +:+ t) = h :: split_slash t.
Proof.
  unfold has_slash. change ("/" +:+ t) with (String slash t).
  induction h as [|c h IH].
  - intros _. cbn. reflexivity.
  - change (String c h +:+ String slash t) with (String c (h +:+ String slash t)).
    cbn [split_slash split_once].
    destruct (Ascii.eqb c slash); [discriminate|].
    destruct (split_once h) as [h' [t'|]]; [discriminate|].
    intros _. rewrite IH by reflexivity. reflexivity.
Qed.

Lemma split_join_slash (l : list string) :
  l <> [] -> Forall (fun c => has_slash c = false) l -> split_slash (join_slash l) = l.
Proof.
  induction l as [|x l IH]; [congruence|]. intros _ Hall.
  apply Forall_cons in Hall as [Hx Hall]. destruct l as [|y l].
  - cbn. apply split_slash_plain, Hx.
  - change (join_slash (x :: y :: l)) with (x +:+ "/" +:+ join_slash (y :: l)).
    rewrite split_slash_app_slash by exact Hx. rewrite IH; [reflexivity | discriminate | exact Hall].
Qed.

Lemma join_slash_inj (l1 l2 : list string) :
  l1 <> [] -> l2 <> [] ->
  Forall (fun c => has_slash c = false) l1 -> Forall (fun c => has_slash c = false) l2 ->
  join_slash l1 = join_slash l2 -> l1 = l2.
Proof.
  intros H1 H2 F1 F2 Heq.
  rewrite <- (split_join_slash l1 H1 F1), <- (split_join_slash l2 H2 F2), Heq. reflexivity.
Qed.

Lemma child_path (sub root : path) : parent sub = root -> sub <> root -> sub = root ++ [basename sub].
Proof.
  unfold parent, basename. intros Hp Hne.
  destruct sub as [|x sub _] using rev_ind.
  - cbn in Hp. congruence.
  - rewrite removelast_last in Hp. rewrite last_last. congruence.
Qed.

Lemma prefix_drop (sub fp : path) : sub `prefix_of` fp -> fp = sub ++ drop (length sub) fp.
Proof. intros [k ->]. rewrite drop_app_length. reflexivity. Qed.

(** Two files the scan finds under one root have different keys, when no name
    on the disk holds a slash. *)
Lemma scanned_key_inj root fs sub1 fp1 c1 t1 sub2 fp2 c2 t2 :
  (forall p, is_Some (nodes fs !! p) -> Forall (fun c => has_slash c = false) p) ->
  parent sub1 = root -> sub1 <> root -> isdigit (basename sub1) = true ->
  sub1 `prefix_of` fp1 -> fp1 <> sub1 -> nodes fs !! fp1 = Some (File c1 t1) ->
  parent sub2 = root -> sub2 <> root -> isdigit (basename sub2) = true ->
  sub2 `prefix_of` fp2 -> fp2 <> sub2 -> nodes fs !! fp2 = Some (File c2 t2) ->
  entry_key (scanned_entry sha256_hex sub1 fp1 c1 t1) =
  entry_key (scanned_entry sha256_hex sub2 fp2 c2 t2) ->
  scanned_entry sha256_hex sub1 fp1 c1 t1 = scanned_entry sha256_hex sub2 fp2 c2 t2.
Proof.
  intros Hwf Hp1 Hn1 Hd1 Hpre1 Hne1 Hf1 Hp2 Hn2 Hd2 Hpre2 Hne2 Hf2 Hkey.
  unfold entry_key, scanned_entry in Hkey. cbn [rel_folder name] in Hkey.
  assert (Hs1 : has_slash (basename sub1) = false).
  { unfold has_slash. rewrite isdigit_no_slash; [reflexivity | apply isdigit_all_chars, Hd1]. }
  assert (Hs2 : has_slash (basename sub2) = false).
  { unfold has_slash. rewrite isdigit_no_slash; [reflexivity | apply isdigit_all_chars, Hd2]. }
  pose proof (split_once_app_slash _ (join_slash (drop (length sub1) fp1)) Hs1) as E1.
  pose proof (split_once_app_slash _ (join_slash (drop (length sub2) fp2)) Hs2) as E2.
  rewrite Hkey in E1. rewrite E1 in E2. injection E2 as Hb Hj.
  assert (Hsub : sub1 = sub2).
  { rewrite (child_path sub1 root Hp1 Hn1), (child_path sub2 root Hp2 Hn2), Hb. reflexivity. }
  subst sub2.
  assert (Hrel : drop (length sub1) fp1 = drop (length sub1) fp2).
  { apply join_slash_inj; [| | | |exact Hj].
    - intros H0. apply Hne1. rewrite (prefix_drop _ _ Hpre1), H0, app_nil_r. reflexivity.
    - intros H0. apply Hne2. rewrite (prefix_drop _ _ Hpre2), H0, app_nil_r. reflexivity.
    - apply Forall_drop, Hwf. rewrite Hf1. eauto.
    - apply Forall_drop, Hwf. rewrite Hf2. eauto. }
  assert (Hfp : fp1 = fp2).
  { rewrite (prefix_drop _ _ Hpre1), (prefix_drop _ _ Hpre2), Hrel. reflexivity. }
  subst fp2. rewrite Hf1 in Hf2. injection Hf2 as <- <-. reflexivity.
Qed.

(** X16: the index the host sends.  On a root that is a directory of a disk
    whose names hold no slash, [build_index] returns the message with action
    "INDEX" whose entries hold, under the key [rel_folder/name] and each key
    once, the six fields of exactly the entries [scan_workshop] finds: no
    file's metadata is lost or replaced by another's. *)
Theorem build_index_spec root s :
  is_dir (disk (hw s)) root = true ->
  (forall p, is_Some (nodes (disk (hw s)) !! p) -> Forall (fun c => has_slash c = false) p) ->
  exists entries s' index,
    scan_workshop sha256_hex root s = (inr entries, s') /\
    build_index sha256_hex root s =
      (inr (JObj [("action", JStr "INDEX"); ("entries", JObj index)]), s') /\
    NoDup index.*1 /\
    (forall k v, (k, v) ∈ index <->
                 exists e, e ∈ entries /\ k = entry_key e /\ v = meta_json e).
Proof.
  intros Hroot Hwf.
  destruct (scan_workshop_spec root s) as (Hscan & _).
  destruct (Hscan Hroot) as (entries & more & Hrun & Hentries & _).
  exists entries. eexists. exists (grouped entries).
  split; [exact Hrun|]. split.
  { unfold build_index, hbind. rewrite Hrun. reflexivity. }
  split; [apply grouped_NoDup|].
  intros k v. rewrite dict_get_elem by apply grouped_NoDup. split.
  - intros H. apply grouped_get in H as (e & Hin & <- & ->). eauto.
  - intros (e & Hin & -> & ->). apply grouped_get_unique; [exact Hin|].
    intros e' Hin' Hkey.
    apply Hentries in Hin as (sub & fp & c & t & A1 & A2 & A3 & A4 & A5 & A6 & A7 & _ & ->).
    apply Hentries in Hin'
      as (sub' & fp' & c' & t' & B1 & B2 & B3 & B4 & B5 & B6 & B7 & _ & ->).
    eapply scanned_key_inj; eassumption.
Qed.

End ScanFacts.

Lemma host_step_step i1 d1 r1 i2 d2 r2 s :
  host_step i2 d2 r2 (host_step i1 d1 r1 s) = host_step i2 (d1 ++ d2) (r1 ++ r2) s.
Proof. unfold host_step. cbn. rewrite !app_assoc. reflexivity. Qed.

Lemma answered_answered d1 r1 d2 r2 s :
  answered d2 r2 (answered d1 r1 s) = answered (d1 ++ d2) (r1 ++ r2) s.
Proof. unfold answered. rewrite host_step_step. reflexivity. Qed.

Lemma answered_step d r i1 d1 r1 s :
  answered d r (host_step i1 d1 r1 s) = host_step i1 (d1 ++ d) (r1 ++ r) s.
Proof. unfold answered. rewrite host_step_step. reflexivity. Qed.

Lemma answered_nil s : answered [] [] s = s.
Proof.
  destruct s as [[[i e o] d l c u ch] dn ds hl]. unfold answered, host_step. cbn.
  rewrite !app_nil_r. reflexivity.
Qed.

Lemma sent_answered data s : sent data s = answered data [] s.
Proof. unfold sent, answered, host_step. rewrite app_nil_r. reflexivity. Qed.

Lemma noted_answered r s : noted r s = answered [] [r] s.
Proof.
  destruct s as [[[i e o] d l c u ch] dn ds hl]. unfold noted, answered, host_step. cbn.
  rewrite app_nil_r. reflexivity.
Qed.

Lemma logged_answered more s :
  HostWorld (hw s) (denied s) (dir_size s) (hlogged s ++ more) = answered [] more s.
Proof.
  destruct s as [[[i e o] d l c u ch] dn ds hl]. unfold answered, host_step. cbn.
  rewrite app_nil_r. reflexivity.
Qed.

Section ServerFacts.

Variable sha256_hex : bytes -> string.
Variable json_encode : json -> bytes.
Variable json_decode : bytes -> option json.

Lemma lift_send_json obj s :
  lift (send_json json_encode obj) s =
    if (len (json_encode obj) <? 2 ^ 32)%N
    then (inr tt, answered (frame json_encode obj) [] s)
    else (inl StructError, s).
Proof.
  unfold lift. destruct (N.ltb_spec (len (json_encode obj)) (2 ^ 32)) as [Hlt|Hge].
  - rewrite (send_json_ok json_encode obj (hw s) Hlt). rewrite <- sent_answered. reflexivity.
  - rewrite (send_json_too_long json_encode obj (hw s) Hge). destruct s. reflexivity.
Qed.

Lemma servable_answered root d r s km item :
  servable json_encode root s km item -> servable json_encode root (answered d r s) km item.
Proof. destruct item as [[rf nm] c]. exact id. Qed.

Lemma serve_file_ok root s km rf nm c :
  servable json_encode root s km (rf, nm, c) ->
  serve_file json_encode root tt km s =
    (inr tt,
     answered (file_reply json_encode rf nm c)
              [LogSending rf nm (len c);
               LogFileSent (pjoin (pjoin root rf) nm) (len c)] s).
Proof.
  intros (Hrf & Hnm & (t & Hfile) & Hden & Hsize & Hhdr).
  unfold serve_file. unfold hbind at 1, hread at 1. rewrite Hrf.
  unfold hbind at 1, hread at 1. rewrite Hnm.
  unfold hbind at 1, hread at 1, stat_size. rewrite Hfile.
  unfold hbind at 1, hlog at 1.
  unfold hbind at 1, hread at 1. cbn [hw hlog]. rewrite Hfile.
  unfold hbind at 1. rewrite lift_send_json.
  fold (file_header_message rf nm (len c)).
  replace (len (json_encode (file_header_message rf nm (len c))) <? 2 ^ 32)%N with true
    by (symmetry; apply N.ltb_lt; exact Hhdr).
  rewrite send_file_cases. cbn [hw answered host_step disk denied]. rewrite Hfile.
  replace (len c <? 2 ^ 64)%N with true by (symmetry; apply N.ltb_lt; exact Hsize).
  destruct (decide (_ ∈ denied s)) as [Hd|_]; [contradiction|].
  rewrite noted_answered, sent_answered, !answered_answered.
  change (HostWorld (hw s) (denied s) (dir_size s)
                    (hlogged s ++ [LogSending rf nm (len c)]))
    with (noted (LogSending rf nm (len c)) s).
  rewrite noted_answered, answered_answered. unfold file_reply.
  rewrite !app_nil_r, !app_nil_l. reflexivity.
Qed.

Lemma serve_files_ok root metas : forall served s,
  Forall2 (servable json_encode root s) metas served ->
  exists records,
    hfoldM (serve_file json_encode root) metas tt s =
      (inr tt,
       answered (concat (map (fun item : string * string * bytes =>
                                file_reply json_encode item.1.1 item.1.2 item.2) served))
                records s).
Proof.
  induction metas as [|km metas IH]; intros served s Hall.
  - apply Forall2_nil_inv_l in Hall as ->. exists []. cbn. rewrite answered_nil. reflexivity.
  - apply Forall2_cons_inv_l in Hall as ([[rf nm] c] & served' & Hone & Hrest & ->).
    cbn [hfoldM map concat]. unfold hbind. rewrite (serve_file_ok root s km rf nm c Hone).
    destruct (IH served' (answered (file_reply json_encode rf nm c)
                            [LogSending rf nm (len c);
                             LogFileSent (pjoin (pjoin root rf) nm) (len c)] s))
      as (records & ->).
    { eapply Forall2_impl; [exact Hrest|]. intros km' item. apply servable_answered. }
    eexists. rewrite answered_answered. reflexivity.
Qed.

(** X17: the host's answer to a request.  For a REQUEST_FILES message whose
    files are all there to be read, the host sends, for every requested file
    in the order of the request, the FILE header with the names and the size,
    the 8-byte size and the content, and after the last file the DONE message;
    it sends nothing else, raises nothing, and changes nothing but its log. *)
Theorem serve_message_replies root s msg metas served :
  msg_get msg "action" = inr (JStr "REQUEST_FILES") ->
  msg_item msg "files" = inr (JObj metas) ->
  Forall2 (servable json_encode root s) metas served ->
  (len (json_encode (JObj [("action", JStr "DONE")])) < 2 ^ 32)%N ->
  exists records,
    serve_message json_encode root msg s =
      (inr tt,
       answered (concat (map (fun item : string * string * bytes =>
                                file_reply json_encode item.1.1 item.1.2 item.2) served) ++
                 frame json_encode (JObj [("action", JStr "DONE")]))
                records s).
Proof.
  intros Haction Hfiles Hall Hdone.
  unfold serve_message. unfold hbind at 1, hread at 1. rewrite Haction.
  unfold msg_item in Hfiles. destruct msg as [| | | | |members]; try discriminate.
  destruct (dict_get "files" members) as [files|] eqn:Hget; [|discriminate].
  injection Hfiles as ->.
  unfold hbind at 1, hread at 1. cbn [default from_option id].
  unfold hbind at 1, hread at 1, py_len.
  unfold hbind at 1, hlog at 1.
  unfold hbind at 1, hread at 1, py_items.
  unfold hbind at 1.
  destruct (serve_files_ok root metas served
              (HostWorld (hw s) (denied s) (dir_size s)
                         (hlogged s ++ [LogRequested (length metas)])))
    as (records & ->).
  { eapply Forall2_impl; [exact Hall|]. intros km [[rf nm] c]. exact id. }
  rewrite lift_send_json.
  replace (len (json_encode (JObj [("action", JStr "DONE")])) <? 2 ^ 32)%N with true
    by (symmetry; apply N.ltb_lt; exact Hdone).
  change (HostWorld (hw s) (denied s) (dir_size s)
                    (hlogged s ++ [LogRequested (length metas)]))
    with (noted (LogRequested (length metas)) s).
  rewrite noted_answered, !answered_answered. eexists. reflexivity.
Qed.

Lemma msg_item_in_budget msg k e : msg_item msg k = inl e -> e <> LoopBudget.
Proof.
  intros H ->. destruct msg as [| | | | |members]; try discriminate.
  cbn in H. destruct (dict_get k members); discriminate.
Qed.

(** Whatever [serve_file] does, it only sends and logs. *)
Lemma serve_file_answers root km s :
  exists res data records,
    serve_file json_encode root tt km s = (res, answered data records s) /\ in_budget res.
Proof.
  unfold serve_file. unfold hbind at 1, hread at 1.
  destruct (msg_item km.2 "rel_folder") as [e|rel_folder] eqn:Hrf.
  { exists (inl e), [], []. rewrite answered_nil. split; [reflexivity|].
    intros [= ->]. exact (msg_item_in_budget _ _ _ Hrf eq_refl). }
  unfold hbind at 1, hread at 1.
  destruct (msg_item km.2 "name") as [e|name] eqn:Hnm.
  { exists (inl e), [], []. rewrite answered_nil. split; [reflexivity|].
    intros [= ->]. exact (msg_item_in_budget _ _ _ Hnm eq_refl). }
  assert (Hbad : exists res data records,
             @hraise unit TypeError s = (res, answered data records s) /\ in_budget res).
  { exists (inl TypeError), [], []. rewrite answered_nil. split; [reflexivity | discriminate]. }
  destruct rel_folder as [| | |rf| |]; try exact Hbad.
  destruct name as [| | |nm| |]; try exact Hbad.
  clear Hbad. remember (pjoin (pjoin root rf) nm) as p eqn:Hp.
  unfold hbind at 1, hread at 1.
  destruct (stat_size s p) as [e|size] eqn:Hsize.
  { exists (inl e), [], []. rewrite answered_nil. split; [reflexivity|].
    intros [= ->]. unfold stat_size in Hsize.
    destruct (nodes (disk (hw s)) !! p) as [[c t|]|]; discriminate. }
  unfold hbind at 1, hlog at 1.
  unfold hbind at 1, hread at 1.
  change (stat_size (HostWorld (hw s) (denied s) (dir_size s)
                               (hlogged s ++ [LogSending rf nm size])) p)
    with (stat_size s p). rewrite Hsize.
  change (HostWorld (hw s) (denied s) (dir_size s) (hlogged s ++ [LogSending rf nm size]))
    with (noted (LogSending rf nm size) s).
  rewrite noted_answered.
  unfold hbind at 1. rewrite lift_send_json.
  destruct (len (json_encode _) <? 2 ^ 32)%N.
  2:{ eexists _, _, _. split; [reflexivity | discriminate]. }
  rewrite answered_answered, send_file_cases.
  cbn [hw answered host_step disk denied dir_size].
  destruct (nodes (disk (hw s)) !! p) as [[c t|]|].
  - destruct (len c <? 2 ^ 64)%N.
    + destruct (decide (p ∈ denied s)).
      * rewrite sent_answered, answered_answered.
        eexists _, _, _. split; [reflexivity | discriminate].
      * rewrite noted_answered, sent_answered, !answered_answered.
        eexists _, _, _. split; [reflexivity | discriminate].
    + eexists _, _, _. split; [reflexivity | discriminate].
  - destruct (dir_size s p <? 2 ^ 64)%N.
    + rewrite sent_answered, answered_answered.
      eexists _, _, _. split; [reflexivity | discriminate].
    + eexists _, _, _. split; [reflexivity | discriminate].
  - eexists _, _, _. split; [reflexivity | discriminate].
Qed.

Lemma serve_files_answer root metas : forall s,
  exists res data records,
    hfoldM (serve_file json_encode root) metas tt s = (res, answered data records s) /\
    in_budget res.
Proof.
  induction metas as [|km metas IH]; intros s.
  - exists (inr tt), [], []. rewrite answered_nil. split; [reflexivity | discriminate].
  - cbn [hfoldM]. unfold hbind.
    destruct (serve_file_answers root km s) as (res & d1 & r1 & -> & Hr).
    destruct res as [e|[]].
    + eexists _, _, _. split; [reflexivity | exact Hr].
    + destruct (IH (answered d1 r1 s)) as (res2 & d2 & r2 & -> & Hr2).
      rewrite answered_answered. eexists _, _, _. split; [reflexivity | exact Hr2].
Qed.

(** Whatever [serve_message] does, it only sends and logs. *)
Lemma serve_message_answers root msg s :
  exists res data records,
    serve_message json_encode root msg s = (res, answered data records s) /\ in_budget res.
Proof.
  assert (Hlog : forall action, exists res data records,
             hlog (LogUnknownAction action) s = (res, answered data records s) /\
             in_budget res).
  { intros action. exists (inr tt), [], [LogUnknownAction action]. rewrite <- noted_answered.
    split; [reflexivity | discriminate]. }
  unfold serve_message. unfold hbind at 1, hread at 1.
  destruct (msg_get msg "action") as [e|action] eqn:Hact.
  { exists (inl e), [], []. rewrite answered_nil. split; [reflexivity|].
    intros [= ->]. destruct msg; discriminate. }
  destruct msg as [| | | | |members]; try discriminate.
  destruct action as [| | |a| |]; try apply Hlog.
  destruct (decide (a = "REQUEST_FILES")) as [->|Hne].
  2:{ specialize (Hlog (JStr a)). revert Hlog.
      repeat (destruct a as [|[[] [] [] [] [] [] [] []] a]; try exact id);
        contradiction. }
  unfold hbind at 1, hread at 1.
  unfold hbind at 1, hread at 1.
  destruct (py_len (default (JObj []) (dict_get "files" members))) as [e|n] eqn:Hlen.
  { exists (inl e), [], []. rewrite answered_nil. split; [reflexivity|].
    intros [= ->]. destruct (default (JObj []) (dict_get "files" members)); discriminate. }
  unfold hbind at 1, hlog at 1.
  unfold hbind at 1, hread at 1.
  change (HostWorld (hw s) (denied s) (dir_size s) (hlogged s ++ [LogRequested n]))
    with (noted (LogRequested n) s).
  rewrite noted_answered.
  destruct (py_items (default (JObj []) (dict_get "files" members))) as [e|items] eqn:Hit.
  { eexists _, _, _. split; [reflexivity|].
    intros [= ->]. destruct (default (JObj []) (dict_get "files" members)); discriminate. }
  unfold hbind at 1.
  destruct (serve_files_answer root items (answered [] [LogRequested n] s))
    as (res & d1 & r1 & -> & Hr).
  rewrite answered_answered.
  destruct res as [e|[]].
  { eexists _, _, _. split; [reflexivity | exact Hr]. }
  rewrite lift_send_json.
  destruct (len (json_encode _) <? 2 ^ 32)%N.
  - rewrite answered_answered. eexists _, _, _. split; [reflexivity | discriminate].
  - eexists _, _, _. split; [reflexivity | discriminate].
Qed.

(** Receiving takes from the connection and changes nothing else. *)
Lemma lift_recv_json s :
  exists inbox',
    lift (recv_json json_decode) s =
      ((recv_json json_decode (hw s)).1, host_step inbox' [] [] s) /\
    pending (net (recv_json json_decode (hw s)).2) = concat inbox'.
Proof.
  unfold lift.
  pose proof (recv_json_same_but_inbox json_decode (hw s)) as (A1 & A2 & A3 & A4 & A5 & A6 & A7).
  destruct (recv_json json_decode (hw s)) as [r [[i e o] d l c u ch]]. cbn [fst snd] in *.
  exists i. cbn in *. subst. unfold host_step. rewrite !app_nil_r.
  split; reflexivity.
Qed.

(** The loop only takes from the connection, sends and logs, and it ends
    within its budget. *)
Lemma serve_loop_serves root budget : forall s,
  (length (pending (net (hw s))) < budget)%nat ->
  exists res inbox' data records,
    serve_loop json_encode json_decode budget root s = (res, host_step inbox' data records s) /\
    in_budget res.
Proof.
  induction budget as [|budget IH]; intros s Hb; [lia|].
  cbn [serve_loop]. unfold hbind at 1, htry. unfold hbind at 1.
  destruct (lift_recv_json s) as (i1 & -> & Hp1).
  destruct (recv_json_consumes json_decode (hw s)) as [Hnb Hless].
  destruct (recv_json json_decode (hw s)) as [[e|msg] w1]; cbn [fst snd] in *.
  - assert (Hend : exists res inbox' data records,
               @hret unit tt (noted LogClientGone (host_step i1 [] [] s)) =
                 (res, host_step inbox' data records s) /\ in_budget res).
    { rewrite noted_answered, answered_step.
      eexists _, _, _, _. split; [reflexivity | discriminate]. }
    destruct e; try exact Hend. exfalso. apply Hnb. reflexivity.
  - cbn [hret]. unfold hbind.
    destruct (serve_message_answers root msg (host_step i1 [] [] s)) as (res & d & r & -> & Hr2).
    rewrite answered_step.
    destruct res as [e|[]].
    + eexists _, _, _, _. split; [reflexivity | exact Hr2].
    + destruct (IH (host_step i1 ([] ++ d) ([] ++ r) s)) as (res3 & i3 & d3 & r3 & -> & Hr3).
      { cbn. unfold pending in *. cbn. rewrite <- Hp1.
        specialize (Hless msg eq_refl). lia. }
      rewrite host_step_step. eexists _, _, _, _. split; [reflexivity | exact Hr3].
Qed.

Lemma build_index_logs root s :
  exists res more,
    build_index sha256_hex root s = (res, answered [] more s) /\ in_budget res.
Proof.
  unfold build_index, hbind. rewrite scan_workshop_eq.
  destruct (nodes (disk (hw s)) !! root) as [[c t|]|].
  - eexists _, []. rewrite answered_nil. split; [reflexivity | discriminate].
  - destruct (scan_subs_spec sha256_hex (children (disk (hw s)) root) [] s) as (more & -> & _).
    rewrite logged_answered, noted_answered, answered_answered.
    eexists _, _. split; [reflexivity | discriminate].
  - rewrite noted_answered. eexists _, _. split; [reflexivity | discriminate].
Qed.

Lemma handle_client_serves root s :
  exists res inbox' data records,
    _handle_client sha256_hex json_encode json_decode root s =
      (res, host_step inbox' data records s) /\ in_budget res.
Proof.
  unfold _handle_client. unfold hbind at 1.
  destruct (build_index_logs root s) as (res & more & -> & Hr1).
  destruct res as [e|idx].
  { eexists _, _, _, _. split; [reflexivity | intros [= ->]; apply Hr1; reflexivity]. }
  unfold hbind at 1. rewrite lift_send_json.
  destruct (len (json_encode idx) <? 2 ^ 32)%N.
  2:{ eexists _, _, _, _. split; [reflexivity | discriminate]. }
  rewrite answered_answered.
  unfold hbind at 1, hread at 1.
  destruct (bindR (msg_item idx "entries") py_len) as [e|n] eqn:Hn.
  { eexists _, _, _, _. split; [reflexivity|].
    intros [= ->]. unfold bindR in Hn.
    destruct (msg_item idx "entries") as [e|v] eqn:Hv.
    - injection Hn as ->. exact (msg_item_in_budget _ _ _ Hv eq_refl).
    - destruct v; discriminate. }
  unfold hbind at 1, hlog at 1.
  unfold hbind at 1, hget.
  match goal with
  | |- context [serve_loop _ _ ?b root ?s2] =>
      destruct (serve_loop_serves root b s2) as (res & i & d & r & -> & Hr); [cbn; lia|];
      change s2 with (noted (LogIndexSent n) (answered ([] ++ frame json_encode idx)
                                                      (more ++ []) s))
  end.
  rewrite noted_answered, !answered_answered. unfold answered at 1.
  rewrite host_step_step. eexists _, _, _, _. split; [reflexivity | exact Hr].
Qed.

(** X18: serving a client leaves the host's files alone.  Whatever the root
    holds and whatever the client sends, [_handle_client] ends (with a value
    or a Python exception, never for want of turns of its loop), and the
    host's world afterwards differs from the one before only in what is left
    to read from the connection, in bytes added after those already sent, and
    in records added to the log: the disk is as it was. *)
Theorem handle_client_only_sends_and_logs root s :
  let r := _handle_client sha256_hex json_encode json_decode root s in
  r.1 <> inl LoopBudget /\
  disk (hw r.2) = disk (hw s) /\
  exists inbox' data records, r.2 = host_step inbox' data records s.
Proof.
  cbn zeta. destruct (handle_client_serves root s) as (res & i & d & r & -> & Hr).
  split; [exact Hr|]. split; [reflexivity|]. exists i, d, r. reflexivity.
Qed.

(** A message that is whole on the wire is the message received. *)
Lemma recv_json_frame obj rest w :
  pending (net w) = frame json_encode obj ++ rest ->
  (len (json_encode obj) < 2 ^ 32)%N ->
  json_decode (json_encode obj) = Some obj ->
  (recv_json json_decode w).1 = inr obj /\
  pending (net (recv_json json_decode w).2) = rest.
Proof.
  intros Hwire Hlen Hdec.
  pose proof (recv_json_spec json_decode w) as (_ & Hres & Hrest). cbn zeta in *.
  unfold frame in Hwire. rewrite <- app_assoc in Hwire. rewrite Hwire in *.
  rewrite take_be_bytes_app, drop_be_bytes_app in *.
  rewrite be_value_be_bytes_small in * by exact Hlen.
  unfold len in Hres, Hrest. rewrite Nat2N.id in *.
  assert (H4 : (4 <=? length (be_bytes 4 (N.of_nat (length (json_encode obj))) ++
                              json_encode obj ++ rest))%nat = true).
  { apply Nat.leb_le. rewrite length_app, be_bytes_length. lia. }
  assert (Hn : (length (json_encode obj) <=? length (json_encode obj ++ rest))%nat = true).
  { apply Nat.leb_le. rewrite length_app. lia. }
  rewrite H4, Hn in Hres. specialize (Hrest H4 Hn).
  rewrite take_app_length in Hres. rewrite drop_app_length in Hrest.
  split; [|exact Hrest]. rewrite Hres.
  destruct (be_bytes 4 (N.of_nat (length (json_encode obj))) ++ json_encode obj ++ rest)
    eqn:Hnil.
  { apply (f_equal length) in Hnil. rewrite length_app, be_bytes_length in Hnil.
    discriminate Hnil. }
  unfold decoded. rewrite Hdec. reflexivity.
Qed.

Lemma servable_step root i d r s km item :
  servable json_encode root s km item -> servable json_encode root (host_step i d r s) km item.
Proof. destruct item as [[rf nm] c]. exact id. Qed.

(** A turn of the loop that finds a whole message serves it and goes on. *)
Lemma serve_loop_turn budget root s msg rest :
  pending (net (hw s)) = frame json_encode msg ++ rest ->
  (len (json_encode msg) < 2 ^ 32)%N ->
  json_decode (json_encode msg) = Some msg ->
  exists inbox',
    concat inbox' = rest /\
    serve_loop json_encode json_decode (S budget) root s =
      (serve_message json_encode root msg ;;;
       serve_loop json_encode json_decode budget root)%host (host_step inbox' [] [] s).
Proof.
  intros Hwire Hlen Hdec.
  cbn [serve_loop]. unfold hbind at 1, htry. unfold hbind at 1.
  destruct (lift_recv_json s) as (i1 & -> & Hp1).
  destruct (recv_json_frame msg rest (hw s) Hwire Hlen Hdec) as [-> Hrest].
  exists i1. split; [congruence | reflexivity].
Qed.

(** A turn of the loop that finds nothing to read ends the loop. *)
Lemma serve_loop_end budget root s :
  pending (net (hw s)) = [] ->
  exists inbox',
    concat inbox' = [] /\
    serve_loop json_encode json_decode (S budget) root s =
      (inr tt, host_step inbox' [] [LogClientGone] s).
Proof.
  intros Hnone.
  cbn [serve_loop]. unfold hbind at 1, htry. unfold hbind at 1.
  destruct (lift_recv_json s) as (i1 & -> & Hp1).
  pose proof (recv_json_spec json_decode (hw s)) as (_ & Hres & _). cbn zeta in Hres.
  rewrite Hnone in Hres. rewrite Hres.
  assert (Hleft : concat i1 = []).
  { pose proof (recvall_spec 4 (hw s)) as [_ H4]. cbn zeta in H4.
    rewrite Hnone in H4. change (N.to_nat 4 <=? length [])%nat with false in H4.
    cbv iota in H4. destruct H4 as [H4 Hraw].
    rewrite <- Hp1. clear Hres Hp1.
    unfold recv_json, bind. destruct (recvall 4 (hw s)) as [[e|raw] w1]; cbn [fst snd] in *.
    - exact H4.
    - destruct (ending (net (hw s))); [|discriminate Hraw].
      injection Hraw as ->. exact H4. }
  exists i1. split; [exact Hleft|].
  destruct (ending (net (hw s))); unfold hbind, hlog, hret; cbn [hw denied dir_size hlogged];
    rewrite logged_answered, answered_step; reflexivity.
Qed.

(** The handler once the index is built and fits a message. *)
Lemma handle_client_eq root s idx more :
  build_index sha256_hex root s = (inr idx, answered [] more s) ->
  (len (json_encode idx) < 2 ^ 32)%N ->
  exists n,
    _handle_client sha256_hex json_encode json_decode root s =
      serve_loop json_encode json_decode (S (length (pending (net (hw s))))) root
        (answered (frame json_encode idx) (more ++ [LogIndexSent n]) s).
Proof.
  intros Hb Hilen.
  assert (Hshape : exists entries,
             idx = JObj [("action", JStr "INDEX"); ("entries", JObj (grouped entries))]).
  { unfold build_index, hbind in Hb.
    destruct (scan_workshop sha256_hex root s) as [[e|entries] s1]; [discriminate|].
    exists entries. unfold hret in Hb. congruence. }
  destruct Hshape as (entries & Hshape).
  unfold _handle_client. unfold hbind at 1. rewrite Hb.
  unfold hbind at 1. rewrite lift_send_json.
  replace (len (json_encode idx) <? 2 ^ 32)%N with true
    by (symmetry; apply N.ltb_lt; exact Hilen).
  rewrite answered_answered.
  unfold hbind at 1, hread at 1.
  destruct (bindR (msg_item idx "entries") py_len) as [e|n] eqn:Hn.
  { rewrite Hshape in Hn. discriminate Hn. }
  unfold hbind at 1, hlog at 1.
  unfold hbind at 1, hget.
  rewrite logged_answered, answered_answered.
  exists n. rewrite !app_nil_l, !app_nil_r. reflexivity.
Qed.

(** X19: one request served from start to end.  When the root is scanned into
    the index [idx], and the client sends one REQUEST_FILES message for files
    that are all there to be read and then nothing more, [_handle_client]
    returns normally having sent the index, then for every requested file in
    the order of the request its FILE header, its size and its content, then
    the DONE message, and nothing else; the last thing it logs is that the
    client is gone. *)
Theorem handle_client_serves_request root s idx request metas served :
  (build_index sha256_hex root s).1 = inr idx ->
  (len (json_encode idx) < 2 ^ 32)%N ->
  pending (net (hw s)) = frame json_encode request ->
  (len (json_encode request) < 2 ^ 32)%N ->
  json_decode (json_encode request) = Some request ->
  msg_get request "action" = inr (JStr "REQUEST_FILES") ->
  msg_item request "files" = inr (JObj metas) ->
  Forall2 (servable json_encode root s) metas served ->
  (len (json_encode (JObj [("action", JStr "DONE")])) < 2 ^ 32)%N ->
  exists inbox' records,
    _handle_client sha256_hex json_encode json_decode root s =
      (inr tt,
       host_step inbox'
         (frame json_encode idx ++
          concat (map (fun item : string * string * bytes =>
                         file_reply json_encode item.1.1 item.1.2 item.2) served) ++
          frame json_encode (JObj [("action", JStr "DONE")]))
         (records ++ [LogClientGone]) s) /\
    concat inbox' = [].
Proof.
  intros Hidx Hilen Hwire Hrlen Hdec Haction Hfiles Hall Hdone.
  destruct (build_index_logs root s) as (res & more & Hb & _).
  rewrite Hb in Hidx. cbn [fst] in Hidx. subst res.
  destruct (handle_client_eq root s idx more Hb Hilen) as (n & ->).
  set (s1 := answered (frame json_encode idx) (more ++ [LogIndexSent n]) s).
  destruct (serve_loop_turn (length (pending (net (hw s)))) root s1 request [])
    as (i1 & Hi1 & ->); [rewrite app_nil_r; exact Hwire | exact Hrlen | exact Hdec |].
  unfold hbind.
  destruct (serve_message_replies root (host_step i1 [] [] s1) request metas served
              Haction Hfiles) as (records & ->); [|exact Hdone|].
  { eapply Forall2_impl; [exact Hall|]. intros km item H.
    apply servable_step. unfold s1. apply servable_answered. exact H. }
  rewrite answered_step. unfold s1, answered at 1. rewrite host_step_step.
  assert (Hlen : length (pending (net (hw s))) = S (length (pending (net (hw s))) - 1)).
  { rewrite Hwire. unfold frame. rewrite length_app, be_bytes_length. lia. }
  rewrite Hlen.
  match goal with
  | |- context [serve_loop _ _ (S ?b) root ?s2] =>
      destruct (serve_loop_end b root s2) as (i2 & Hi2 & ->); [exact Hi1|]
  end.
  rewrite host_step_step. rewrite !app_nil_l, !app_nil_r, <- !app_assoc.
  exists i2. eexists. split; [|exact Hi2].
  rewrite !app_assoc. reflexivity.
Qed.

Lemma serve_message_other root msg action s :
  msg_get msg "action" = inr action ->
  action <> JStr "REQUEST_FILES" ->
  serve_message json_encode root msg s = (inr tt, answered [] [LogUnknownAction action] s).
Proof.
  intros Hact Hne. unfold serve_message, hbind at 1, hread at 1. rewrite Hact.
  rewrite <- noted_answered.
  destruct action as [| | |a| |]; try reflexivity.
  repeat (destruct a as [|[[] [] [] [] [] [] [] []] a]; try reflexivity).
  contradiction.
Qed.

Lemma serve_loop_others root msgs : forall actions budget s,
  (length msgs < budget)%nat ->
  pending (net (hw s)) = concat (map (frame json_encode) msgs) ->
  Forall2 (other_message json_encode json_decode) msgs actions ->
  exists inbox',
    concat inbox' = [] /\
    serve_loop json_encode json_decode budget root s =
      (inr tt, host_step inbox' [] (map LogUnknownAction actions ++ [LogClientGone]) s).
Proof.
  induction msgs as [|msg msgs IH]; intros actions budget s Hb Hwire Hall.
  - apply Forall2_nil_inv_l in Hall as ->. destruct budget as [|budget]; [cbn in Hb; lia|].
    exact (serve_loop_end budget root s Hwire).
  - apply Forall2_cons_inv_l in Hall as (action & actions' & (Hlen & Hdec & Hact & Hne) & Hrest & ->).
    destruct budget as [|budget]; [cbn in Hb; lia|].
    destruct (serve_loop_turn budget root s msg (concat (map (frame json_encode) msgs))
                Hwire Hlen Hdec) as (i1 & Hi1 & ->).
    unfold hbind. rewrite (serve_message_other root msg action _ Hact Hne).
    rewrite answered_step.
    destruct (IH actions' budget (host_step i1 ([] ++ []) ([] ++ [LogUnknownAction action]) s))
      as (i2 & Hi2 & ->); [cbn in Hb; lia | exact Hi1 | exact Hrest |].
    rewrite host_step_step. exists i2. split; [exact Hi2|]. reflexivity.
Qed.

(** X20: messages that ask for nothing the host knows.  When the client sends
    any number of messages that are JSON objects whose action is not
    REQUEST_FILES (or is missing) and then nothing more, [_handle_client]
    returns normally; it sends the index and not one byte in reply to those
    messages, and logs each of their actions as unknown, in order, before it
    logs that the client is gone. *)
Theorem handle_client_ignores_other_actions root s idx msgs actions :
  (build_index sha256_hex root s).1 = inr idx ->
  (len (json_encode idx) < 2 ^ 32)%N ->
  pending (net (hw s)) = concat (map (frame json_encode) msgs) ->
  Forall2 (other_message json_encode json_decode) msgs actions ->
  exists inbox' records,
    _handle_client sha256_hex json_encode json_decode root s =
      (inr tt,
       host_step inbox' (frame json_encode idx)
         (records ++ map LogUnknownAction actions ++ [LogClientGone]) s) /\
    concat inbox' = [].
Proof.
  intros Hidx Hilen Hwire Hall.
  destruct (build_index_logs root s) as (res & more & Hb & _).
  rewrite Hb in Hidx. cbn [fst] in Hidx. subst res.
  destruct (handle_client_eq root s idx more Hb Hilen) as (n & ->).
  destruct (serve_loop_others root msgs actions (S (length (pending (net (hw s)))))
              (answered (frame json_encode idx) (more ++ [LogIndexSent n]) s))
    as (i & Hi & ->); [|exact Hwire|exact Hall|].
  { rewrite Hwire. clear Hwire. induction Hall as [|m a ms acts _ _ IH]; [cbn; lia|].
    cbn [map concat length]. rewrite length_app. unfold frame at 1.
    rewrite length_app, be_bytes_length. lia. }
  unfold answered. rewrite host_step_step. exists i. eexists. split; [|exact Hi].
  rewrite app_nil_r. reflexivity.
Qed.

(** X21: a message that is not an object.  When the first message the client
    sends is valid JSON but not an object (a list, a string, a number), the
    lookup of its action raises [AttributeError]: [_handle_client] ends with
    that exception, no handler catching it, having sent the index and nothing
    more; what the client sent after that message is left unread. *)
Theorem handle_client_rejects_non_object root s idx msg rest :
  (build_index sha256_hex root s).1 = inr idx ->
  (len (json_encode idx) < 2 ^ 32)%N ->
  pending (net (hw s)) = frame json_encode msg ++ rest ->
  (len (json_encode msg) < 2 ^ 32)%N ->
  json_decode (json_encode msg) = Some msg ->
  (forall members, msg <> JObj members) ->
  exists inbox' records,
    _handle_client sha256_hex json_encode json_decode root s =
      (inl AttributeError, host_step inbox' (frame json_encode idx) records s) /\
    concat inbox' = rest.
Proof.
  intros Hidx Hilen Hwire Hlen Hdec Hno.
  destruct (build_index_logs root s) as (res & more & Hb & _).
  rewrite Hb in Hidx. cbn [fst] in Hidx. subst res.
  destruct (handle_client_eq root s idx more Hb Hilen) as (n & ->).
  destruct (serve_loop_turn (length (pending (net (hw s)))) root
              (answered (frame json_encode idx) (more ++ [LogIndexSent n]) s) msg rest
              Hwire Hlen Hdec) as (i1 & Hi1 & ->).
  unfold hbind, serve_message, hread.
  replace (msg_get msg "action") with (@inl exn json AttributeError)
    by (destruct msg; try reflexivity; exfalso; eapply Hno; reflexivity).
  unfold answered. rewrite host_step_step. exists i1. eexists. split; [|exact Hi1].
  rewrite !app_nil_r. reflexivity.
Qed.

End ServerFacts.

Lemma set_folder_override_redirects_plan_witness :
  exists plan,
    build_plan example_digest (set_folder_override (example_client None) "42" mods)
               example_disk = inr plan /\
    forall it, it ∈ plan -> lvl it = file -> act it <> DELETE ->
      (rel_folder (entry it) = "42" ->
       target it = pjoin (pjoin ["home"; "Mods"] "42") (name (entry it))) /\
      (rel_folder (entry it) <> "42" ->
       target it = build_client_target (entry it) ["home"; "Assets"] ["home"; "Mods"]
                     (get_folder_target (example_client None) (rel_folder (entry it)))).
Proof.
  eexists. split; [vm_compute; reflexivity|].
  apply (set_folder_override_redirects_plan example_digest (example_client None)
           example_disk "42" mods).
  vm_compute. reflexivity.
Defined.

Lemma delete_local_removes_only_named_witness :
  exists base gid k,
    (base = assets_path (example_client None) \/ base = mods_path (example_client None)) /\
    isdigit gid = true /\ k ∈ ["(delete)/99"] /\
    ((key_body k = gid /\ pjoin base gid `prefix_of` ["home"; "Assets"; "99"; "gone.crp"]) \/
     (exists rel, rel <> "" /\ key_body k = gid +:+ "/" +:+ rel /\
                  ["home"; "Assets"; "99"; "gone.crp"] = pjoin (pjoin base gid) rel /\
                  is_file (disk example_world) ["home"; "Assets"; "99"; "gone.crp"] = true)).
Proof.
  apply (delete_local_removes_only_named (example_client None) ["(delete)/99"] example_world
           ["home"; "Assets"; "99"; "gone.crp"]).
  - eexists. vm_compute. reflexivity.
  - vm_compute. reflexivity.
Defined.

Lemma delete_local_prefix_optional_witness :
  delete_local (example_client None) ["(delete)/99"; "(delete)/42/readme.txt"] example_world =
  delete_local (example_client None) ["99"; "42/readme.txt"] example_world.
Proof.
  apply (delete_local_prefix_optional (example_client None) ["99"; "42/readme.txt"]
           example_world).
  intros k Hk. apply elem_of_cons in Hk as [->|Hk]; [reflexivity|].
  apply list_elem_of_singleton in Hk as ->. reflexivity.
Defined.

Lemma delete_local_rooted_rel_escapes_witness :
  delete_local (example_client None) ["7//tmp/x"] rooted_world =
    (inr (1, 0)%nat,
     World (net rooted_world)
           (Filesystem (delete (path_parts "/tmp/x") (nodes (disk rooted_world)))
                       (locked (disk rooted_world)))
           (logged rooted_world ++ [LogDeleted (path_parts "/tmp/x")])
           (clock rooted_world) (ui rooted_world) (chunks rooted_world)).
Proof.
  apply (delete_local_rooted_rel_escapes (example_client None) "7" "/tmp/x" ["k"]%byte 1
           rooted_world).
  - reflexivity.
  - reflexivity.
  - vm_compute. reflexivity.
  - vm_compute. set_solver.
Defined.

Lemma synchronize_statistics_add_up_witness :
  exists st c' w',
    synchronize example_digest example_encode (example_decode [file_message; done_message])
      example_str (example_client (Some Sock)) ["42"] example_session = (inr (st, c'), w') /\
    stats_get "selected_total" st = 2%Z /\
    stats_get "selected_total" st =
      (stats_get "same_count" st + stats_get "new_count" st + stats_get "update_count" st)%Z /\
    stats_get "to_transfer" st = (stats_get "new_count" st + stats_get "update_count" st)%Z /\
    stats_get "transferred_files" st =
      (stats_get "assets_files" st + stats_get "mods_files" st)%Z.
Proof.
  eexists _, _, _. split; [vm_compute; reflexivity|].
  destruct (synchronize_statistics_add_up example_digest example_encode
              (example_decode [file_message; done_message]) example_str
              (example_client (Some Sock)) ["42"] example_session _ _ _
              ltac:(discriminate) ltac:(vm_compute; reflexivity))
    as (H1 & H2 & H3 & _ & H5).
  split; [exact H1|]. split; [exact H2|]. split; [exact H3|].
  apply H5. discriminate.
Defined.

Lemma synchronize_sends_one_request_witness :
  exists st c' w',
    synchronize example_digest example_encode (example_decode [file_message; done_message])
      example_str (example_client (Some Sock)) ["42"] example_session = (inr (st, c'), w') /\
    let entries := _expand_selection_to_file_entries (example_client (Some Sock)) ["42"] in
    let wanted := filter (fun de => same_on_disk example_digest (example_client (Some Sock))
                                      (disk example_session) de = false) entries in
    exists files,
      Forall2 (requested_as (example_client (Some Sock))) wanted files /\
      let data := example_encode
                    (JObj [("action", JStr "REQUEST_FILES"); ("files", JObj files)]) in
      (wanted = [] -> w' = ticked example_session /\ c' = example_client (Some Sock)) /\
      (wanted <> [] -> (len data < 2 ^ 32)%N ->
       outbox (net w') = outbox (net example_session) ++ be_bytes 4 (len data) ++ data) /\
      (wanted <> [] -> (2 ^ 32 <= len data)%N ->
       outbox (net w') = outbox (net example_session) /\
       c' = close (example_client (Some Sock))).
Proof.
  eexists _, _, _. split; [vm_compute; reflexivity|].
  eapply (synchronize_sends_one_request example_digest example_encode
            (example_decode [file_message; done_message]) example_str
            (example_client (Some Sock)) ["42"] example_session);
    [discriminate | vm_compute; reflexivity].
Defined.


Lemma send_file_recv_file_roundtrip_witness :
  exists wire,
    send_file (host_root ++ ["42"; "new.crp"]) (example_host []) =
      (inr tt, noted (LogFileSent (host_root ++ ["42"; "new.crp"]) 3)
                     (sent wire (example_host []))) /\
    forall dest w rest,
      pending (net w) = wire ++ rest ->
      (forall k, (0 < k <= length (parent dest))%nat ->
                 is_file (disk w) (take k (parent dest)) = false) ->
      is_dir (disk w) dest = false ->
      dest ∉ locked (disk w) ->
      exists w',
        recv_file dest w = (inr PyNone, w') /\
        nodes (disk w') !! dest = Some (File ["x"; "y"; "z"]%byte (now w)) /\
        pending (net w') = rest.
Proof.
  apply (send_file_recv_file_roundtrip (host_root ++ ["42"; "new.crp"]) ["x"; "y"; "z"]%byte 9
           (example_host [])).
  - vm_compute. reflexivity.
  - vm_compute. set_solver.
  - vm_compute. reflexivity.
Defined.

Lemma build_index_spec_witness :
  exists entries s' index,
    scan_workshop example_digest host_root (example_host []) = (inr entries, s') /\
    build_index example_digest host_root (example_host []) =
      (inr (JObj [("action", JStr "INDEX"); ("entries", JObj index)]), s') /\
    NoDup index.*1 /\
    (forall k v, (k, v) ∈ index <->
                 exists e, e ∈ entries /\ k = entry_key e /\ v = meta_json e).
Proof.
  apply (build_index_spec example_digest host_root (example_host [])).
  - vm_compute. reflexivity.
  - intros p [x Hp]. apply elem_of_list_to_map_2 in Hp.
    repeat (apply elem_of_cons in Hp as [[= -> _]|Hp]; [repeat constructor|]).
    inversion Hp.
Defined.

Lemma serve_message_replies_witness :
  exists records,
    serve_message example_encode host_root example_request (example_host []) =
      (inr tt,
       answered (concat (map (fun item : string * string * bytes =>
                                file_reply example_encode item.1.1 item.1.2 item.2)
                             [("42", "new.crp", ["x"; "y"; "z"]%byte)]) ++
                 frame example_encode (JObj [("action", JStr "DONE")]))
                records (example_host [])).
Proof.
  apply (serve_message_replies example_encode host_root (example_host []) example_request
           [("42/new.crp", request_meta)] [("42", "new.crp", ["x"; "y"; "z"]%byte)]).
  - reflexivity.
  - reflexivity.
  - constructor; [|constructor].
    split; [reflexivity|]. split; [reflexivity|].
    split; [exists 9%Z; vm_compute; reflexivity|].
    split; [vm_compute; set_solver|].
    split; vm_compute; reflexivity.
  - vm_compute. reflexivity.
Defined.

Lemma handle_client_serves_request_witness :
  exists idx inbox' records,
    _handle_client example_digest example_encode (example_decode [example_request]) host_root
      (example_host [frame example_encode example_request]) =
      (inr tt,
       host_step inbox'
         (frame example_encode idx ++
          concat (map (fun item : string * string * bytes =>
                         file_reply example_encode item.1.1 item.1.2 item.2)
                      [("42", "new.crp", ["x"; "y"; "z"]%byte)]) ++
          frame example_encode (JObj [("action", JStr "DONE")]))
         (records ++ [LogClientGone])
         (example_host [frame example_encode example_request])) /\
    concat inbox' = [].
Proof.
  eexists.
  apply (handle_client_serves_request example_digest example_encode
           (example_decode [example_request]) host_root
           (example_host [frame example_encode example_request]) _ example_request
           [("42/new.crp", request_meta)] [("42", "new.crp", ["x"; "y"; "z"]%byte)]).
  - vm_compute. reflexivity.
  - vm_compute. reflexivity.
  - vm_compute. reflexivity.
  - vm_compute. reflexivity.
  - vm_compute. reflexivity.
  - reflexivity.
  - reflexivity.
  - constructor; [|constructor].
    split; [reflexivity|]. split; [reflexivity|].
    split; [exists 9%Z; vm_compute; reflexivity|].
    split; [vm_compute; set_solver|].
    split; vm_compute; reflexivity.
  - vm_compute. reflexivity.
Defined.

Lemma handle_client_ignores_other_actions_witness :
  exists idx inbox' records,
    _handle_client example_digest example_encode
      (example_decode [ping_message; empty_message]) host_root
      (example_host [frame example_encode ping_message; frame example_encode empty_message]) =
      (inr tt,
       host_step inbox' (frame example_encode idx)
         (records ++ map LogUnknownAction [JStr "PING"; JNull] ++ [LogClientGone])
         (example_host [frame example_encode ping_message;
                        frame example_encode empty_message])) /\
    concat inbox' = [].
Proof.
  eexists.
  apply (handle_client_ignores_other_actions example_digest example_encode
           (example_decode [ping_message; empty_message]) host_root
           (example_host [frame example_encode ping_message; frame example_encode empty_message])
           _ [ping_message; empty_message] [JStr "PING"; JNull]).
  - vm_compute. reflexivity.
  - vm_compute. reflexivity.
  - vm_compute. reflexivity.
  - constructor; [|constructor; [|constructor]].
    + split; [vm_compute; reflexivity|]. split; [vm_compute; reflexivity|].
      split; [reflexivity | discriminate].
    + split; [vm_compute; reflexivity|]. split; [vm_compute; reflexivity|].
      split; [reflexivity | discriminate].
Defined.

Lemma handle_client_rejects_non_object_witness :
  exists idx inbox' records,
    _handle_client example_digest example_encode
      (example_decode [JArr [JNum 1]]) host_root
      (example_host [frame example_encode (JArr [JNum 1]); frame example_encode ping_message]) =
      (inl AttributeError,
       host_step inbox' (frame example_encode idx) records
         (example_host [frame example_encode (JArr [JNum 1]);
                        frame example_encode ping_message])) /\
    concat inbox' = frame example_encode ping_message.
Proof.
  eexists.
  apply (handle_client_rejects_non_object example_digest example_encode
           (example_decode [JArr [JNum 1]]) host_root
           (example_host [frame example_encode (JArr [JNum 1]);
                          frame example_encode ping_message])
           _ (JArr [JNum 1]) (frame example_encode ping_message)).
  - vm_compute. reflexivity.
  - vm_compute. reflexivity.
  - vm_compute. reflexivity.
  - vm_compute. reflexivity.
  - vm_compute. reflexivity.
  - discriminate.
Defined.
